(** * AdPay Syria backend ([frontend/backend/server.py]): a shallow embedding

    The FastAPI handlers of [server.py] are embedded as functions in a
    state-and-exception monad over a model of the MongoDB database the
    handlers talk to.  Documents are finite maps from field names to values
    (Python dicts), collections are lists of documents in natural order,
    and pydantic models are records with a fallible constructor.

    Values that the handlers obtain from the environment ([uuid.uuid4()],
    [datetime.now(timezone.utc)], [bcrypt.gensalt()]) are explicit
    arguments of the embedded handlers, in the order in which the source
    obtains them. *)

From Stdlib Require Import ZArith Strings.String Strings.Ascii Strings.Byte List Lia Bool.
From Stdlib Require Import Sorting.Permutation Sorting.Sorted.
From stdpp Require Import base option list gmap strings fin_maps.

Local Open Scope string_scope.
Local Open Scope list_scope.
Local Open Scope Z_scope.

(** ** Bytes and base64 ([base64.b64encode], [base64.b64decode]) *)

Module Base64.

Definition Z_of_byte (b : byte) : Z := Z.of_N (Byte.to_N b).

Definition byte_of_Z (z : Z) : byte :=
  match Byte.of_N (Z.to_N (z mod 256)) with
  | Some b => b
  | None => x00
  end.

Definition Z_of_ascii (c : ascii) : Z := Z.of_N (N_of_ascii c).

(** [table_b2a_base64]: the standard alphabet. *)
Definition table_b2a_base64 : string :=
  "ABCDEFGHIJKLMNOPQRSTUVWXYZabcdefghijklmnopqrstuvwxyz0123456789+/".

Definition BASE64_PAD : ascii := "="%char.

Definition b2a (n : Z) : ascii :=
  match String.get (Z.to_nat n) table_b2a_base64 with
  | Some c => c
  | None => BASE64_PAD
  end.

Fixpoint index_of (c : ascii) (s : string) (i : Z) : option Z :=
  match s with
  | EmptyString => None
  | String c' s' => if Ascii.eqb c c' then Some i else index_of c s' (i + 1)
  end.

(** [table_a2b_base64]: the sextet of an alphabet character, [None] for
    every other character. *)
Definition a2b (c : ascii) : option Z := index_of c table_b2a_base64 0.

(** [binascii.b2a_base64(data, newline=False)]: three bytes give four
    characters; a tail of one or two bytes is padded with [=]. *)
Fixpoint b2a_base64 (data : list byte) : string :=
  match data with
  | [] => EmptyString
  | [a] =>
      let a := Z_of_byte a in
      String (b2a (Z.shiftr a 2))
        (String (b2a (Z.shiftl (Z.land a 3) 4))
           (String BASE64_PAD (String BASE64_PAD EmptyString)))
  | [a; b] =>
      let a := Z_of_byte a in
      let b := Z_of_byte b in
      String (b2a (Z.shiftr a 2))
        (String (b2a (Z.lor (Z.shiftl (Z.land a 3) 4) (Z.shiftr b 4)))
           (String (b2a (Z.shiftl (Z.land b 15) 2))
              (String BASE64_PAD EmptyString)))
  | a :: b :: c :: rest =>
      let a := Z_of_byte a in
      let b := Z_of_byte b in
      let c := Z_of_byte c in
      String (b2a (Z.shiftr a 2))
        (String (b2a (Z.lor (Z.shiftl (Z.land a 3) 4) (Z.shiftr b 4)))
           (String (b2a (Z.lor (Z.shiftl (Z.land b 15) 2) (Z.shiftr c 6)))
              (String (b2a (Z.land c 63)) (b2a_base64 rest))))
  end.

(** State of the decoding loop of [binascii.a2b_base64]. *)
Record a2b_state := {
  quad_pos : Z;
  leftchar : Z;
  pads : Z;
  bin_data : list byte   (* bytes written so far, most recent first *)
}.

Definition a2b_init : a2b_state :=
  {| quad_pos := 0; leftchar := 0; pads := 0; bin_data := [] |}.

(** One data character (a sextet [this_ch]) of the non-strict loop. *)
Definition a2b_data (st : a2b_state) (this_ch : Z) : a2b_state :=
  if quad_pos st =? 0 then
    {| quad_pos := 1; leftchar := this_ch; pads := 0; bin_data := bin_data st |}
  else if quad_pos st =? 1 then
    {| quad_pos := 2; leftchar := Z.land this_ch 15; pads := 0;
       bin_data :=
         byte_of_Z (Z.lor (Z.shiftl (leftchar st) 2) (Z.shiftr this_ch 4))
           :: bin_data st |}
  else if quad_pos st =? 2 then
    {| quad_pos := 3; leftchar := Z.land this_ch 3; pads := 0;
       bin_data :=
         byte_of_Z (Z.lor (Z.shiftl (leftchar st) 4) (Z.shiftr this_ch 2))
           :: bin_data st |}
  else
    {| quad_pos := 0; leftchar := 0; pads := 0;
       bin_data :=
         byte_of_Z (Z.lor (Z.shiftl (leftchar st) 6) this_ch) :: bin_data st |}.

(** [binascii.a2b_base64(s, strict_mode=False)]: characters outside the
    alphabet are skipped, a complete pad sequence ends the parse, and
    input that stops inside a quad is an error ([binascii.Error]). *)
Fixpoint a2b_loop (s : string) (st : a2b_state) : option (list byte) :=
  match s with
  | EmptyString =>
      if quad_pos st =? 0 then Some (rev (bin_data st)) else None
  | String this_ch s' =>
      if Ascii.eqb this_ch BASE64_PAD then
        if (2 <=? quad_pos st) && (4 <=? quad_pos st + (pads st + 1)) then
          Some (rev (bin_data st))
        else if 2 <=? quad_pos st then
          a2b_loop s' {| quad_pos := quad_pos st; leftchar := leftchar st;
                         pads := pads st + 1; bin_data := bin_data st |}
        else a2b_loop s' st
      else
        match a2b this_ch with
        | None => a2b_loop s' st
        | Some v => a2b_loop s' (a2b_data st v)
        end
  end.

Definition a2b_base64 (s : string) : option (list byte) := a2b_loop s a2b_init.

Fixpoint is_ascii (s : string) : bool :=
  match s with
  | EmptyString => true
  | String c s' => (Z_of_ascii c <? 128) && is_ascii s'
  end.

(** [base64.b64encode(contents).decode('utf-8')]. *)
Definition b64encode (contents : list byte) : string := b2a_base64 contents.

(** [base64.b64decode(s)] on a [str]: the string must be ASCII
    ([ValueError] otherwise), then [a2b_base64] runs in non-strict mode. *)
Definition b64decode (s : string) : option (list byte) :=
  if is_ascii s then a2b_base64 s else None.

End Base64.

Import Base64.

(** ** Time ([datetime], [timedelta], [isoformat]) *)

Module Datetime.

(** An aware UTC [datetime]: microseconds since 1970-01-01T00:00:00+00:00. *)
Definition datetime := Z.

Definition MICROSECOND : Z := 1.
Definition SECOND : Z := 1000000.
Definition DAY : Z := 86400 * SECOND.

(** [timedelta(days=n)]. *)
Definition timedelta_days (n : Z) : Z := n * DAY.

(** [datetime.min] and [datetime.max] (years 1 to 9999). *)
Definition datetime_min : datetime := - (719162 * DAY).
Definition datetime_max : datetime := 2932897 * DAY - 1.

Definition in_range (t : datetime) : bool :=
  (datetime_min <=? t) && (t <=? datetime_max).

(** [t + delta]: [OverflowError] ([None]) outside years 1 to 9999. *)
Definition datetime_add (t : datetime) (delta : Z) : option datetime :=
  if in_range (t + delta) then Some (t + delta) else None.

(** [t.timestamp()], in microseconds, and [timegm(t.utctimetuple())],
    in whole seconds. *)
Definition timegm (t : datetime) : Z := t / SECOND.

Definition digit (n : Z) : ascii := ascii_of_N (Z.to_N (48 + n mod 10)).

(** [n] printed in decimal on [width] digits, zero padded. *)
Fixpoint zero_padded (width : nat) (n : Z) : string :=
  match width with
  | O => EmptyString
  | S w => zero_padded w (n / 10) +:+ String (digit n) EmptyString
  end.

(** Proleptic Gregorian date of a day number counted from 1970-01-01. *)
Definition civil_from_days (days : Z) : Z * Z * Z :=
  let z := days + 719468 in
  let era := z / 146097 in
  let doe := z - era * 146097 in
  let yoe := (doe - doe / 1460 + doe / 36524 - doe / 146096) / 365 in
  let doy := doe - (365 * yoe + yoe / 4 - yoe / 100) in
  let mp := (5 * doy + 2) / 153 in
  let d := doy - (153 * mp + 2) / 5 + 1 in
  let m := if mp <? 10 then mp + 3 else mp - 9 in
  let y := yoe + era * 400 + (if m <=? 2 then 1 else 0) in
  (y, m, d).

(** [t.isoformat()] for an aware UTC datetime:
    [YYYY-MM-DDTHH:MM:SS[.ffffff]+00:00]. *)
Definition isoformat (t : datetime) : string :=
  let '(y, m, d) := civil_from_days (t / DAY) in
  let us_of_day := t mod DAY in
  let secs := us_of_day / SECOND in
  let us := us_of_day mod SECOND in
  zero_padded 4 y +:+ "-" +:+ zero_padded 2 m +:+ "-" +:+ zero_padded 2 d
    +:+ "T" +:+ zero_padded 2 (secs / 3600)
    +:+ ":" +:+ zero_padded 2 (secs / 60 mod 60)
    +:+ ":" +:+ zero_padded 2 (secs mod 60)
    +:+ (if us =? 0 then "" else "." +:+ zero_padded 6 us)
    +:+ "+00:00".

End Datetime.
Import Datetime.

(** ** The document store (MongoDB through [motor]) *)

Module Mongo.

(** The Python values the handlers store in document fields: [str],
    [None] and [List[str]]. *)
Inductive value :=
| VStr (s : string)
| VNone
| VList (l : list string).

#[global] Instance value_eq_dec : EqDecision value.
Proof. solve_decision. Defined.

(** A document is a Python dict.  Every read of the source projects
    [_id] away ([{"_id": 0}]), so the model leaves [_id] out. *)
Abbreviation doc := (gmap string value).

(** Query operators used by the source: equality and [$in]. *)
Inductive cond :=
| CEq (v : value)
| CIn (vs : list value).

Definition query := list (string * cond).

Definition in_strings (s : string) (l : list string) : bool :=
  existsb (String.eqb s) l.

Definition strings_eqb (l1 l2 : list string) : bool :=
  bool_decide (l1 = l2).

(** Equality match of a field against a value: a string also matches an
    array that contains it, [None] also matches a missing field. *)
Definition value_matches (field : option value) (v : value) : bool :=
  match v, field with
  | VStr s, Some (VStr s') => String.eqb s s'
  | VStr s, Some (VList l) => in_strings s l
  | VNone, None => true
  | VNone, Some VNone => true
  | VList l, Some (VList l') => strings_eqb l l'
  | _, _ => false
  end.

Definition cond_matches (field : option value) (c : cond) : bool :=
  match c with
  | CEq v => value_matches field v
  | CIn vs => existsb (value_matches field) vs
  end.

Definition matches (q : query) (d : doc) : bool :=
  forallb (fun kc => cond_matches (d !! fst kc) (snd kc)) q.

(** [collection.find_one(q, {"_id": 0})]: the first match in natural order. *)
Definition find_one (q : query) (c : list doc) : option doc :=
  List.find (matches q) c.

(** [collection.find(q, {"_id": 0})]. *)
Definition find (q : query) (c : list doc) : list doc :=
  List.filter (matches q) c.

(** Sort key of a field for a descending sort, in BSON comparison order:
    an empty array sorts below null, a missing field is null, null sorts
    below strings, and an array is represented by its greatest element. *)
Definition max_string (s : string) (l : list string) : string :=
  fold_left (fun m x => if String.leb m x then x else m) l s.

Definition sort_key (field : option value) : Z * string :=
  match field with
  | Some (VList []) => (0, "")
  | None | Some VNone => (1, "")
  | Some (VStr s) => (2, s)
  | Some (VList (x :: l)) => (2, max_string x l)
  end.

Definition key_leb (a b : Z * string) : bool :=
  (fst a <? fst b) || ((fst a =? fst b) && String.leb (snd a) (snd b)).

Definition field_leb (k : string) (d1 d2 : doc) : bool :=
  key_leb (sort_key (d1 !! k)) (sort_key (d2 !! k)).

(** [cursor.sort(k, -1)]: greatest key first; documents with equal keys
    keep their natural order. *)
Fixpoint insert_desc (k : string) (d : doc) (l : list doc) : list doc :=
  match l with
  | [] => [d]
  | e :: l' =>
      if field_leb k e d then d :: l else e :: insert_desc k d l'
  end.

Fixpoint sort_desc (k : string) (l : list doc) : list doc :=
  match l with
  | [] => []
  | d :: l' => insert_desc k d (sort_desc k l')
  end.

(** [cursor.to_list(n)]. *)
Definition to_list (n : nat) (l : list doc) : list doc := take n l.

(** [{"$set": fields}] applied to a document. *)
Definition set_fields (fields : list (string * value)) (d : doc) : doc :=
  fold_left (fun d kv => <[fst kv := snd kv]> d) fields d.

(** [collection.update_one(q, {"$set": fields})]: the first match is
    updated; the result carries [matched_count]. *)
Fixpoint update_one (q : query) (fields : list (string * value))
    (c : list doc) : list doc * Z :=
  match c with
  | [] => ([], 0)
  | d :: c' =>
      if matches q d then (set_fields fields d :: c', 1)
      else let '(c'', n) := update_one q fields c' in (d :: c'', n)
  end.

(** [collection.insert_one(d)]. *)
Definition insert_one (d : doc) (c : list doc) : list doc := c ++ [d].

(** The equality conditions of a query, as the fields of the document an
    upsert inserts. *)
Definition query_fields (q : query) : list (string * value) :=
  flat_map (fun kc => match snd kc with
                      | CEq v => [(fst kc, v)]
                      | CIn _ => []
                      end) q.

(** [collection.update_one(q, {"$set": fields}, upsert=True)]. *)
Definition update_one_upsert (q : query) (fields : list (string * value))
    (c : list doc) : list doc * Z :=
  let '(c', n) := update_one q fields c in
  if n =? 0 then
    (insert_one (set_fields fields (set_fields (query_fields q) ∅)) c, 0)
  else (c', n).

(** The database [db] with the collections of the source. *)
Record Db := {
  users : list doc;
  files : list doc;
  ad_requests : list doc;
  payments : list doc;
  subscriptions : list doc;
  admin_settings : list doc
}.

Inductive collection :=
| Users | Files | AdRequests | Payments | Subscriptions | AdminSettingsColl.

Definition coll (c : collection) (db : Db) : list doc :=
  match c with
  | Users => users db
  | Files => files db
  | AdRequests => ad_requests db
  | Payments => payments db
  | Subscriptions => subscriptions db
  | AdminSettingsColl => admin_settings db
  end.

Definition set_coll (c : collection) (l : list doc) (db : Db) : Db :=
  match c with
  | Users =>
      {| users := l; files := files db; ad_requests := ad_requests db;
         payments := payments db; subscriptions := subscriptions db;
         admin_settings := admin_settings db |}
  | Files =>
      {| users := users db; files := l; ad_requests := ad_requests db;
         payments := payments db; subscriptions := subscriptions db;
         admin_settings := admin_settings db |}
  | AdRequests =>
      {| users := users db; files := files db; ad_requests := l;
         payments := payments db; subscriptions := subscriptions db;
         admin_settings := admin_settings db |}
  | Payments =>
      {| users := users db; files := files db; ad_requests := ad_requests db;
         payments := l; subscriptions := subscriptions db;
         admin_settings := admin_settings db |}
  | Subscriptions =>
      {| users := users db; files := files db; ad_requests := ad_requests db;
         payments := payments db; subscriptions := l;
         admin_settings := admin_settings db |}
  | AdminSettingsColl =>
      {| users := users db; files := files db; ad_requests := ad_requests db;
         payments := payments db; subscriptions := subscriptions db;
         admin_settings := l |}
  end.

Definition empty_db : Db :=
  {| users := []; files := []; ad_requests := []; payments := [];
     subscriptions := []; admin_settings := [] |}.

End Mongo.
Import Mongo.

(** ** Exceptions and the handler monad *)

Inductive exn :=
| HTTPException (status_code : Z) (detail : string)
| ValidationError (field : string)     (* pydantic *)
| KeyError (key : string)
| TypeError                            (* subscript of [None] *)
| OverflowError                        (* datetime out of range *)
| Base64Error                          (* [binascii.Error] *)
| ValueError.                          (* [bcrypt.hashpw], password too long *)

(** The status FastAPI answers with: an [HTTPException] carries its own,
    any other exception that leaves a handler is a 500. *)
Definition http_status (e : exn) : Z :=
  match e with
  | HTTPException status_code _ => status_code
  | _ => 500
  end.

Inductive result (A : Type) :=
| Ok (a : A)
| Raise (e : exn).
Arguments Ok {A} a.
Arguments Raise {A} e.

(** A handler runs against the database; writes made before an exception
    is raised stay in the database. *)
Definition M (A : Type) : Type := Db -> Db * result A.

Definition ret {A} (a : A) : M A := fun db => (db, Ok a).

Definition raise {A} (e : exn) : M A := fun db => (db, Raise e).

Definition bind {A B} (m : M A) (k : A -> M B) : M B :=
  fun db =>
    match m db with
    | (db', Ok a) => k a db'
    | (db', Raise e) => (db', Raise e)
    end.

Definition lift {A} (r : result A) : M A := fun db => (db, r).

Notation "x <- m ;; k" := (bind m (fun x => k))
  (at level 62, m at next level, right associativity).
Notation "'do' m ;; k" := (bind m (fun _ => k))
  (at level 62, m at next level, right associativity).

Definition db_find_one (c : collection) (q : query) : M (option doc) :=
  fun db => (db, Ok (find_one q (coll c db))).

Definition db_find (c : collection) (q : query) (sort : option string)
    (n : nat) : M (list doc) :=
  fun db =>
    let found := find q (coll c db) in
    let sorted := match sort with
                  | Some k => sort_desc k found
                  | None => found
                  end in
    (db, Ok (to_list n sorted)).

Definition db_insert_one (c : collection) (d : doc) : M unit :=
  fun db => (set_coll c (insert_one d (coll c db)) db, Ok tt).

(** Returns [result.matched_count]. *)
Definition db_update_one (c : collection) (q : query)
    (fields : list (string * value)) : M Z :=
  fun db =>
    let '(l, n) := update_one q fields (coll c db) in
    (set_coll c l db, Ok n).

Definition db_update_one_upsert (c : collection) (q : query)
    (fields : list (string * value)) : M Z :=
  fun db =>
    let '(l, n) := update_one_upsert q fields (coll c db) in
    (set_coll c l db, Ok n).

(** Truth value of the result of [find_one]: [None] and the empty dict are
    false. *)
Definition truthy (o : option doc) : bool :=
  match o with
  | Some d => negb (bool_decide (d = ∅))
  | None => false
  end.

(** The dict a truthy result of [find_one] is, as keyword arguments. *)
Definition kwargs (o : option doc) : doc := default ∅ o.

(** [d[k]] on the result of [find_one]. *)
Definition subscript (o : option doc) (k : string) : result value :=
  match o with
  | None => Raise TypeError
  | Some d =>
      match d !! k with
      | Some v => Ok v
      | None => Raise (KeyError k)
      end
  end.

(** ** Pydantic models *)

Definition str_field (d : doc) (k : string) : result string :=
  match d !! k with
  | Some (VStr s) => Ok s
  | _ => Raise (ValidationError k)
  end.

Definition str_field_default (d : doc) (k : string) (default : string)
    : result string :=
  match d !! k with
  | None => Ok default
  | Some (VStr s) => Ok s
  | Some _ => Raise (ValidationError k)
  end.

Definition optional_str_field (d : doc) (k : string) : result (option string) :=
  match d !! k with
  | None | Some VNone => Ok None
  | Some (VStr s) => Ok (Some s)
  | Some (VList _) => Raise (ValidationError k)
  end.

Definition list_field_default (d : doc) (k : string) (default : list string)
    : result (list string) :=
  match d !! k with
  | None => Ok default
  | Some (VList l) => Ok l
  | Some _ => Raise (ValidationError k)
  end.

Definition rbind {A B} (r : result A) (k : A -> result B) : result B :=
  match r with
  | Ok a => k a
  | Raise e => Raise e
  end.

Notation "x <-r m ;; k" := (rbind m (fun x => k))
  (at level 62, m at next level, right associativity).

Fixpoint rmap {A B} (f : A -> result B) (l : list A) : result (list B) :=
  match l with
  | [] => Ok []
  | a :: l' => b <-r f a ;; bs <-r rmap f l' ;; Ok (b :: bs)
  end.

Module User.
Record t := {
  id : string; email : string; name : string; phone : string;
  role : string; created_at : string
}.

(** The constructor [User] applied to the fields of [d], with
    [extra="ignore"]. *)
Definition validate (d : doc) : result t :=
  id <-r str_field d "id" ;;
  email <-r str_field d "email" ;;
  name <-r str_field d "name" ;;
  phone <-r str_field d "phone" ;;
  role <-r str_field_default d "role" "client" ;;
  created_at <-r str_field d "created_at" ;;
  Ok {| id := id; email := email; name := name; phone := phone;
        role := role; created_at := created_at |}.
End User.

Module AdRequestCreate.
Inductive payment_type_t := per_ad | subscription.

Definition payment_type_str (p : payment_type_t) : string :=
  match p with
  | per_ad => "per-ad"
  | subscription => "subscription"
  end.

Record t := {
  location : string;
  product_names : string;
  other_info : option string;      (* [Optional[str] = ""] *)
  payment_type : payment_type_t
}.
End AdRequestCreate.

Module AdRequest.
Record t := {
  id : string; client_id : string; client_name : string;
  client_email : string; location : string; product_names : string;
  other_info : string; photos : list string; payment_type : string;
  status : string; created_at : string
}.

(** The constructor [AdRequest] applied to the fields of [d], with
    [extra="ignore"]. *)
Definition validate (d : doc) : result t :=
  id <-r str_field d "id" ;;
  client_id <-r str_field d "client_id" ;;
  client_name <-r str_field d "client_name" ;;
  client_email <-r str_field d "client_email" ;;
  location <-r str_field d "location" ;;
  product_names <-r str_field d "product_names" ;;
  other_info <-r str_field d "other_info" ;;
  photos <-r list_field_default d "photos" [] ;;
  payment_type <-r str_field d "payment_type" ;;
  status <-r str_field_default d "status" "pending" ;;
  created_at <-r str_field d "created_at" ;;
  Ok {| id := id; client_id := client_id; client_name := client_name;
        client_email := client_email; location := location;
        product_names := product_names; other_info := other_info;
        photos := photos; payment_type := payment_type; status := status;
        created_at := created_at |}.
End AdRequest.

Inductive payment_method_t := sham_cash | syriatel.

Definition payment_method_str (m : payment_method_t) : string :=
  match m with
  | sham_cash => "sham_cash"
  | syriatel => "syriatel"
  end.

Module Payment.
Record t := {
  id : string; ad_request_id : string; payment_method : string;
  screenshot_url : string; status : string; created_at : string;
  verified_at : option string
}.

(** The constructor [Payment] applied to the fields of [d], with
    [extra="ignore"]. *)
Definition validate (d : doc) : result t :=
  id <-r str_field d "id" ;;
  ad_request_id <-r str_field d "ad_request_id" ;;
  payment_method <-r str_field d "payment_method" ;;
  screenshot_url <-r str_field d "screenshot_url" ;;
  status <-r str_field_default d "status" "pending" ;;
  created_at <-r str_field d "created_at" ;;
  verified_at <-r optional_str_field d "verified_at" ;;
  Ok {| id := id; ad_request_id := ad_request_id;
        payment_method := payment_method; screenshot_url := screenshot_url;
        status := status; created_at := created_at;
        verified_at := verified_at |}.
End Payment.

Module Subscription.
Record t := {
  id : string; client_id : string; client_name : string;
  client_email : string; start_date : string; end_date : string;
  status : string; payment_screenshot : string; payment_method : string;
  created_at : string
}.

(** The constructor [Subscription] applied to the fields of [d], with
    [extra="ignore"]. *)
Definition validate (d : doc) : result t :=
  id <-r str_field d "id" ;;
  client_id <-r str_field d "client_id" ;;
  client_name <-r str_field d "client_name" ;;
  client_email <-r str_field d "client_email" ;;
  start_date <-r str_field d "start_date" ;;
  end_date <-r str_field d "end_date" ;;
  status <-r str_field_default d "status" "active" ;;
  payment_screenshot <-r str_field d "payment_screenshot" ;;
  payment_method <-r str_field d "payment_method" ;;
  created_at <-r str_field d "created_at" ;;
  Ok {| id := id; client_id := client_id; client_name := client_name;
        client_email := client_email; start_date := start_date;
        end_date := end_date; status := status;
        payment_screenshot := payment_screenshot;
        payment_method := payment_method; created_at := created_at |}.
End Subscription.

Module AdminSettings.
Record t := { sham_cash_qr : string; syriatel_qr : string }.

(** The constructor [AdminSettings] applied to the fields of [d], with
    [extra="ignore"]. *)
Definition validate (d : doc) : result t :=
  sham_cash_qr <-r str_field_default d "sham_cash_qr" "" ;;
  syriatel_qr <-r str_field_default d "syriatel_qr" "" ;;
  Ok {| sham_cash_qr := sham_cash_qr; syriatel_qr := syriatel_qr |}.
End AdminSettings.

Module AdminSettingsUpdate.
Record t := { sham_cash_qr : option string; syriatel_qr : option string }.

(** [{k: v for k, v in settings.model_dump().items() if v is not None}]. *)
Definition update_data (s : t) : list (string * value) :=
  match sham_cash_qr s with
  | Some v => [("sham_cash_qr", VStr v)]
  | None => []
  end ++
  match syriatel_qr s with
  | Some v => [("syriatel_qr", VStr v)]
  | None => []
  end.
End AdminSettingsUpdate.

(** ** Tokens ([jwt.encode], [jwt.decode]) *)

Module Jwt.

(** The claims of a token: [{user_id, email, role, exp}], with [exp] in
    whole seconds since the epoch. *)
Record Payload := {
  user_id : string;
  email : string;
  role : string;
  exp : Z
}.

(** A bearer credential: either a string that is not a compact JWS with
    JSON claims, or a header algorithm, claims and a signature. *)
Inductive token :=
| Malformed (raw : string)
| Signed (alg : string) (payload : Payload) (signature : string).

Inductive jwt_error :=
| DecodeError
| InvalidAlgorithmError
| InvalidSignatureError
| ExpiredSignatureError.

Section Sign.
(** The HMAC-SHA256 tag of the encoded header and claims under a key. *)
Variable hmac : string -> string -> Payload -> string.

(** [jwt.encode(payload, key, algorithm=alg)]. *)
Definition encode (payload : Payload) (key alg : string) : token :=
  Signed alg payload (hmac key alg payload).

(** [jwt.decode(tok, key, algorithms=algorithms)] at time [now]: the
    signature is checked first, then [exp <= now] is an expired token. *)
Definition decode (tok : token) (key : string) (algorithms : list string)
    (now : datetime) : jwt_error + Payload :=
  match tok with
  | Malformed _ => inl DecodeError
  | Signed alg payload signature =>
      if negb (existsb (String.eqb alg) algorithms) then
        inl InvalidAlgorithmError
      else if negb (String.eqb signature (hmac key alg payload)) then
        inl InvalidSignatureError
      else if exp payload * SECOND <=? now then inl ExpiredSignatureError
      else inr payload
  end.
End Sign.

End Jwt.
Import Jwt.

(** ** Responses *)

Record AuthResponse := { token_ : token; user_ : User.t }.
Record UploadResponse := { file_id_ : string; url_ : string }.
Record FileResponse := { content : list byte; media_type : value }.
Record PhotosResponse := { photos_success : bool; photos_ : list string }.
Record SuccessResponse := { success : bool }.
Record ScreenshotResponse := { screenshot_success : bool; screenshot_url_ : string }.

(** [{...}] dict displays. *)
Definition dict (fields : list (string * value)) : doc := list_to_map fields.

(** [f"/api/files/{file_id}"]. *)
Definition file_url (file_id : string) : string := "/api/files/" +:+ file_id.

Definition optional_str (o : option string) : value :=
  match o with
  | Some s => VStr s
  | None => VNone
  end.

(** ** The handlers of [server.py] *)

Section Server.

(** [JWT_SECRET] comes from the environment; the MAC and bcrypt are
    library functions the handlers only call. *)
Variable JWT_SECRET : string.
Variable hmac : string -> string -> Payload -> string.
Variable bcrypt_hashpw : string -> string -> string.

Definition JWT_ALGORITHM : string := "HS256".

(** [hash_password(password)], with the salt [bcrypt.gensalt()] returned.
    [bcrypt.hashpw] refuses a password of more than 72 bytes with a
    [ValueError]; [bcrypt_hashpw] is the hash it returns otherwise.  A
    string is kept as the bytes of its UTF-8 encoding, so [String.length]
    counts what [password.encode('utf-8')] holds. *)
Definition hash_password (password salt : string) : result string :=
  if (72 <? String.length password)%nat then Raise ValueError
  else Ok (bcrypt_hashpw password salt).

(** [create_token(user_id, email, role)] at clock reading [now]. *)
Definition create_token (user_id email role : string) (now : datetime)
    : result token :=
  match datetime_add now (timedelta_days 30) with
  | None => Raise OverflowError
  | Some e =>
      let payload := {| Jwt.user_id := user_id; Jwt.email := email;
                        Jwt.role := role; Jwt.exp := timegm e |} in
      Ok (Jwt.encode hmac payload JWT_SECRET JWT_ALGORITHM)
  end.

(** [get_current_user(credentials)]: any exception of [jwt.decode] is
    answered with a 401. *)
Definition get_current_user (credentials : token) (now : datetime)
    : result Payload :=
  match Jwt.decode hmac credentials JWT_SECRET [JWT_ALGORITHM] now with
  | inr payload => Ok payload
  | inl _ => Raise (HTTPException 401 "Invalid authentication")
  end.

(** [get_admin_user(current_user)]. *)
Definition get_admin_user (current_user : Payload) : result Payload :=
  if negb (String.eqb (Jwt.role current_user) "admin") then
    Raise (HTTPException 403 "Admin access required")
  else Ok current_user.

(** [Depends(get_current_user)] and [Depends(get_admin_user)]: the
    handler body runs on the value the dependency returns. *)
Definition with_current_user {A} (credentials : token) (now : datetime)
    (handler : Payload -> M A) : M A :=
  current_user <- lift (get_current_user credentials now) ;;
  handler current_user.

Definition with_admin_user {A} (credentials : token) (now : datetime)
    (handler : Payload -> M A) : M A :=
  current_user <- lift (get_current_user credentials now) ;;
  current_user <- lift (get_admin_user current_user) ;;
  handler current_user.

(** *** Auth routes *)

Record UserCreate := {
  uc_email : string; uc_password : string; uc_name : string; uc_phone : string
}.

(** [register(user_data)]; [uuid4], [salt] and the two clock readings
    are what [uuid.uuid4()], [bcrypt.gensalt()] and [datetime.now] return. *)
Definition register (user_data : UserCreate) (uuid4 salt : string)
    (now now' : datetime) : M AuthResponse :=
  existing <- db_find_one Users [("email", CEq (VStr (uc_email user_data)))] ;;
  if truthy existing then
    raise (HTTPException 400 "Email already registered")
  else
    hashed <- lift (hash_password (uc_password user_data) salt) ;;
    let user_dict := dict [
      ("id", VStr uuid4);
      ("email", VStr (uc_email user_data));
      ("password", VStr hashed);
      ("name", VStr (uc_name user_data));
      ("phone", VStr (uc_phone user_data));
      ("role", VStr "client");
      ("created_at", VStr (isoformat now)) ] in
    do db_insert_one Users user_dict ;;
    token <- lift (create_token uuid4 (uc_email user_data) "client" now') ;;
    user <- lift (User.validate (delete "password" user_dict)) ;;
    ret {| token_ := token; user_ := user |}.

(** [bcrypt.checkpw(password, hashed)]: a library function the handlers
    only call; it raises when [hashed] is not a bcrypt hash. *)
Variable bcrypt_checkpw : string -> string -> result bool.

(** [verify_password(password, hashed)] on a value read from a document:
    [hashed.encode] fails on anything but a string (Python's
    [AttributeError], reported here as [TypeError]). *)
Definition verify_password (password : string) (hashed : value) : result bool :=
  match hashed with
  | VStr h => bcrypt_checkpw password h
  | _ => Raise TypeError
  end.

Record UserLogin := { ul_email : string; ul_password : string }.

(** [create_token(user['id'], user['email'], user['role'])] on values read
    from a document.  Python also signs claims that are not strings; the
    tokens of the model carry string claims only, so such a token is left
    out ([None]): [login] never returns it, because [User] rejects the
    document it was made from. *)
Definition create_token_from (user_id email role : value) (now : datetime)
    : result (option token) :=
  match datetime_add now (timedelta_days 30) with
  | None => Raise OverflowError
  | Some _ =>
      match user_id, email, role with
      | VStr i, VStr e, VStr r =>
          token <-r create_token i e r now ;; Ok (Some token)
      | _, _, _ => Ok None
      end
  end.

(** [login(credentials)] at clock reading [now]. *)
Definition login (credentials : UserLogin) (now : datetime) : M AuthResponse :=
  user <- db_find_one Users [("email", CEq (VStr (ul_email credentials)))] ;;
  if negb (truthy user) then
    raise (HTTPException 401 "Invalid credentials")
  else
    hashed <- lift (subscript user "password") ;;
    verified <- lift (verify_password (ul_password credentials) hashed) ;;
    if negb verified then
      raise (HTTPException 401 "Invalid credentials")
    else
      id <- lift (subscript user "id") ;;
      email <- lift (subscript user "email") ;;
      role <- lift (subscript user "role") ;;
      token <- lift (create_token_from id email role now) ;;
      user_model <- lift (User.validate (delete "password" (kwargs user))) ;;
      match token with
      | Some token => ret {| token_ := token; user_ := user_model |}
      | None => raise TypeError
      end.

(** [get_me(current_user)]; the projection [{"_id": 0, "password": 0}]
    removes the password before the result is tested. *)
Definition get_me (current_user : Payload) : M User.t :=
  found <- db_find_one Users [("id", CEq (VStr (Jwt.user_id current_user)))] ;;
  let user := delete "password" <$> found in
  if negb (truthy user) then
    raise (HTTPException 404 "User not found")
  else lift (User.validate (kwargs user)).

(** *** File upload *)

(** [upload_file(file, current_user)]; [contents], [filename] and
    [content_type] are those of the [UploadFile]. *)
Definition upload_file (contents : list byte) (filename : option string)
    (content_type : option string) (current_user : Payload)
    (uuid4 : string) (now : datetime) : M UploadResponse :=
  let file_id := uuid4 in
  let base64_data := b64encode contents in
  let file_doc := dict [
    ("id", VStr file_id);
    ("filename", optional_str filename);
    ("data", VStr base64_data);
    ("content_type", optional_str content_type);
    ("uploaded_by", VStr (Jwt.user_id current_user));
    ("created_at", VStr (isoformat now)) ] in
  do db_insert_one Files file_doc ;;
  ret {| file_id_ := file_id; url_ := file_url file_id |}.

(** [get_file(file_id)]. *)
Definition get_file (file_id : string) : M FileResponse :=
  file_doc <- db_find_one Files [("id", CEq (VStr file_id))] ;;
  if negb (truthy file_doc) then
    raise (HTTPException 404 "File not found")
  else
    data <- lift (subscript file_doc "data") ;;
    match data with
    | VStr s =>
        match b64decode s with
        | Some file_data =>
            ret {| content := file_data;
                   media_type :=
                     default (VStr "application/octet-stream")
                       (file_doc ≫= (.!! "content_type")) |}
        | None => raise Base64Error
        end
    | _ => raise TypeError
    end.

(** *** Ad requests *)

(** [create_ad_request(ad_data, current_user)]. *)
Definition create_ad_request (ad_data : AdRequestCreate.t)
    (current_user : Payload) (uuid4 : string) (now : datetime)
    : M AdRequest.t :=
  user <- db_find_one Users [("id", CEq (VStr (Jwt.user_id current_user)))] ;;
  name <- lift (subscript user "name") ;;
  email <- lift (subscript user "email") ;;
  let ad_dict := dict [
    ("id", VStr uuid4);
    ("client_id", VStr (Jwt.user_id current_user));
    ("client_name", name);
    ("client_email", email);
    ("location", VStr (AdRequestCreate.location ad_data));
    ("product_names", VStr (AdRequestCreate.product_names ad_data));
    ("other_info", optional_str (AdRequestCreate.other_info ad_data));
    ("photos", VList []);
    ("payment_type",
      VStr (AdRequestCreate.payment_type_str
              (AdRequestCreate.payment_type ad_data)));
    ("status", VStr "pending");
    ("created_at", VStr (isoformat now)) ] in
  do db_insert_one AdRequests ad_dict ;;
  lift (AdRequest.validate ad_dict).

(** [add_photos(ad_id, file_ids, current_user)]. *)
Definition add_photos (ad_id : string) (file_ids : list string)
    (current_user : Payload) : M PhotosResponse :=
  ad <- db_find_one AdRequests
          [("id", CEq (VStr ad_id));
           ("client_id", CEq (VStr (Jwt.user_id current_user)))] ;;
  if negb (truthy ad) then
    raise (HTTPException 404 "Ad request not found")
  else
    let photo_urls := map file_url file_ids in
    _ <- db_update_one AdRequests [("id", CEq (VStr ad_id))]
           [("photos", VList photo_urls)] ;;
    ret {| photos_success := true; photos_ := photo_urls |}.

(** [get_ad_requests(current_user)]. *)
Definition get_ad_requests (current_user : Payload) : M (list AdRequest.t) :=
  ads <- (if String.eqb (Jwt.role current_user) "admin" then
            db_find AdRequests [] (Some "created_at") 1000
          else
            db_find AdRequests
              [("client_id", CEq (VStr (Jwt.user_id current_user)))]
              (Some "created_at") 1000) ;;
  lift (rmap AdRequest.validate ads).

(** [get_ad_request(ad_id, current_user)]. *)
Definition get_ad_request (ad_id : string) (current_user : Payload)
    : M AdRequest.t :=
  let query := [("id", CEq (VStr ad_id))] in
  let query :=
    if negb (String.eqb (Jwt.role current_user) "admin") then
      query ++ [("client_id", CEq (VStr (Jwt.user_id current_user)))]
    else query in
  ad <- db_find_one AdRequests query ;;
  if negb (truthy ad) then
    raise (HTTPException 404 "Ad request not found")
  else lift (AdRequest.validate (kwargs ad)).

(** [update_ad_status(ad_id, status, current_user)], behind
    [get_admin_user]. *)
Definition update_ad_status (ad_id status : string) (current_user : Payload)
    : M SuccessResponse :=
  matched_count <- db_update_one AdRequests [("id", CEq (VStr ad_id))]
                     [("status", VStr status)] ;;
  if matched_count =? 0 then
    raise (HTTPException 404 "Ad request not found")
  else ret {| success := true |}.


(** *** Payments *)

Record PaymentCreate := {
  pc_ad_request_id : string;
  pc_payment_method : payment_method_t
}.

(** [create_payment(payment_data, current_user)]. *)
Definition create_payment (payment_data : PaymentCreate)
    (current_user : Payload) (uuid4 : string) (now : datetime) : M Payment.t :=
  ad <- db_find_one AdRequests
          [("id", CEq (VStr (pc_ad_request_id payment_data)));
           ("client_id", CEq (VStr (Jwt.user_id current_user)))] ;;
  if negb (truthy ad) then
    raise (HTTPException 404 "Ad request not found")
  else
    let payment_dict := dict [
      ("id", VStr uuid4);
      ("ad_request_id", VStr (pc_ad_request_id payment_data));
      ("payment_method",
        VStr (payment_method_str (pc_payment_method payment_data)));
      ("screenshot_url", VStr "");
      ("status", VStr "pending");
      ("created_at", VStr (isoformat now));
      ("verified_at", VNone) ] in
    do db_insert_one Payments payment_dict ;;
    lift (Payment.validate payment_dict).

(** [upload_payment_screenshot(payment_id, file_id, current_user)]. *)
Definition upload_payment_screenshot (payment_id file_id : string)
    (current_user : Payload) : M ScreenshotResponse :=
  let screenshot_url := file_url file_id in
  matched_count <- db_update_one Payments [("id", CEq (VStr payment_id))]
                     [("screenshot_url", VStr screenshot_url)] ;;
  if matched_count =? 0 then
    raise (HTTPException 404 "Payment not found")
  else ret {| screenshot_success := true; screenshot_url_ := screenshot_url |}.

(** The projection [{"_id": 0, "id": 1}]. *)
Definition project_id (d : doc) : doc :=
  match d !! "id" with
  | Some v => {[ "id" := v ]}
  | None => ∅
  end.

(** [ad['id']] on a document a cursor returned. *)
Definition item (k : string) (d : doc) : result value :=
  match d !! k with
  | Some v => Ok v
  | None => Raise (KeyError k)
  end.

(** [get_payments(current_user)]. *)
Definition get_payments (current_user : Payload) : M (list Payment.t) :=
  payments <-
    (if String.eqb (Jwt.role current_user) "admin" then
       db_find Payments [] (Some "created_at") 1000
     else
       ads <- db_find AdRequests
                [("client_id", CEq (VStr (Jwt.user_id current_user)))]
                None 1000 ;;
       ad_ids <- lift (rmap (item "id") (map project_id ads)) ;;
       db_find Payments [("ad_request_id", CIn ad_ids)]
         (Some "created_at") 1000) ;;
  lift (rmap Payment.validate payments).

(** [verify_payment(payment_id, current_user)], behind [get_admin_user]. *)
Definition verify_payment (payment_id : string) (current_user : Payload)
    (now : datetime) : M SuccessResponse :=
  payment <- db_find_one Payments [("id", CEq (VStr payment_id))] ;;
  if negb (truthy payment) then
    raise (HTTPException 404 "Payment not found")
  else
    _ <- db_update_one Payments [("id", CEq (VStr payment_id))]
           [("status", VStr "verified");
            ("verified_at", VStr (isoformat now))] ;;
    ad_request_id <- lift (subscript payment "ad_request_id") ;;
    _ <- db_update_one AdRequests [("id", CEq ad_request_id)]
           [("status", VStr "paid")] ;;
    ret {| success := true |}.

(** *** Subscriptions *)

(** [create_subscription(sub_data, current_user)]; [now] is the clock
    reading bound to [start_date], [now'] the later one of [created_at]. *)
Definition create_subscription (sub_data : payment_method_t)
    (current_user : Payload) (uuid4 : string) (now now' : datetime)
    : M Subscription.t :=
  user <- db_find_one Users [("id", CEq (VStr (Jwt.user_id current_user)))] ;;
  let start_date := now in
  match datetime_add start_date (timedelta_days 30) with
  | None => raise OverflowError
  | Some end_date =>
      name <- lift (subscript user "name") ;;
      email <- lift (subscript user "email") ;;
      let sub_dict := dict [
        ("id", VStr uuid4);
        ("client_id", VStr (Jwt.user_id current_user));
        ("client_name", name);
        ("client_email", email);
        ("start_date", VStr (isoformat start_date));
        ("end_date", VStr (isoformat end_date));
        ("status", VStr "pending");
        ("payment_screenshot", VStr "");
        ("payment_method", VStr (payment_method_str sub_data));
        ("created_at", VStr (isoformat now')) ] in
      do db_insert_one Subscriptions sub_dict ;;
      lift (Subscription.validate sub_dict)
  end.

(** [upload_subscription_screenshot(sub_id, file_id, current_user)]. *)
Definition upload_subscription_screenshot (sub_id file_id : string)
    (current_user : Payload) : M ScreenshotResponse :=
  let screenshot_url := file_url file_id in
  matched_count <- db_update_one Subscriptions
                     [("id", CEq (VStr sub_id));
                      ("client_id", CEq (VStr (Jwt.user_id current_user)))]
                     [("payment_screenshot", VStr screenshot_url)] ;;
  if matched_count =? 0 then
    raise (HTTPException 404 "Subscription not found")
  else ret {| screenshot_success := true; screenshot_url_ := screenshot_url |}.

(** [get_my_subscriptions(current_user)]. *)
Definition get_my_subscriptions (current_user : Payload)
    : M (list Subscription.t) :=
  subs <- db_find Subscriptions
            [("client_id", CEq (VStr (Jwt.user_id current_user)))]
            (Some "created_at") 1000 ;;
  lift (rmap Subscription.validate subs).

(** [get_all_subscriptions(current_user)], behind [get_admin_user]. *)
Definition get_all_subscriptions (current_user : Payload)
    : M (list Subscription.t) :=
  subs <- db_find Subscriptions [] (Some "created_at") 1000 ;;
  lift (rmap Subscription.validate subs).

(** [verify_subscription(sub_id, current_user)], behind [get_admin_user]. *)
Definition verify_subscription (sub_id : string) (current_user : Payload)
    : M SuccessResponse :=
  matched_count <- db_update_one Subscriptions [("id", CEq (VStr sub_id))]
                     [("status", VStr "active")] ;;
  if matched_count =? 0 then
    raise (HTTPException 404 "Subscription not found")
  else ret {| success := true |}.

(** *** Admin settings *)

(** [get_admin_settings()]. *)
Definition get_admin_settings : M AdminSettings.t :=
  settings <- db_find_one AdminSettingsColl [] ;;
  if negb (truthy settings) then
    let default_settings :=
      dict [("sham_cash_qr", VStr ""); ("syriatel_qr", VStr "")] in
    do db_insert_one AdminSettingsColl default_settings ;;
    lift (AdminSettings.validate default_settings)
  else lift (AdminSettings.validate (kwargs settings)).

(** [update_admin_settings(settings, current_user)], behind
    [get_admin_user]. *)
Definition update_admin_settings (settings : AdminSettingsUpdate.t)
    (current_user : Payload) : M SuccessResponse :=
  let update_data := AdminSettingsUpdate.update_data settings in
  match update_data with
  | [] => ret {| success := true |}
  | _ :: _ =>
      _ <- db_update_one_upsert AdminSettingsColl [] update_data ;;
      ret {| success := true |}
  end.

End Server.

(** ** Vocabulary of the statements *)

(** The query [{"id": x}]. *)
Definition by_id (x : string) : query := [("id", CEq (VStr x))].

(** The identifiers a document answers to under [{"id": x}]. *)
Definition doc_ids (d : doc) : list string :=
  match d !! "id" with
  | Some (VStr s) => [s]
  | Some (VList l) => l
  | _ => []
  end.

(** No two documents of a collection answer to the same identifier: what
    [uuid.uuid4()] is relied on for. *)
Fixpoint unique_ids (c : list doc) : bool :=
  match c with
  | [] => true
  | d :: c' =>
      forallb (fun x => negb (existsb (matches (by_id x)) c')) (doc_ids d)
      && unique_ids c'
  end.

(** The final state and the outcome of running a handler. *)
Definition state_after {A} (m : M A) (db : Db) : Db := fst (m db).
Definition outcome {A} (m : M A) (db : Db) : result A := snd (m db).

(** The clock reading leaves room for the thirty days the source adds. *)
Definition clock_ok (now : datetime) : Prop :=
  datetime_add now (timedelta_days 30) = Some (now + timedelta_days 30).

(** ** A concrete deployment, for running the handlers *)

Module Scenario.

Definition secret : string := "test-secret".

(** Stand-ins for the MAC and for bcrypt: any functions will do, the
    handlers only call them. *)
Definition mac (key alg : string) (p : Payload) : string :=
  key +:+ "." +:+ alg +:+ "." +:+ Jwt.user_id p +:+ "." +:+ Jwt.email p
    +:+ "." +:+ Jwt.role p +:+ "." +:+ zero_padded 12 (Jwt.exp p).

Definition hashpw (password salt : string) : string :=
  salt +:+ "$" +:+ password.

Definition t0 : datetime := 1700000000 * SECOND.

Definition claims (user_id email role : string) : Payload :=
  {| Jwt.user_id := user_id; Jwt.email := email; Jwt.role := role;
     Jwt.exp := timegm (t0 + timedelta_days 30) |}.

Definition alice : Payload := claims "u-alice" "a@x.com" "client".
Definition bob : Payload := claims "u-bob" "b@x.com" "client".
Definition root : Payload := claims "u-root" "root@x.com" "admin".

Definition token_of (p : Payload) : token := Jwt.encode mac p secret "HS256".

Definition sign_up (email name uuid4 : string) (db : Db) : Db :=
  state_after
    (register secret mac hashpw
       {| uc_email := email; uc_password := "p"; uc_name := name;
          uc_phone := "1" |} uuid4 "salt" t0 t0) db.

(** Alice and Bob have registered. *)
Definition db_users : Db :=
  sign_up "b@x.com" "B" "u-bob" (sign_up "a@x.com" "A" "u-alice" empty_db).

Definition ad_data : AdRequestCreate.t :=
  {| AdRequestCreate.location := "Damascus";
     AdRequestCreate.product_names := "soap";
     AdRequestCreate.other_info := Some "";
     AdRequestCreate.payment_type := AdRequestCreate.per_ad |}.

(** Alice has created the ad request [ad-1]. *)
Definition db_ad : Db :=
  state_after (create_ad_request ad_data alice "ad-1" (t0 + 1 * SECOND))
    db_users.

(** Alice has created the payment [pay-1] for [ad-1]. *)
Definition db_payment : Db :=
  state_after
    (create_payment
       {| pc_ad_request_id := "ad-1"; pc_payment_method := sham_cash |}
       alice "pay-1" (t0 + 2 * SECOND)) db_ad.

Definition the_payment : doc :=
  dict [ ("id", VStr "pay-1"); ("ad_request_id", VStr "ad-1");
         ("payment_method", VStr "sham_cash"); ("screenshot_url", VStr "");
         ("status", VStr "pending");
         ("created_at", VStr (isoformat (t0 + 2 * SECOND)));
         ("verified_at", VNone) ].

Definition the_ad : doc :=
  dict [ ("id", VStr "ad-1"); ("client_id", VStr "u-alice");
         ("client_name", VStr "A"); ("client_email", VStr "a@x.com");
         ("location", VStr "Damascus"); ("product_names", VStr "soap");
         ("other_info", VStr ""); ("photos", VList []);
         ("payment_type", VStr "per-ad"); ("status", VStr "pending");
         ("created_at", VStr (isoformat (t0 + 1 * SECOND))) ].

(** The same database with the ad requests gone: [pay-1] dangles. *)
Definition db_dangling : Db := set_coll AdRequests [] db_payment.

(** Alice has subscribed: [sub-1], created at [t0 + 3 s]. *)
Definition db_sub : Db :=
  state_after
    (create_subscription syriatel alice "sub-1" (t0 + 3 * SECOND)
       (t0 + 3 * SECOND + 7 * MICROSECOND)) db_payment.

Definition the_sub : doc :=
  dict [ ("id", VStr "sub-1"); ("client_id", VStr "u-alice");
         ("client_name", VStr "A"); ("client_email", VStr "a@x.com");
         ("start_date", VStr "2023-11-14T22:13:23+00:00");
         ("end_date", VStr "2023-12-14T22:13:23+00:00");
         ("status", VStr "pending"); ("payment_screenshot", VStr "");
         ("payment_method", VStr "syriatel");
         ("created_at", VStr "2023-11-14T22:13:23.000007+00:00") ].

(** Alice posts [n] ad requests, one a second: [ad-0000], [ad-0001], ... *)
Definition ad_uuid (i : nat) : string := "ad-" +:+ zero_padded 4 (Z.of_nat i).

Definition post_ads (n : nat) (db : Db) : Db :=
  fold_left
    (fun db i =>
       state_after
         (create_ad_request ad_data alice (ad_uuid i)
            (t0 + (Z.of_nat i + 1) * SECOND)) db)
    (seq 0 n) db.

(** Alice has posted 1001 ad requests. *)
Definition db_many : Db := post_ads 1001 db_users.

(** The first of them, the oldest. *)
Definition first_ad : doc :=
  dict [ ("id", VStr "ad-0000"); ("client_id", VStr "u-alice");
         ("client_name", VStr "A"); ("client_email", VStr "a@x.com");
         ("location", VStr "Damascus"); ("product_names", VStr "soap");
         ("other_info", VStr ""); ("photos", VList []);
         ("payment_type", VStr "per-ad"); ("status", VStr "pending");
         ("created_at", VStr "2023-11-14T22:13:21+00:00") ].

Definition first_ad_record : AdRequest.t :=
  {| AdRequest.id := "ad-0000"; AdRequest.client_id := "u-alice";
     AdRequest.client_name := "A"; AdRequest.client_email := "a@x.com";
     AdRequest.location := "Damascus"; AdRequest.product_names := "soap";
     AdRequest.other_info := ""; AdRequest.photos := [];
     AdRequest.payment_type := "per-ad"; AdRequest.status := "pending";
     AdRequest.created_at := "2023-11-14T22:13:21+00:00" |}.

End Scenario.

(** The document [get_admin_settings] creates when there is none. *)
Definition default_settings : doc :=
  dict [("sham_cash_qr", VStr ""); ("syriatel_qr", VStr "")].

(** [newer k a b]: [a] may come before [b] in a descending sort on [k]. *)
Definition newer (k : string) (a b : doc) : Prop := field_leb k b a = true.

(** The number of documents of [l] at least as new as [a] (itself
    included when it is in [l]). *)
Definition as_new_as (k : string) (a : doc) (l : list doc) : nat :=
  length (List.filter (fun d => field_leb k a d) l).

(** What a list operation does: it reads only, and it returns the
    validated first 1000 documents, newest first, of those matching [q] in
    the collection [c]; it returns exactly when these all validate. *)
Definition lists_newest_1000 {A} (m : M (list A)) (validate : doc -> result A)
    (q : query) (c : list doc) (db : Db) : Prop :=
  state_after m db = db
  /\ (forall l : list A,
        outcome m db = Ok l
        <-> Forall2 (fun d r => validate d = Ok r)
              (to_list 1000 (sort_desc "created_at" (find q c))) l)
  /\ (forall l : list A,
        outcome m db = Ok l ->
        (length l <= 1000)%nat
        /\ length l = Nat.min 1000 (length (find q c))).

(** The newest [n] of the documents [matching], said without the sort:
    [kept] holds [n] of them (all of them when there are fewer), newest
    first, [rest] holds the others, and no document left out is newer
    than one that is kept. *)
Definition newest_of (k : string) (n : nat) (matching kept rest : list doc)
    : Prop :=
  Permutation (kept ++ rest) matching
  /\ length kept = Nat.min n (length matching)
  /\ StronglySorted (newer k) kept
  /\ (forall d r : doc, d ∈ kept -> r ∈ rest -> newer k d r).

(** What a list operation does: it reads only; it returns the validated
    newest 1000 of the documents matching [q] in the collection [c], in
    that order, and it returns exactly when these validate, whatever the
    documents left out are; so it returns at most 1000 records. *)
Definition returns_newest_1000 {A} (m : M (list A))
    (validate : doc -> result A) (q : query) (c : list doc) (db : Db) : Prop :=
  state_after m db = db
  /\ (exists kept rest : list doc,
        newest_of "created_at" 1000 (find q c) kept rest
        /\ forall l : list A,
             outcome m db = Ok l
             <-> Forall2 (fun d r => validate d = Ok r) kept l)
  /\ (forall l : list A,
        outcome m db = Ok l ->
        (length l <= 1000)%nat
        /\ length l = Nat.min 1000 (length (find q c))).

(** The query of a client: the documents they own. *)
Definition owned_by (current_user : Payload) : query :=
  [("client_id", CEq (VStr (Jwt.user_id current_user)))].

(** The number of documents of [l] strictly newer than [a]. *)
Definition newer_than (k : string) (a : doc) (l : list doc) : nat :=
  length (List.filter (fun d => negb (field_leb k d a)) l).

Definition is_ok {A} (r : result A) : bool :=
  match r with
  | Ok _ => true
  | Raise _ => false
  end.

(** In every collection, no two documents answer to the same identifier. *)
Definition ids_unique (db : Db) : Prop :=
  forall c : collection, unique_ids (coll c db) = true.

(** [x] is not the identifier of any document of collection [c]. *)
Definition fresh_in (c : collection) (x : string) (db : Db) : Prop :=
  find_one (by_id x) (coll c db) = None.

(** From a state where [P] holds, [m] ends, with a result or an exception,
    in a state where [Q] holds. *)
Definition hoare {A} (P : Db -> Prop) (m : M A) (Q : Db -> Prop) : Prop :=
  forall db, P db -> Q (state_after m db).

(** Fields other than [id]. *)
Definition keeps_id (fields : list (string * value)) : bool :=
  forallb (fun kv => negb (String.eqb (fst kv) "id")) fields.

(** ** The requests of the API *)

Section Api.

Variable JWT_SECRET : string.
Variable hmac : string -> string -> Payload -> string.
Variable bcrypt_hashpw : string -> string -> string.
Variable bcrypt_checkpw : string -> string -> result bool.

(** One constructor per route of [api_router], with the arguments of the
    handler: the caller is the payload its dependency returned. *)
Inductive request :=
| Register (user_data : UserCreate) (uuid4 salt : string) (now now' : datetime)
| Login (credentials : UserLogin) (now : datetime)
| GetMe (current_user : Payload)
| UploadFile (contents : list byte) (filename content_type : option string)
    (current_user : Payload) (uuid4 : string) (now : datetime)
| GetFile (file_id : string)
| CreateAdRequest (ad_data : AdRequestCreate.t) (current_user : Payload)
    (uuid4 : string) (now : datetime)
| AddPhotos (ad_id : string) (file_ids : list string) (current_user : Payload)
| GetAdRequests (current_user : Payload)
| GetAdRequest (ad_id : string) (current_user : Payload)
| UpdateAdStatus (ad_id status : string) (current_user : Payload)
| CreatePayment (payment_data : PaymentCreate) (current_user : Payload)
    (uuid4 : string) (now : datetime)
| UploadPaymentScreenshot (payment_id file_id : string) (current_user : Payload)
| GetPayments (current_user : Payload)
| VerifyPayment (payment_id : string) (current_user : Payload) (now : datetime)
| CreateSubscription (sub_data : payment_method_t) (current_user : Payload)
    (uuid4 : string) (now now' : datetime)
| UploadSubscriptionScreenshot (sub_id file_id : string)
    (current_user : Payload)
| GetMySubscriptions (current_user : Payload)
| GetAllSubscriptions (current_user : Payload)
| VerifySubscription (sub_id : string) (current_user : Payload)
| GetAdminSettings
| UpdateAdminSettings (settings : AdminSettingsUpdate.t)
    (current_user : Payload).

(** The database after a request has been handled. *)
Definition perform (r : request) (db : Db) : Db :=
  match r with
  | Register user_data uuid4 salt now now' =>
      state_after
        (register JWT_SECRET hmac bcrypt_hashpw user_data uuid4 salt now now')
        db
  | Login credentials now =>
      state_after (login JWT_SECRET hmac bcrypt_checkpw credentials now) db
  | GetMe current_user => state_after (get_me current_user) db
  | UploadFile contents filename content_type current_user uuid4 now =>
      state_after
        (upload_file contents filename content_type current_user uuid4 now) db
  | GetFile file_id => state_after (get_file file_id) db
  | CreateAdRequest ad_data current_user uuid4 now =>
      state_after (create_ad_request ad_data current_user uuid4 now) db
  | AddPhotos ad_id file_ids current_user =>
      state_after (add_photos ad_id file_ids current_user) db
  | GetAdRequests current_user => state_after (get_ad_requests current_user) db
  | GetAdRequest ad_id current_user =>
      state_after (get_ad_request ad_id current_user) db
  | UpdateAdStatus ad_id status current_user =>
      state_after (update_ad_status ad_id status current_user) db
  | CreatePayment payment_data current_user uuid4 now =>
      state_after (create_payment payment_data current_user uuid4 now) db
  | UploadPaymentScreenshot payment_id file_id current_user =>
      state_after (upload_payment_screenshot payment_id file_id current_user)
        db
  | GetPayments current_user => state_after (get_payments current_user) db
  | VerifyPayment payment_id current_user now =>
      state_after (verify_payment payment_id current_user now) db
  | CreateSubscription sub_data current_user uuid4 now now' =>
      state_after (create_subscription sub_data current_user uuid4 now now')
        db
  | UploadSubscriptionScreenshot sub_id file_id current_user =>
      state_after
        (upload_subscription_screenshot sub_id file_id current_user) db
  | GetMySubscriptions current_user =>
      state_after (get_my_subscriptions current_user) db
  | GetAllSubscriptions current_user =>
      state_after (get_all_subscriptions current_user) db
  | VerifySubscription sub_id current_user =>
      state_after (verify_subscription sub_id current_user) db
  | GetAdminSettings => state_after get_admin_settings db
  | UpdateAdminSettings settings current_user =>
      state_after (update_admin_settings settings current_user) db
  end.

(** The identifier a request takes from [uuid.uuid4()], with the
    collection it is stored in. *)
Definition new_id (r : request) : option (collection * string) :=
  match r with
  | Register _ uuid4 _ _ _ => Some (Users, uuid4)
  | UploadFile _ _ _ _ uuid4 _ => Some (Files, uuid4)
  | CreateAdRequest _ _ uuid4 _ => Some (AdRequests, uuid4)
  | CreatePayment _ _ uuid4 _ => Some (Payments, uuid4)
  | CreateSubscription _ _ uuid4 _ _ => Some (Subscriptions, uuid4)
  | _ => None
  end.

(** [uuid.uuid4()] returned an identifier that was not in use. *)
Definition fresh (r : request) (db : Db) : Prop :=
  match new_id r with
  | Some (c, x) => fresh_in c x db
  | None => True
  end.

(** The collections a request can write to. *)
Definition writes (r : request) : list collection :=
  match r with
  | Register _ _ _ _ _ => [Users]
  | UploadFile _ _ _ _ _ _ => [Files]
  | CreateAdRequest _ _ _ _ | AddPhotos _ _ _ | UpdateAdStatus _ _ _ =>
      [AdRequests]
  | CreatePayment _ _ _ _ | UploadPaymentScreenshot _ _ _ => [Payments]
  | VerifyPayment _ _ _ => [Payments; AdRequests]
  | CreateSubscription _ _ _ _ _ | UploadSubscriptionScreenshot _ _ _
  | VerifySubscription _ _ => [Subscriptions]
  | GetAdminSettings | UpdateAdminSettings _ _ => [AdminSettingsColl]
  | _ => []
  end.

(** The databases the API can produce from the empty one, as long as
    [uuid.uuid4()] does not repeat itself. *)
Inductive reachable : Db -> Prop :=
| reachable_empty : reachable empty_db
| reachable_step (r : request) (db : Db) :
    reachable db -> fresh r db -> reachable (perform r db).

End Api.

(** Every payment refers to an ad request that exists. *)
Definition no_dangling (db : Db) : Prop :=
  forall p : doc, p ∈ payments db ->
    exists v : value,
      p !! "ad_request_id" = Some v
      /\ find_one [("id", CEq v)] (ad_requests db) <> None.

(** At most one settings document, and not the empty one. *)
Definition settings_ok (db : Db) : Prop :=
  (length (admin_settings db) <= 1)%nat
  /\ Forall (fun d : doc => d <> ∅) (admin_settings db).

(** Every stored user has the role "client". *)
Definition users_are_clients (db : Db) : Prop :=
  forall u : doc, u ∈ users db -> u !! "role" = Some (VStr "client").

(** Fields other than [k]. *)
Definition keeps_key (k : string) (fields : list (string * value)) : bool :=
  forallb (fun kv => negb (String.eqb (fst kv) k)) fields.

#[global] Instance collection_eq_dec : EqDecision collection.
Proof. solve_decision. Defined.

(** Records in descending order of their [created_at] strings, first to
    last. *)
Definition newest_first {A} (created_at : A -> string) (l : list A) : Prop :=
  StronglySorted
    (fun a b => String.leb (created_at b) (created_at a) = true) l.

(** Records in descending order of the instants their [created_at]
    strings print: of two records stamped by [isoformat], the one listed
    first is not the older one. *)
Definition latest_first {A} (created_at : A -> string) (l : list A) : Prop :=
  forall (i j : nat) (r1 r2 : A) (t1 t2 : datetime),
    (i < j)%nat -> l !! i = Some r1 -> l !! j = Some r2 ->
    created_at r1 = isoformat t1 -> created_at r2 = isoformat t2 ->
    in_range t1 = true -> in_range t2 = true -> t2 <= t1.

(** ** More of the concrete deployment: passwords, settings, files *)

Module Accounts.

(** A stand-in for [bcrypt.checkpw] that agrees with [Scenario.hashpw]
    under the salt of the deployment. *)
Definition checkpw (password hashed : string) : result bool :=
  Ok (String.eqb hashed (Scenario.hashpw password "salt")).

Definition alice_data : UserCreate :=
  {| uc_email := "a@x.com"; uc_password := "p"; uc_name := "A";
     uc_phone := "1" |}.

Definition alice_user : User.t :=
  {| User.id := "u-alice"; User.email := "a@x.com"; User.name := "A";
     User.phone := "1"; User.role := "client";
     User.created_at := isoformat Scenario.t0 |}.

(** What [register] answers Alice with. *)
Definition alice_response : AuthResponse :=
  {| token_ := Scenario.token_of Scenario.alice; user_ := alice_user |}.

Definition alice_login : UserLogin :=
  {| ul_email := "a@x.com"; ul_password := "p" |}.

Definition wrong_password : UserLogin :=
  {| ul_email := "a@x.com"; ul_password := "q" |}.

Definition stranger : UserLogin :=
  {| ul_email := "z@x.com"; ul_password := "p" |}.

(** What [login] answers Alice with a day after [t0]. *)
Definition login_response : AuthResponse :=
  {| token_ :=
       Jwt.encode Scenario.mac
         {| Jwt.user_id := "u-alice"; Jwt.email := "a@x.com";
            Jwt.role := "client";
            Jwt.exp := timegm (Scenario.t0 + 1 * DAY + timedelta_days 30) |}
         Scenario.secret "HS256";
     user_ := alice_user |}.

(** An ad request sent with [other_info] null. *)
Definition null_ad_data : AdRequestCreate.t :=
  {| AdRequestCreate.location := "Damascus";
     AdRequestCreate.product_names := "soap";
     AdRequestCreate.other_info := None;
     AdRequestCreate.payment_type := AdRequestCreate.per_ad |}.

Definition the_ad_record : AdRequest.t :=
  {| AdRequest.id := "ad-1"; AdRequest.client_id := "u-alice";
     AdRequest.client_name := "A"; AdRequest.client_email := "a@x.com";
     AdRequest.location := "Damascus"; AdRequest.product_names := "soap";
     AdRequest.other_info := ""; AdRequest.photos := [];
     AdRequest.payment_type := "per-ad"; AdRequest.status := "pending";
     AdRequest.created_at := isoformat (Scenario.t0 + 1 * SECOND) |}.

Definition the_payment_record : Payment.t :=
  {| Payment.id := "pay-1"; Payment.ad_request_id := "ad-1";
     Payment.payment_method := "sham_cash"; Payment.screenshot_url := "";
     Payment.status := "pending";
     Payment.created_at := isoformat (Scenario.t0 + 2 * SECOND);
     Payment.verified_at := None |}.

(** The admin has set the Sham Cash code. *)
Definition db_settings : Db :=
  state_after
    (update_admin_settings
       {| AdminSettingsUpdate.sham_cash_qr := Some "/api/files/qr-1";
          AdminSettingsUpdate.syriatel_qr := None |} Scenario.root)
    Scenario.db_payment.

(** An upload under the identifier [f-1]. *)
Definition upload (contents : list byte) (current_user : Payload) : request :=
  UploadFile contents (Some "proof.png") (Some "image/png") current_user
    "f-1" (Scenario.t0 + 4 * SECOND).

Definition run (r : request) (db : Db) : Db :=
  perform Scenario.secret Scenario.mac Scenario.hashpw checkpw r db.

(** Alice has uploaded [f-1]. *)
Definition db_file : Db :=
  run (upload [x89; x50] Scenario.alice) Scenario.db_payment.

(** The requests that lead from the empty database to Alice's payment. *)
Definition sign_up_alice : request :=
  Register alice_data "u-alice" "salt" Scenario.t0 Scenario.t0.

Definition post_ad : request :=
  CreateAdRequest Scenario.ad_data Scenario.alice "ad-1"
    (Scenario.t0 + 1 * SECOND).

Definition pay : request :=
  CreatePayment
    {| pc_ad_request_id := "ad-1"; pc_payment_method := sham_cash |}
    Scenario.alice "pay-1" (Scenario.t0 + 2 * SECOND).

Definition db_api : Db :=
  run GetAdminSettings (run pay (run post_ad (run sign_up_alice empty_db))).

End Accounts.

(** * Properties *)

(** ** Round trip of the base64 codec *)

Module Base64Facts.
Import Base64.

Lemma byte_of_Z_of_byte (b : byte) : byte_of_Z (Z_of_byte b) = b.
Proof. destruct b; reflexivity. Qed.

Lemma Z_of_byte_range (b : byte) : 0 <= Z_of_byte b < 256.
Proof.
  unfold Z_of_byte. pose proof (Byte.to_N_bounded b) as Hb. lia.
Qed.

Lemma sextet_cases (n : Z) :
  0 <= n < 64 -> exists k : nat, (k < 64)%nat /\ n = Z.of_nat k.
Proof. intros Hn. exists (Z.to_nat n). lia. Qed.

Lemma a2b_b2a (n : Z) :
  0 <= n < 64 ->
  a2b (b2a n) = Some n /\ Ascii.eqb (b2a n) BASE64_PAD = false
  /\ (Z_of_ascii (b2a n) <? 128) = true.
Proof.
  intros Hn. destruct (sextet_cases n Hn) as (k & Hk & ->).
  do 64 (destruct k as [|k]; [vm_compute; auto|]). lia.
Qed.

Lemma lor_shiftl_add (x y k : Z) :
  0 <= k -> 0 <= x -> 0 <= y < 2 ^ k ->
  Z.lor (Z.shiftl x k) y = x * 2 ^ k + y.
Proof.
  intros Hk Hx Hy. rewrite Z.shiftl_mul_pow2 by lia.
  symmetry. apply Z.add_nocarry_lor.
  apply Z.bits_inj'. intros i Hi. rewrite Z.land_spec, Z.bits_0.
  destruct (Z.lt_ge_cases i k) as [Hlt|Hge].
  - rewrite Z.mul_pow2_bits_low by lia. reflexivity.
  - destruct (Z.eq_dec y 0) as [->|Hy0].
    + rewrite Z.bits_0. apply andb_false_r.
    + rewrite (Z.bits_above_log2 y i); [apply andb_false_r|lia|].
      apply Z.lt_le_trans with k; [|lia].
      apply Z.log2_lt_pow2; lia.
Qed.

Ltac zlia := Z.div_mod_to_equations; lia.

Ltac bits_to_arith :=
  change 3 with (Z.ones 2); change 15 with (Z.ones 4);
  change 63 with (Z.ones 6);
  rewrite ?Z.land_ones, ?Z.shiftr_div_pow2 by lia;
  rewrite ?lor_shiftl_add;
  change (2 ^ 2) with 4 in *; change (2 ^ 4) with 16 in *;
  change (2 ^ 6) with 64 in *.

(** The four sextets of a three-byte group and the bytes the decoder
    rebuilds from them. *)
Section Reassembly.
Variables a b c : Z.
Hypothesis Ha : 0 <= a < 256.
Hypothesis Hb : 0 <= b < 256.
Hypothesis Hc : 0 <= c < 256.

Definition s0 := Z.shiftr a 2.
Definition s1 := Z.lor (Z.shiftl (Z.land a 3) 4) (Z.shiftr b 4).
Definition s2 := Z.lor (Z.shiftl (Z.land b 15) 2) (Z.shiftr c 6).
Definition s3 := Z.land c 63.

Lemma s0_eq : s0 = a / 4.
Proof. unfold s0. bits_to_arith. reflexivity. Qed.

Lemma s1_eq : s1 = (a mod 4) * 16 + b / 16.
Proof. unfold s1. bits_to_arith; try zlia. Qed.

Lemma s2_eq : s2 = (b mod 16) * 4 + c / 64.
Proof. unfold s2. bits_to_arith; zlia. Qed.

Lemma s3_eq : s3 = c mod 64.
Proof. unfold s3. bits_to_arith. reflexivity. Qed.

Lemma sextets_range :
  0 <= s0 < 64 /\ 0 <= s1 < 64 /\ 0 <= s2 < 64 /\ 0 <= s3 < 64.
Proof. rewrite s0_eq, s1_eq, s2_eq, s3_eq. zlia. Qed.

Lemma byte1_eq : Z.lor (Z.shiftl s0 2) (Z.shiftr s1 4) = a.
Proof.
  pose proof sextets_range as Hr. bits_to_arith; try zlia.
  rewrite s0_eq, s1_eq. zlia.
Qed.

Lemma byte2_eq : Z.lor (Z.shiftl (Z.land s1 15) 4) (Z.shiftr s2 2) = b.
Proof.
  pose proof sextets_range as Hr. bits_to_arith; try zlia.
  rewrite s1_eq, s2_eq. zlia.
Qed.

Lemma byte3_eq : Z.lor (Z.shiftl (Z.land s2 3) 6) s3 = c.
Proof.
  pose proof sextets_range as Hr. bits_to_arith; try zlia.
  rewrite s2_eq, s3_eq. zlia.
Qed.
End Reassembly.

Lemma list_ind3 {A : Type} (P : list A -> Prop) :
  P [] -> (forall a, P [a]) -> (forall a b, P [a; b]) ->
  (forall a b c l, P l -> P (a :: b :: c :: l)) ->
  forall l, P l.
Proof.
  intros H0 H1 H2 H3.
  refine (fix F (l : list A) : P l :=
            match l with
            | [] => H0
            | [a] => H1 a
            | [a; b] => H2 a b
            | a :: b :: c :: l' => H3 a b c l' (F l')
            end).
Qed.

Lemma a2b_loop_data (n : Z) (s : string) (st : a2b_state) :
  0 <= n < 64 ->
  a2b_loop (String (b2a n) s) st = a2b_loop s (a2b_data st n).
Proof.
  intros Hn. destruct (a2b_b2a n Hn) as (Hv & Hpad & _).
  cbn [a2b_loop]. rewrite Hpad, Hv. reflexivity.
Qed.

(** A full quad read from a quad boundary appends the three bytes. *)
Lemma a2b_data_quad (a b c : byte) (st : a2b_state) :
  quad_pos st = 0 ->
  a2b_data (a2b_data (a2b_data (a2b_data st (s0 (Z_of_byte a)))
                               (s1 (Z_of_byte a) (Z_of_byte b)))
                     (s2 (Z_of_byte b) (Z_of_byte c)))
           (s3 (Z_of_byte c))
  = {| quad_pos := 0; leftchar := 0; pads := 0;
       bin_data := c :: b :: a :: bin_data st |}.
Proof.
  intros Hq. destruct st as [q l p out]. cbn in Hq. subst q.
  pose proof (Z_of_byte_range a) as Ha.
  pose proof (Z_of_byte_range b) as Hb.
  pose proof (Z_of_byte_range c) as Hc.
  unfold a2b_data. cbn [quad_pos leftchar pads bin_data Z.eqb Pos.eqb].
  rewrite (byte1_eq _ _ _ Ha Hb Hc), (byte2_eq _ _ _ Ha Hb Hc),
    (byte3_eq _ _ _ Ha Hb Hc).
  rewrite !byte_of_Z_of_byte. reflexivity.
Qed.

Lemma a2b_loop_b2a_base64 (data : list byte) :
  forall st, quad_pos st = 0 ->
    a2b_loop (b2a_base64 data) st = Some (rev (bin_data st) ++ data).
Proof.
  induction data as [|a|a b|a b c rest IH] using list_ind3; intros st Hq.
  - cbn. rewrite Hq. cbn. rewrite app_nil_r. reflexivity.
  - pose proof (Z_of_byte_range a) as Ha.
    assert (Hb : 0 <= 0 < 256) by lia.
    destruct (sextets_range _ _ 0 Ha Hb Hb) as (H0 & H1 & _).
    change (b2a_base64 [a]) with
      (String (b2a (s0 (Z_of_byte a)))
         (String (b2a (Z.shiftl (Z.land (Z_of_byte a) 3) 4))
            (String BASE64_PAD (String BASE64_PAD EmptyString)))).
    replace (Z.shiftl (Z.land (Z_of_byte a) 3) 4)
      with (s1 (Z_of_byte a) 0)
      by (unfold s1; rewrite Z.shiftr_0_l, Z.lor_0_r; reflexivity).
    rewrite !a2b_loop_data by assumption.
    destruct st as [q l p out]. cbn in Hq. subst q.
    unfold a2b_data.
    cbn [a2b_loop quad_pos leftchar pads bin_data Z.eqb Pos.eqb
           Z.leb Z.compare Pos.compare Pos.compare_cont Z.add Pos.add
           andb Ascii.eqb Bool.eqb BASE64_PAD rev app].
    rewrite (byte1_eq _ _ _ Ha Hb Hb).
    rewrite byte_of_Z_of_byte. reflexivity.
  - pose proof (Z_of_byte_range a) as Ha.
    pose proof (Z_of_byte_range b) as Hb.
    assert (Hc : 0 <= 0 < 256) by lia.
    destruct (sextets_range _ _ 0 Ha Hb Hc) as (H0 & H1 & H2 & _).
    change (b2a_base64 [a; b]) with
      (String (b2a (s0 (Z_of_byte a)))
         (String (b2a (s1 (Z_of_byte a) (Z_of_byte b)))
            (String (b2a (Z.shiftl (Z.land (Z_of_byte b) 15) 2))
            (String BASE64_PAD EmptyString)))).
    replace (Z.shiftl (Z.land (Z_of_byte b) 15) 2)
      with (s2 (Z_of_byte b) 0)
      by (unfold s2; rewrite Z.shiftr_0_l, Z.lor_0_r; reflexivity).
    rewrite !a2b_loop_data by assumption.
    destruct st as [q l p out]. cbn in Hq. subst q.
    unfold a2b_data.
    cbn [a2b_loop quad_pos leftchar pads bin_data Z.eqb Pos.eqb
           Z.leb Z.compare Pos.compare Pos.compare_cont Z.add Pos.add
           andb Ascii.eqb Bool.eqb BASE64_PAD rev app].
    rewrite (byte1_eq _ _ _ Ha Hb Hc), (byte2_eq _ _ _ Ha Hb Hc).
    rewrite !byte_of_Z_of_byte, <- !app_assoc. reflexivity.
  - pose proof (Z_of_byte_range a) as Ha.
    pose proof (Z_of_byte_range b) as Hb.
    pose proof (Z_of_byte_range c) as Hc.
    destruct (sextets_range _ _ _ Ha Hb Hc) as (H0 & H1 & H2 & H3).
    change (b2a_base64 (a :: b :: c :: rest)) with
      (String (b2a (s0 (Z_of_byte a)))
         (String (b2a (s1 (Z_of_byte a) (Z_of_byte b)))
            (String (b2a (s2 (Z_of_byte b) (Z_of_byte c)))
               (String (b2a (s3 (Z_of_byte c))) (b2a_base64 rest))))).
    rewrite !a2b_loop_data by assumption.
    rewrite a2b_data_quad by assumption.
    rewrite IH by reflexivity. cbn [bin_data rev].
    rewrite <- !app_assoc. reflexivity.
Qed.

Lemma is_ascii_b2a_base64 (data : list byte) :
  is_ascii (b2a_base64 data) = true.
Proof.
  induction data as [|a|a b|a b c rest IH] using list_ind3.
  - reflexivity.
  - pose proof (Z_of_byte_range a) as Ha.
    assert (Hb : 0 <= 0 < 256) by lia.
    destruct (sextets_range _ _ 0 Ha Hb Hb) as (H0 & H1 & _).
    replace (s1 (Z_of_byte a) 0) with (Z.shiftl (Z.land (Z_of_byte a) 3) 4)
      in H1 by (unfold s1; rewrite Z.shiftr_0_l, Z.lor_0_r; reflexivity).
    apply a2b_b2a in H0 as (_ & _ & H0). apply a2b_b2a in H1 as (_ & _ & H1).
    cbn [b2a_base64 is_ascii]. unfold s0 in H0. rewrite H0, H1. reflexivity.
  - pose proof (Z_of_byte_range a) as Ha.
    pose proof (Z_of_byte_range b) as Hb.
    assert (Hc : 0 <= 0 < 256) by lia.
    destruct (sextets_range _ _ 0 Ha Hb Hc) as (H0 & H1 & H2 & _).
    replace (s2 (Z_of_byte b) 0) with (Z.shiftl (Z.land (Z_of_byte b) 15) 2)
      in H2 by (unfold s2; rewrite Z.shiftr_0_l, Z.lor_0_r; reflexivity).
    apply a2b_b2a in H0 as (_ & _ & H0). apply a2b_b2a in H1 as (_ & _ & H1).
    apply a2b_b2a in H2 as (_ & _ & H2).
    cbn [b2a_base64 is_ascii]. unfold s0, s1 in *. rewrite H0, H1, H2.
    reflexivity.
  - pose proof (Z_of_byte_range a) as Ha.
    pose proof (Z_of_byte_range b) as Hb.
    pose proof (Z_of_byte_range c) as Hc.
    destruct (sextets_range _ _ _ Ha Hb Hc) as (H0 & H1 & H2 & H3).
    apply a2b_b2a in H0 as (_ & _ & H0). apply a2b_b2a in H1 as (_ & _ & H1).
    apply a2b_b2a in H2 as (_ & _ & H2). apply a2b_b2a in H3 as (_ & _ & H3).
    cbn [b2a_base64 is_ascii]. unfold s0, s1, s2, s3 in *.
    rewrite H0, H1, H2, H3, IH. reflexivity.
Qed.

(** [base64.b64decode(base64.b64encode(b).decode('utf-8')) == b]. *)
Lemma b64decode_b64encode (contents : list byte) :
  b64decode (b64encode contents) = Some contents.
Proof.
  unfold b64decode, b64encode, a2b_base64.
  rewrite is_ascii_b2a_base64.
  rewrite a2b_loop_b2a_base64 by reflexivity. reflexivity.
Qed.

End Base64Facts.

(** ** The document store *)

Module MongoFacts.

Lemma find_one_Some (q : query) (c : list doc) (d : doc) :
  find_one q c = Some d -> d ∈ c /\ matches q d = true.
Proof.
  unfold find_one. intros H. apply find_some in H as [Hin Hm].
  split; [apply list_elem_of_In; exact Hin | exact Hm].
Qed.

Lemma find_one_None (q : query) (c : list doc) :
  find_one q c = None <-> forall d, d ∈ c -> matches q d = false.
Proof.
  unfold find_one. split.
  - intros H d Hd. apply (find_none _ _ H). apply list_elem_of_In. exact Hd.
  - intros H. induction c as [|e c IH]; [reflexivity|]. cbn.
    rewrite (H e) by apply list_elem_of_here.
    apply IH. intros d Hd. apply H. apply list_elem_of_further. exact Hd.
Qed.

Lemma find_one_exists (q : query) (c : list doc) (d : doc) :
  d ∈ c -> matches q d = true -> exists d', find_one q c = Some d'.
Proof.
  intros Hin Hm. destruct (find_one q c) as [d'|] eqn:Hf; [eauto|].
  rewrite find_one_None in Hf. rewrite (Hf d Hin) in Hm. discriminate.
Qed.

Lemma matches_by_id (x : string) (d : doc) :
  matches (by_id x) d = true <-> x ∈ doc_ids d.
Proof.
  unfold matches, by_id, doc_ids. cbn. rewrite andb_true_r.
  destruct (d !! "id") as [[s'| |l]|]; cbn.
  - rewrite String.eqb_eq, list_elem_of_singleton. reflexivity.
  - split; [discriminate | intros H; inversion H].
  - unfold in_strings. rewrite existsb_exists. split.
    + intros (y & Hy & Heq). apply String.eqb_eq in Heq. subst y.
      apply list_elem_of_In. exact Hy.
    + intros Hx. exists x. split; [apply list_elem_of_In; exact Hx|].
      apply String.eqb_refl.
  - split; [discriminate | intros H; inversion H].
Qed.

Lemma matches_by_id_str (x : string) (d : doc) :
  d !! "id" = Some (VStr x) -> matches (by_id x) d = true.
Proof.
  intros H. apply matches_by_id. unfold doc_ids. rewrite H.
  apply list_elem_of_here.
Qed.

(** Under [unique_ids], a document is the one its identifier resolves to. *)
Lemma find_one_unique (x : string) (c : list doc) (d : doc) :
  unique_ids c = true -> d ∈ c -> matches (by_id x) d = true ->
  find_one (by_id x) c = Some d.
Proof.
  induction c as [|e c IH]; intros Hu Hin Hm.
  - inversion Hin.
  - cbn in Hu. apply andb_true_iff in Hu as [Hfresh Hu].
    unfold find_one. cbn [List.find].
    apply elem_of_cons in Hin as [->|Hin].
    + rewrite Hm. reflexivity.
    + destruct (matches (by_id x) e) eqn:He.
      * exfalso. apply matches_by_id in He.
        rewrite forallb_forall in Hfresh.
        apply list_elem_of_In in He. specialize (Hfresh x He).
        apply negb_true_iff in Hfresh.
        assert (Hex : existsb (matches (by_id x)) c = true).
        { apply existsb_exists. exists d. split; [|exact Hm].
          apply list_elem_of_In. exact Hin. }
        congruence.
      * apply IH; assumption.
Qed.

(** A document that matches a query on a string is not the empty dict. *)
Lemma matches_truthy (k : string) (v : string) (q : query) (d : doc) :
  matches ((k, CEq (VStr v)) :: q) d = true -> truthy (Some d) = true.
Proof.
  unfold matches. cbn. intros H. apply andb_true_iff in H as [H _].
  apply negb_true_iff, bool_decide_eq_false. intros ->.
  rewrite lookup_empty in H. discriminate.
Qed.

Lemma find_one_truthy (k v : string) (q : query) (c : list doc) (d : doc) :
  find_one ((k, CEq (VStr v)) :: q) c = Some d -> truthy (Some d) = true.
Proof. intros H. apply find_one_Some in H as [_ H]. eapply matches_truthy, H. Qed.

(** [update_one] on a query that resolves to [d]. *)
Lemma update_one_Some (q : query) (fields : list (string * value))
    (c : list doc) (d : doc) :
  find_one q c = Some d ->
  exists i, c !! i = Some d
    /\ (forall j e, (j < i)%nat -> c !! j = Some e -> matches q e = false)
    /\ update_one q fields c = (<[i := set_fields fields d]> c, 1).
Proof.
  unfold find_one. induction c as [|e c IH]; cbn; [discriminate|].
  destruct (matches q e) eqn:He.
  - intros [= ->]. exists 0%nat.
    split; [reflexivity|]. split; [intros; lia | reflexivity].
  - intros Hf. destruct (IH Hf) as (i & Hi & Hlt & Hu). exists (S i).
    split; [exact Hi|]. split.
    + intros [|j] e' Hj Hl; cbn in Hl; [congruence|].
      apply (Hlt j); [lia | exact Hl].
    + rewrite Hu. reflexivity.
Qed.

Lemma update_one_None (q : query) (fields : list (string * value))
    (c : list doc) :
  find_one q c = None -> update_one q fields c = (c, 0).
Proof.
  unfold find_one. induction c as [|e c IH]; cbn; [reflexivity|].
  destruct (matches q e); [discriminate|].
  intros Hf. rewrite (IH Hf). reflexivity.
Qed.

(** After the update the same query resolves to the updated document,
    provided the update leaves it matching. *)
Lemma find_one_update_one (q : query) (fields : list (string * value))
    (c : list doc) (d : doc) :
  find_one q c = Some d ->
  matches q (set_fields fields d) = true ->
  find_one q (update_one q fields c).1 = Some (set_fields fields d).
Proof.
  unfold find_one. induction c as [|e c IH]; cbn; [discriminate|].
  destruct (matches q e) eqn:He.
  - intros [= ->] Hm. cbn. rewrite Hm. reflexivity.
  - intros Hf Hm. specialize (IH Hf Hm).
    destruct (update_one q fields c) as [c' n]. cbn. rewrite He. exact IH.
Qed.

Lemma update_one_length (q : query) (fields : list (string * value))
    (c : list doc) :
  length (update_one q fields c).1 = length c.
Proof.
  induction c as [|e c IH]; cbn; [reflexivity|].
  destruct (matches q e); [reflexivity|].
  destruct (update_one q fields c) as [c' n]. cbn in *. congruence.
Qed.

Lemma update_one_matched (q : query) (fields : list (string * value))
    (c : list doc) (d : doc) :
  find_one q c = Some d -> (update_one q fields c).2 = 1.
Proof.
  intros H. destruct (update_one_Some q fields c d H) as (i & _ & _ & ->).
  reflexivity.
Qed.

Lemma find_one_app_None (q : query) (c1 c2 : list doc) :
  find_one q c1 = None -> find_one q (c1 ++ c2) = find_one q c2.
Proof.
  unfold find_one. induction c1 as [|e c1 IH]; cbn; [reflexivity|].
  destruct (matches q e); [discriminate | exact IH].
Qed.

Lemma find_one_app_Some (q : query) (c1 c2 : list doc) (d : doc) :
  find_one q c1 = Some d -> find_one q (c1 ++ c2) = Some d.
Proof.
  unfold find_one. induction c1 as [|e c1 IH]; cbn; [discriminate|].
  destruct (matches q e); [trivial | exact IH].
Qed.

(** A [$set] of fields other than [id] leaves the identifier alone. *)
Lemma matches_by_id_insert (x k : string) (v : value) (d : doc) :
  k <> "id" ->
  matches (by_id x) (<[k := v]> d) = matches (by_id x) d.
Proof.
  intros Hk. unfold matches, by_id. cbn.
  rewrite lookup_insert_ne by exact Hk. reflexivity.
Qed.

Lemma matches_app (q q' : query) (d : doc) :
  matches (q ++ q') d = matches q d && matches q' d.
Proof. unfold matches. apply forallb_app. Qed.

Lemma find_one_conj (q q' : query) (c : list doc) (a : doc) :
  find_one q c = Some a -> matches q' a = true ->
  find_one (q ++ q') c = Some a.
Proof.
  unfold find_one. induction c as [|e c IH]; cbn; [discriminate|].
  rewrite matches_app. destruct (matches q e) eqn:He; cbn.
  - intros [= ->] ->. reflexivity.
  - exact IH.
Qed.

Lemma find_one_conj_None (q q' : query) (c : list doc) :
  find_one q c = None -> find_one (q ++ q') c = None.
Proof.
  rewrite !find_one_None. intros H d Hd. rewrite matches_app, (H d Hd).
  reflexivity.
Qed.

(** Under [unique_ids], no other document answers to the identifier. *)
Lemma find_one_conj_other (x : string) (q' : query) (c : list doc) (a : doc) :
  unique_ids c = true -> a ∈ c -> matches (by_id x) a = true ->
  matches q' a = false ->
  find_one (by_id x ++ q') c = None.
Proof.
  intros Hu Ha Hm Hq. apply find_one_None. intros d Hd.
  rewrite matches_app. destruct (matches (by_id x) d) eqn:Hdm; [|reflexivity].
  pose proof (find_one_unique x c a Hu Ha Hm) as H1.
  pose proof (find_one_unique x c d Hu Hd Hdm) as H2.
  assert (d = a) as -> by congruence. rewrite Hq. reflexivity.
Qed.

Lemma matches_owned_by (current_user : Payload) (d : doc) (owner : string) :
  d !! "client_id" = Some (VStr owner) ->
  matches (owned_by current_user) d
  = String.eqb (Jwt.user_id current_user) owner.
Proof.
  intros H. unfold matches, owned_by. cbn. rewrite H. cbn.
  apply andb_true_r.
Qed.

End MongoFacts.

(** ** Sorting newest first *)

Module SortFacts.

Lemma string_leb_refl (s : string) : String.leb s s = true.
Proof.
  unfold String.leb. induction s as [|c s IH]; [reflexivity|].
  cbn. unfold Ascii.compare. rewrite N.compare_refl. exact IH.
Qed.

Lemma string_leb_trans (a b c : string) :
  String.leb a b = true -> String.leb b c = true -> String.leb a c = true.
Proof.
  unfold String.leb. revert b c.
  induction a as [|x a IH]; intros [|y b] [|z c]; cbn; try easy.
  unfold Ascii.compare.
  destruct (N.compare_spec (N_of_ascii x) (N_of_ascii y)),
    (N.compare_spec (N_of_ascii y) (N_of_ascii z)),
    (N.compare_spec (N_of_ascii x) (N_of_ascii z));
    try lia; try easy.
  apply IH.
Qed.

Lemma key_leb_refl (a : Z * string) : key_leb a a = true.
Proof.
  unfold key_leb. rewrite Z.eqb_refl, string_leb_refl. apply orb_true_r.
Qed.

Lemma key_leb_total (a b : Z * string) :
  key_leb a b = true \/ key_leb b a = true.
Proof.
  unfold key_leb. destruct a as [ra sa], b as [rb sb]. cbn.
  destruct (Z.ltb_spec ra rb); [left; reflexivity|].
  destruct (Z.ltb_spec rb ra); [right; reflexivity|].
  assert (ra = rb) as -> by lia. rewrite Z.eqb_refl. cbn.
  apply String.leb_total.
Qed.

Lemma key_leb_trans (a b c : Z * string) :
  key_leb a b = true -> key_leb b c = true -> key_leb a c = true.
Proof.
  unfold key_leb. destruct a as [ra sa], b as [rb sb], c as [rc sc]. cbn.
  intros Hab Hbc.
  apply orb_true_iff in Hab as [Hab|Hab], Hbc as [Hbc|Hbc];
    rewrite ?andb_true_iff, ?Z.ltb_lt, ?Z.eqb_eq in *.
  - apply orb_true_iff. left. apply Z.ltb_lt. lia.
  - destruct Hbc as [-> _]. apply orb_true_iff. left. apply Z.ltb_lt. lia.
  - destruct Hab as [-> _]. apply orb_true_iff. left. apply Z.ltb_lt. lia.
  - destruct Hab as [-> Hab], Hbc as [-> Hbc]. apply orb_true_iff. right.
    rewrite Z.eqb_refl. cbn. eapply string_leb_trans; eassumption.
Qed.

Lemma newer_trans (k : string) (a b c : doc) :
  newer k a b -> newer k b c -> newer k a c.
Proof. unfold newer, field_leb. intros H1 H2. eapply key_leb_trans; eassumption. Qed.

Lemma insert_desc_perm (k : string) (d : doc) (l : list doc) :
  Permutation (insert_desc k d l) (d :: l).
Proof.
  induction l as [|e l IH]; cbn; [reflexivity|].
  destruct (field_leb k e d); [reflexivity|].
  rewrite IH. apply perm_swap.
Qed.

Lemma sort_desc_perm (k : string) (l : list doc) :
  Permutation (sort_desc k l) l.
Proof.
  induction l as [|d l IH]; cbn; [reflexivity|].
  rewrite insert_desc_perm. apply perm_skip, IH.
Qed.

Lemma insert_desc_sorted (k : string) (d : doc) (l : list doc) :
  StronglySorted (newer k) l -> StronglySorted (newer k) (insert_desc k d l).
Proof.
  induction 1 as [|e l Hl IH He]; cbn.
  - constructor; constructor.
  - destruct (field_leb k e d) eqn:Hed.
    + constructor; [constructor; assumption|].
      constructor; [exact Hed|].
      eapply Forall_impl; [exact He|]. intros x Hx.
      eapply newer_trans; [exact Hed | exact Hx].
    + constructor; [exact IH|].
      eapply Permutation_Forall; [symmetry; apply insert_desc_perm|].
      constructor; [|exact He].
      unfold newer, field_leb in *.
      destruct (key_leb_total (sort_key (d !! k)) (sort_key (e !! k)));
        [assumption | congruence].
Qed.

(** The result of [sort_desc] is in descending order of the key. *)
Lemma sort_desc_sorted (k : string) (l : list doc) :
  StronglySorted (newer k) (sort_desc k l).
Proof.
  induction l as [|d l IH]; cbn; [constructor|].
  apply insert_desc_sorted, IH.
Qed.

Lemma filter_length_perm {A} (f : A -> bool) (l l' : list A) :
  Permutation l l' ->
  length (List.filter f l) = length (List.filter f l').
Proof.
  induction 1 as [|x l l' _ IH|x y l|l l' l'' _ IH1 _ IH2]; cbn.
  - reflexivity.
  - destruct (f x); cbn; congruence.
  - destruct (f x), (f y); reflexivity.
  - congruence.
Qed.

Lemma sorted_prefix_newer (k : string) (l1 l2 : list doc) (a : doc) :
  StronglySorted (newer k) (l1 ++ a :: l2) -> Forall (fun e => newer k e a) l1.
Proof.
  induction l1 as [|e l1 IH]; cbn; intros H; [constructor|].
  apply StronglySorted_inv in H as [H He]. constructor; [|apply IH, H].
  rewrite Forall_app, Forall_cons in He. tauto.
Qed.

Lemma filter_all {A} (f : A -> bool) (l : list A) :
  Forall (fun x => f x = true) l -> List.filter f l = l.
Proof.
  induction 1 as [|x l Hx _ IH]; cbn; [reflexivity|].
  rewrite Hx, IH. reflexivity.
Qed.

(** A document with fewer than [n] documents at least as new as itself
    (itself included: at most [n]) is among the first [n] of the sort. *)
Lemma elem_of_take_sort_desc (k : string) (n : nat) (a : doc) (l : list doc) :
  a ∈ l -> (as_new_as k a l <= n)%nat -> a ∈ take n (sort_desc k l).
Proof.
  intros Hin Hcount.
  assert (Ha : a ∈ sort_desc k l).
  { rewrite sort_desc_perm. exact Hin. }
  apply list_elem_of_split in Ha as (l1 & l2 & Hs).
  pose proof (sort_desc_sorted k l) as Hsorted. rewrite Hs in Hsorted.
  apply sorted_prefix_newer in Hsorted.
  unfold as_new_as in Hcount.
  rewrite <- (filter_length_perm _ _ _ (sort_desc_perm k l)), Hs in Hcount.
  rewrite List.filter_app, length_app in Hcount. cbn [List.filter] in Hcount.
  rewrite (filter_all _ l1) in Hcount by exact Hsorted.
  unfold field_leb in Hcount at 1. rewrite key_leb_refl in Hcount.
  cbn [length] in Hcount.
  rewrite Hs. apply elem_of_take. exists (length l1). split; [|lia].
  rewrite lookup_app_r by lia. rewrite Nat.sub_diag. reflexivity.
Qed.

Lemma sorted_suffix_newer (k : string) (l1 l2 : list doc) (a : doc) :
  StronglySorted (newer k) (l1 ++ a :: l2) -> Forall (newer k a) l2.
Proof.
  induction l1 as [|e l1 IH]; cbn; intros H.
  - apply StronglySorted_inv in H as [_ H]. exact H.
  - apply StronglySorted_inv in H as [H _]. apply IH, H.
Qed.

Lemma filter_none {A} (f : A -> bool) (l : list A) :
  Forall (fun x => f x = false) l -> List.filter f l = [].
Proof.
  induction 1 as [|x l Hx _ IH]; cbn; [reflexivity|].
  rewrite Hx. exact IH.
Qed.

Lemma filter_length_le {A} (f : A -> bool) (l : list A) :
  (length (List.filter f l) <= length l)%nat.
Proof.
  induction l as [|x l IH]; cbn; [lia|]. destruct (f x); cbn; lia.
Qed.

(** A document among the first [n] of the sort has fewer than [n]
    documents strictly newer than itself. *)
Lemma take_sort_desc_newer_than (k : string) (n : nat) (a : doc)
    (l : list doc) :
  a ∈ take n (sort_desc k l) -> (newer_than k a l < n)%nat.
Proof.
  intros H. apply elem_of_take in H as (i & Hi & Hlt).
  pose proof (take_drop_middle _ _ _ Hi) as Hs.
  pose proof (lookup_lt_Some _ _ _ Hi) as Hlen.
  pose proof (sort_desc_sorted k l) as Hsorted. rewrite <- Hs in Hsorted.
  apply sorted_suffix_newer in Hsorted.
  unfold newer_than.
  rewrite <- (filter_length_perm _ _ _ (sort_desc_perm k l)), <- Hs.
  rewrite List.filter_app, length_app. cbn [List.filter].
  unfold field_leb at 2. rewrite key_leb_refl. cbn [negb].
  rewrite (filter_none _ (drop (S i) (sort_desc k l))).
  - pose proof (filter_length_le (fun d => negb (field_leb k d a))
                  (take i (sort_desc k l))) as Hle.
    rewrite length_take in Hle. cbn [length]. lia.
  - eapply Forall_impl; [exact Hsorted|]. intros x Hx. unfold newer in Hx.
    rewrite Hx. reflexivity.
Qed.

Lemma newer_than_key (k : string) (a b : doc) (l : list doc) :
  a !! k = b !! k -> newer_than k a l = newer_than k b l.
Proof. intros H. unfold newer_than, field_leb. rewrite H. reflexivity. Qed.

Lemma to_list_length (n : nat) (l : list doc) :
  (length (to_list n l) <= n)%nat.
Proof. unfold to_list. rewrite length_take. lia. Qed.

Lemma to_list_subseteq (n : nat) (q : query) (k : string) (c : list doc)
    (d : doc) :
  d ∈ to_list n (sort_desc k (find q c)) -> d ∈ c /\ matches q d = true.
Proof.
  unfold to_list, find. intros H.
  apply elem_of_take in H as (i & H & _).
  apply list_elem_of_lookup_2 in H. rewrite sort_desc_perm in H.
  apply list_elem_of_In, filter_In in H as [H Hm].
  split; [apply list_elem_of_In, H | exact Hm].
Qed.

End SortFacts.

(** ** Timestamps sort as the instants they print *)

Module ClockFacts.

Ltac zlia := Z.div_mod_to_equations; lia.

(** The month and the day of a civil date are in range. *)
Lemma civil_from_days_range (z : Z) :
  let '(y, m, d) := civil_from_days z in
  1 <= m <= 12 /\ 1 <= d <= 31.
Proof.
  unfold civil_from_days. cbv zeta.
  set (doe := z + 719468 - (z + 719468) / 146097 * 146097).
  assert (Hdoe : 0 <= doe <= 146096) by (subst doe; zlia).
  clearbody doe.
  set (yoe := (doe - doe / 1460 + doe / 36524 - doe / 146096) / 365).
  set (doy := doe - (365 * yoe + yoe / 4 - yoe / 100)).
  assert (Hdoy : 0 <= doy <= 365) by (subst doy yoe; zlia).
  clearbody doy.
  destruct (Z.ltb_spec ((5 * doy + 2) / 153) 10); zlia.
Qed.

(** Days of the years 1 to 9999 have such a year. *)
Lemma civil_from_days_year (z : Z) :
  -719162 <= z <= 2932896 ->
  1 <= (civil_from_days z).1.1 <= 9999.
Proof.
  intros Hz. unfold civil_from_days. cbv zeta. cbn [fst].
  set (era := (z + 719468) / 146097).
  set (doe := z + 719468 - era * 146097).
  assert (Hdoe : 0 <= doe <= 146096 /\ 0 <= era <= 24 /\ z = era * 146097 + doe - 719468) by (subst doe era; zlia).
  clearbody doe era.
  set (yoe := (doe - doe / 1460 + doe / 36524 - doe / 146096) / 365).
  set (doy := doe - (365 * yoe + yoe / 4 - yoe / 100)).
  assert (Hdoy : 0 <= doy <= 365 /\ 0 <= yoe <= 399) by (subst doy yoe; zlia).
  set (mp := (5 * doy + 2) / 153).
  destruct (Z.ltb_spec mp 10);
  match goal with |- context [if ?b then _ else _] => destruct b eqn:Hb end;
  try apply Z.leb_le in Hb; try apply Z.leb_gt in Hb.
  all: subst mp doy yoe; zlia.
Qed.

(** A later day has a later civil date, in the order year, month, day. *)
Lemma civil_from_days_lt (z1 z2 : Z) :
  z1 < z2 ->
  let '(y1, m1, d1) := civil_from_days z1 in
  let '(y2, m2, d2) := civil_from_days z2 in
  y1 < y2 \/ (y1 = y2 /\ (m1 < m2 \/ (m1 = m2 /\ d1 < d2))).
Proof.
  intros Hz. unfold civil_from_days. cbv zeta.
  set (era1 := (z1 + 719468) / 146097).
  set (doe1 := z1 + 719468 - era1 * 146097).
  set (era2 := (z2 + 719468) / 146097).
  set (doe2 := z2 + 719468 - era2 * 146097).
  assert (Hera : 0 <= doe1 <= 146096 /\ 0 <= doe2 <= 146096
                 /\ (era1 < era2 \/ (era1 = era2 /\ doe1 < doe2)))
    by (subst doe1 doe2 era1 era2; zlia).
  clearbody doe1 doe2 era1 era2. clear Hz z1 z2.
  set (yoe1 := (doe1 - doe1 / 1460 + doe1 / 36524 - doe1 / 146096) / 365).
  set (yoe2 := (doe2 - doe2 / 1460 + doe2 / 36524 - doe2 / 146096) / 365).
  set (doy1 := doe1 - (365 * yoe1 + yoe1 / 4 - yoe1 / 100)).
  set (doy2 := doe2 - (365 * yoe2 + yoe2 / 4 - yoe2 / 100)).
  assert (H1 : 0 <= doy1 <= 365 /\ 0 <= yoe1 <= 399) by (subst doy1 yoe1; zlia).
  assert (H2 : 0 <= doy2 <= 365 /\ 0 <= yoe2 <= 399) by (subst doy2 yoe2; zlia).
  assert (Hy : era1 < era2 \/ (era1 = era2 /\ (yoe1 < yoe2 \/ (yoe1 = yoe2 /\ doy1 < doy2)))).
  { destruct Hera as (? & ? & [?|[? ?]]); [left; assumption|right].
    split; [assumption|].
    subst doy1 doy2 yoe1 yoe2; zlia. }
  clearbody doy1 doy2 yoe1 yoe2. clear Hera doe1 doe2.
  set (mp1 := (5 * doy1 + 2) / 153).
  set (mp2 := (5 * doy2 + 2) / 153).
  destruct (Z.ltb_spec mp1 10), (Z.ltb_spec mp2 10);
    repeat match goal with |- context [if ?b then _ else _] => destruct b eqn:? end;
    repeat match goal with
      | H : (_ <=? _) = true |- _ => apply Z.leb_le in H
      | H : (_ <=? _) = false |- _ => apply Z.leb_gt in H end.
  all: subst mp1 mp2; zlia.
Qed.

(** Strings with prefixes of one length compare by the prefixes first. *)
Lemma string_compare_app (p1 p2 s1 s2 : string) :
  String.length p1 = String.length p2 ->
  String.compare (p1 +:+ s1) (p2 +:+ s2)
  = match String.compare p1 p2 with
    | Eq => String.compare s1 s2
    | c => c
    end.
Proof.
  revert p2. induction p1 as [|c1 p1 IH]; intros [|c2 p2] Hlen;
    try discriminate Hlen; [reflexivity|].
  change (String c1 p1 +:+ s1) with (String c1 (p1 +:+ s1)).
  change (String c2 p2 +:+ s2) with (String c2 (p2 +:+ s2)).
  cbn [String.compare].
  destruct (Ascii.compare c1 c2); try reflexivity.
  apply IH. injection Hlen as Hlen. exact Hlen.
Qed.

Lemma string_length_app (s1 s2 : string) :
  String.length (s1 +:+ s2) = (String.length s1 + String.length s2)%nat.
Proof.
  induction s1 as [|c s1 IH]; [reflexivity|].
  change (String c s1 +:+ s2) with (String c (s1 +:+ s2)).
  cbn [String.length]. rewrite IH. reflexivity.
Qed.

Lemma zero_padded_length (w : nat) (n : Z) :
  String.length (zero_padded w n) = w.
Proof.
  revert n. induction w as [|w IH]; intros n; [reflexivity|].
  cbn [zero_padded]. rewrite string_length_app, IH. cbn. lia.
Qed.

Lemma digit_compare (a b : Z) :
  Ascii.compare (digit a) (digit b) = (a mod 10 ?= b mod 10).
Proof.
  unfold Ascii.compare, digit.
  rewrite !N_ascii_embedding by zlia.
  rewrite Z2N.inj_compare by zlia.
  apply Z.add_compare_mono_l.
Qed.

(** Zero-padded numbers of one width compare as the numbers. *)
Lemma zero_padded_compare (w : nat) (a b : Z) :
  0 <= a < 10 ^ Z.of_nat w -> 0 <= b < 10 ^ Z.of_nat w ->
  String.compare (zero_padded w a) (zero_padded w b) = (a ?= b).
Proof.
  revert a b. induction w as [|w IH]; intros a b Ha Hb.
  - cbn in *. symmetry. apply Z.compare_eq_iff. lia.
  - cbn [zero_padded].
    rewrite string_compare_app by (rewrite !zero_padded_length; reflexivity).
    rewrite Nat2Z.inj_succ, Z.pow_succ_r in Ha, Hb by lia.
    rewrite IH by zlia.
    cbn [String.compare]. rewrite digit_compare.
    destruct (Z.compare_spec (a / 10) (b / 10)),
      (Z.compare_spec (a mod 10) (b mod 10)),
      (Z.compare_spec a b); try reflexivity; exfalso; zlia.
Qed.

(** The optional fraction, with the offset after it, compares as the
    microseconds: [+] comes before [.]. *)
Lemma fraction_compare (us1 us2 : Z) :
  0 <= us1 < 1000000 -> 0 <= us2 < 1000000 ->
  String.compare
    ((if us1 =? 0 then "" else "." +:+ zero_padded 6 us1) +:+ "+00:00")
    ((if us2 =? 0 then "" else "." +:+ zero_padded 6 us2) +:+ "+00:00")
  = (us1 ?= us2).
Proof.
  intros H1 H2.
  assert (Hdot : forall s, ("." +:+ s) +:+ "+00:00" = String "." (s +:+ "+00:00"))
    by reflexivity.
  destruct (Z.eqb_spec us1 0) as [->|N1], (Z.eqb_spec us2 0) as [->|N2];
    rewrite ?Hdot.
  - reflexivity.
  - transitivity Lt; [reflexivity|]. symmetry. apply Z.compare_lt_iff. lia.
  - transitivity Gt; [reflexivity|]. symmetry. apply Z.compare_gt_iff. lia.
  - cbn [String.compare].
    change (Ascii.compare "." ".") with Eq. cbv iota.
    rewrite string_compare_app by (rewrite !zero_padded_length; reflexivity).
    rewrite zero_padded_compare by (cbn; lia).
    destruct (us1 ?= us2); reflexivity.
Qed.

Ltac compare_fields tac :=
  repeat match goal with
         | |- match (?x ?= ?y) with _ => _ end = Lt =>
             destruct (Z.compare_spec x y);
             [try (exfalso; tac) | reflexivity | exfalso; tac]
         end.

(** [isoformat] is strictly increasing on the datetimes of Python. *)
Lemma isoformat_lt (a b : datetime) :
  in_range a = true -> in_range b = true -> a < b ->
  String.compare (isoformat a) (isoformat b) = Lt.
Proof.
  unfold in_range, datetime_min, datetime_max. intros Ha Hb Hab.
  apply andb_true_iff in Ha as [Ha1 Ha2], Hb as [Hb1 Hb2].
  apply Z.leb_le in Ha1, Ha2, Hb1, Hb2.
  unfold isoformat.
  pose proof (civil_from_days_range (a / DAY)) as Ra.
  pose proof (civil_from_days_range (b / DAY)) as Rb.
  pose proof (civil_from_days_year (a / DAY)) as Ya.
  pose proof (civil_from_days_year (b / DAY)) as Yb.
  pose proof (civil_from_days_lt (a / DAY) (b / DAY)) as Hlt.
  destruct (civil_from_days (a / DAY)) as [[y1 m1] d1] eqn:E1.
  destruct (civil_from_days (b / DAY)) as [[y2 m2] d2] eqn:E2.
  cbn [fst] in Ya, Yb.
  assert (Hy1 : 1 <= y1 <= 9999) by (apply Ya; unfold DAY, SECOND in *; zlia).
  assert (Hy2 : 1 <= y2 <= 9999) by (apply Yb; unfold DAY, SECOND in *; zlia).
  clear Ya Yb.
  assert (Hdays : a / DAY < b / DAY
                  \/ (a / DAY = b / DAY /\ a mod DAY < b mod DAY))
    by (unfold DAY, SECOND; zlia).
  assert (Hu1 : 0 <= a mod DAY < 86400000000) by (unfold DAY, SECOND; zlia).
  assert (Hu2 : 0 <= b mod DAY < 86400000000) by (unfold DAY, SECOND; zlia).
  set (u1 := a mod DAY) in *. set (u2 := b mod DAY) in *.
  clearbody u1 u2.
  set (z1 := a / DAY) in *. set (z2 := b / DAY) in *. clearbody z1 z2.
  clear Ha1 Ha2 Hb1 Hb2 Hab a b.
  unfold SECOND.
  repeat (rewrite string_compare_app
            by (rewrite ?zero_padded_length; reflexivity)).
  change (String.compare "-" "-") with Eq.
  change (String.compare "T" "T") with Eq.
  change (String.compare ":" ":") with Eq.
  cbv iota.
  rewrite fraction_compare by zlia.
  rewrite !zero_padded_compare by (cbn; zlia).
  destruct Hdays as [Hdays|[Hdays Hu]].
  - specialize (Hlt Hdays). compare_fields lia.
  - subst z2. rewrite E1 in E2. injection E2 as <- <- <-.
    rewrite !Z.compare_refl.
    compare_fields zlia.
    apply Z.compare_lt_iff. zlia.
Qed.

(** The strings [isoformat] prints compare as the instants. *)
Lemma isoformat_compare (a b : datetime) :
  in_range a = true -> in_range b = true ->
  String.compare (isoformat a) (isoformat b) = (a ?= b).
Proof.
  intros Ha Hb. destruct (Z.compare_spec a b) as [->|Hlt|Hgt].
  - destruct (String.compare (isoformat b) (isoformat b)) eqn:E;
      try reflexivity;
      pose proof (String.compare_antisym (isoformat b) (isoformat b)) as H;
      rewrite E in H; discriminate H.
  - apply isoformat_lt; assumption.
  - rewrite String.compare_antisym, (isoformat_lt b a) by assumption.
    reflexivity.
Qed.

Lemma StronglySorted_lookup {A} (R : A -> A -> Prop) (l : list A)
    (i j : nat) (x y : A) :
  StronglySorted R l -> (i < j)%nat ->
  l !! i = Some x -> l !! j = Some y -> R x y.
Proof.
  intros Hs. revert i j.
  induction Hs as [|a l Hs IH Ha]; intros i j Hij Hi Hj.
  - rewrite lookup_nil in Hi. discriminate.
  - destruct j as [|j]; [lia|]. destruct i as [|i]; cbn in Hi, Hj.
    + injection Hi as <-. rewrite Forall_forall in Ha. apply Ha.
      eapply list_elem_of_lookup_2, Hj.
    + apply (IH i j); [lia | assumption | assumption].
Qed.

(** Sorted by the strings, sorted by the instants. *)
Lemma newest_first_latest_first {A} (created_at : A -> string) (l : list A) :
  newest_first created_at l -> latest_first created_at l.
Proof.
  intros Hs i j r1 r2 t1 t2 Hij Hi Hj H1 H2 Hr1 Hr2.
  pose proof (StronglySorted_lookup _ _ _ _ _ _ Hs Hij Hi Hj) as Hle.
  cbv beta in Hle. rewrite H1, H2 in Hle. unfold String.leb in Hle.
  rewrite (isoformat_compare _ _ Hr2 Hr1) in Hle.
  destruct (Z.compare_spec t2 t1); [lia | lia | discriminate].
Qed.

End ClockFacts.

(** ** Running the handlers *)

Module RunFacts.
Import MongoFacts.

Lemma db_update_one_run (c : collection) (q : query)
    (fields : list (string * value)) (db : Db) :
  db_update_one c q fields db
  = (set_coll c (update_one q fields (coll c db)).1 db,
     Ok (update_one q fields (coll c db)).2).
Proof.
  unfold db_update_one. destruct (update_one q fields (coll c db)).
  reflexivity.
Qed.

Lemma coll_set_coll (c : collection) (l : list doc) (db : Db) :
  coll c (set_coll c l db) = l.
Proof. destruct c; reflexivity. Qed.

Lemma coll_set_coll_ne (c c' : collection) (l : list doc) (db : Db) :
  c <> c' -> coll c' (set_coll c l db) = coll c' db.
Proof. destruct c, c'; intros H; try reflexivity; congruence. Qed.

Lemma set_coll_same (c : collection) (db : Db) : set_coll c (coll c db) db = db.
Proof. destruct c, db; reflexivity. Qed.

(** [verify_payment] on a payment that exists: both writes are issued and
    the handler reports success, whatever the second one matches. *)
Lemma verify_payment_run (payment_id : string) (current_user : Payload)
    (now : datetime) (db : Db) (p : doc) (v : value) :
  find_one (by_id payment_id) (payments db) = Some p ->
  p !! "ad_request_id" = Some v ->
  verify_payment payment_id current_user now db
  = (set_coll AdRequests
       (update_one [("id", CEq v)] [("status", VStr "paid")]
          (ad_requests db)).1
       (set_coll Payments
          (update_one (by_id payment_id)
             [("status", VStr "verified");
              ("verified_at", VStr (isoformat now))] (payments db)).1 db),
     Ok {| success := true |}).
Proof.
  intros Hp Hv. unfold verify_payment, bind, db_find_one.
  cbn [coll]. fold (by_id payment_id). rewrite Hp.
  rewrite (find_one_truthy _ _ _ _ _ Hp). cbn [negb].
  rewrite db_update_one_run. unfold lift, subscript. rewrite Hv.
  rewrite db_update_one_run. reflexivity.
Qed.

Lemma verify_payment_missing (payment_id : string) (current_user : Payload)
    (now : datetime) (db : Db) :
  find_one (by_id payment_id) (payments db) = None ->
  verify_payment payment_id current_user now db
  = (db, Raise (HTTPException 404 "Payment not found")).
Proof.
  intros Hp. unfold verify_payment, bind, db_find_one.
  cbn [coll]. fold (by_id payment_id). rewrite Hp. reflexivity.
Qed.

Lemma db_update_by_id_run (c : collection) (x : string)
    (fields : list (string * value)) (db : Db) (d : doc) :
  find_one (by_id x) (coll c db) = Some d ->
  db_update_one c (by_id x) fields db
  = (set_coll c (update_one (by_id x) fields (coll c db)).1 db, Ok 1).
Proof.
  intros H. rewrite db_update_one_run.
  rewrite (update_one_matched _ _ _ _ H). reflexivity.
Qed.

Lemma upload_payment_screenshot_run (payment_id file_id : string)
    (current_user : Payload) (db : Db) (p : doc) :
  find_one (by_id payment_id) (payments db) = Some p ->
  upload_payment_screenshot payment_id file_id current_user db
  = (set_coll Payments
       (update_one (by_id payment_id)
          [("screenshot_url", VStr (file_url file_id))] (payments db)).1 db,
     Ok {| screenshot_success := true;
           screenshot_url_ := file_url file_id |}).
Proof.
  intros Hp. unfold upload_payment_screenshot, bind. fold (by_id payment_id).
  rewrite (db_update_by_id_run Payments _ _ _ p Hp). reflexivity.
Qed.

Lemma verify_subscription_run (sub_id : string) (current_user : Payload)
    (db : Db) (s : doc) :
  find_one (by_id sub_id) (subscriptions db) = Some s ->
  verify_subscription sub_id current_user db
  = (set_coll Subscriptions
       (update_one (by_id sub_id) [("status", VStr "active")]
          (subscriptions db)).1 db,
     Ok {| success := true |}).
Proof.
  intros Hs. unfold verify_subscription, bind. fold (by_id sub_id).
  rewrite (db_update_by_id_run Subscriptions _ _ _ s Hs). reflexivity.
Qed.

Lemma subscription_validate_dict
    (id client_id name email start_date end_date status screenshot method
       created_at : string) :
  Subscription.validate
    (dict [ ("id", VStr id); ("client_id", VStr client_id);
            ("client_name", VStr name); ("client_email", VStr email);
            ("start_date", VStr start_date); ("end_date", VStr end_date);
            ("status", VStr status); ("payment_screenshot", VStr screenshot);
            ("payment_method", VStr method); ("created_at", VStr created_at) ])
  = Ok {| Subscription.id := id; Subscription.client_id := client_id;
          Subscription.client_name := name;
          Subscription.client_email := email;
          Subscription.start_date := start_date;
          Subscription.end_date := end_date; Subscription.status := status;
          Subscription.payment_screenshot := screenshot;
          Subscription.payment_method := method;
          Subscription.created_at := created_at |}.
Proof. reflexivity. Qed.

Lemma create_subscription_run (method : payment_method_t)
    (current_user : Payload) (uuid4 : string) (now now' : datetime)
    (db : Db) (user : doc) (name email : string) :
  find_one (by_id (Jwt.user_id current_user)) (users db) = Some user ->
  user !! "name" = Some (VStr name) ->
  user !! "email" = Some (VStr email) ->
  clock_ok now ->
  let sub_dict :=
    dict [ ("id", VStr uuid4);
           ("client_id", VStr (Jwt.user_id current_user));
           ("client_name", VStr name); ("client_email", VStr email);
           ("start_date", VStr (isoformat now));
           ("end_date", VStr (isoformat (now + timedelta_days 30)));
           ("status", VStr "pending"); ("payment_screenshot", VStr "");
           ("payment_method", VStr (payment_method_str method));
           ("created_at", VStr (isoformat now')) ] in
  create_subscription method current_user uuid4 now now' db
  = (set_coll Subscriptions (subscriptions db ++ [sub_dict]) db,
     Subscription.validate sub_dict).
Proof.
  intros Hu Hn He Hclock sub_dict.
  unfold create_subscription, bind, db_find_one. cbn [coll].
  fold (by_id (Jwt.user_id current_user)). rewrite Hu.
  unfold clock_ok in Hclock. rewrite Hclock.
  unfold lift, subscript. rewrite Hn, He. reflexivity.
Qed.

Lemma get_admin_settings_first (db : Db) :
  admin_settings db = [] ->
  get_admin_settings db
  = (set_coll AdminSettingsColl [default_settings] db,
     Ok {| AdminSettings.sham_cash_qr := "";
           AdminSettings.syriatel_qr := "" |}).
Proof.
  intros H. unfold get_admin_settings, bind, db_find_one, db_insert_one.
  cbn [coll]. rewrite H. cbn [find_one List.find truthy negb lift].
  rewrite H. reflexivity.
Qed.

Lemma get_admin_settings_found (db : Db) (d : doc) (l : list doc) :
  admin_settings db = d :: l -> d <> ∅ ->
  get_admin_settings db = (db, AdminSettings.validate d).
Proof.
  intros H Hd. unfold get_admin_settings, bind, db_find_one.
  cbn [coll]. rewrite H. cbn [find_one List.find matches forallb truthy].
  rewrite bool_decide_eq_false_2 by exact Hd. reflexivity.
Qed.

Lemma default_settings_nonempty : default_settings <> ∅.
Proof.
  intros H. apply (f_equal (.!! "sham_cash_qr")) in H.
  vm_compute in H. discriminate.
Qed.

Lemma file_doc_lookups (id data uploaded_by created_at : string)
    (filename content_type : value) :
  let file_doc :=
    dict [ ("id", VStr id); ("filename", filename); ("data", VStr data);
           ("content_type", content_type);
           ("uploaded_by", VStr uploaded_by);
           ("created_at", VStr created_at) ] in
  file_doc !! "id" = Some (VStr id)
  /\ file_doc !! "data" = Some (VStr data)
  /\ file_doc !! "content_type" = Some content_type.
Proof. repeat split; reflexivity. Qed.

Lemma get_file_missing (file_id : string) (db : Db) :
  find_one (by_id file_id) (files db) = None ->
  get_file file_id db = (db, Raise (HTTPException 404 "File not found")).
Proof.
  intros H. unfold get_file, bind, db_find_one. cbn [coll].
  fold (by_id file_id). rewrite H. reflexivity.
Qed.

Lemma get_file_found (file_id : string) (db : Db) (file_doc : doc)
    (data : string) :
  find_one (by_id file_id) (files db) = Some file_doc ->
  file_doc !! "data" = Some (VStr data) ->
  get_file file_id db
  = (db,
     match b64decode data with
     | Some file_data =>
         Ok {| content := file_data;
               media_type := default (VStr "application/octet-stream")
                               (file_doc !! "content_type") |}
     | None => Raise Base64Error
     end).
Proof.
  intros Hf Hd. unfold get_file, bind, db_find_one. cbn [coll].
  fold (by_id file_id). rewrite Hf.
  rewrite (find_one_truthy _ _ _ _ _ Hf). cbn [negb lift subscript].
  rewrite Hd. destruct (b64decode data); reflexivity.
Qed.

Lemma user_validate_dict (id email password name phone role created_at : string) :
  let user_dict :=
    dict [ ("id", VStr id); ("email", VStr email);
           ("password", VStr password); ("name", VStr name);
           ("phone", VStr phone); ("role", VStr role);
           ("created_at", VStr created_at) ] in
  let user := {| User.id := id; User.email := email; User.name := name;
                 User.phone := phone; User.role := role;
                 User.created_at := created_at |} in
  User.validate (delete "password" user_dict) = Ok user
  /\ User.validate user_dict = Ok user
  /\ (delete "password" user_dict : doc) !! "password" = None
  /\ user_dict !! "password" = Some (VStr password)
  /\ user_dict !! "email" = Some (VStr email)
  /\ user_dict !! "role" = Some (VStr role).
Proof. repeat split; reflexivity. Qed.

Lemma timegm_bounds (e : datetime) :
  timegm e * SECOND <= e < timegm e * SECOND + SECOND.
Proof. unfold timegm, SECOND. Z.div_mod_to_equations. lia. Qed.

Lemma rmap_Ok {A B} (f : A -> result B) (l : list A) (rs : list B) :
  rmap f l = Ok rs <-> Forall2 (fun a b => f a = Ok b) l rs.
Proof.
  revert rs. induction l as [|a l IH]; intros rs; cbn.
  - split; [intros [= <-]; constructor | intros H; inversion H; reflexivity].
  - unfold rbind. destruct (f a) as [b|e] eqn:Hfa.
    + destruct (rmap f l) as [bs|e] eqn:Hl.
      * split.
        -- intros [= <-]. constructor; [exact Hfa | apply IH; reflexivity].
        -- intros H. inversion H as [|? b' ? bs' Hb Hbs]; subst.
           apply IH in Hbs. congruence.
      * split; [discriminate|].
        intros H. inversion H as [|? b' ? bs' Hb Hbs]; subst.
        apply IH in Hbs. discriminate.
    + split; [discriminate|].
      intros H. inversion H as [|? b' ? bs' Hb Hbs]; subst. congruence.
Qed.

Lemma db_find_then_validate {A} (c : collection) (q : query)
    (validate : doc -> result A) (db : Db) :
  lists_newest_1000
    (docs <- db_find c q (Some "created_at") 1000 ;; lift (rmap validate docs))
    validate q (coll c db) db.
Proof.
  unfold lists_newest_1000, outcome, state_after, bind, db_find, lift.
  cbn [fst snd]. split; [reflexivity|]. split.
  - intros l. apply rmap_Ok.
  - intros l Hl. apply rmap_Ok in Hl. apply Forall2_length in Hl.
    rewrite <- Hl. unfold to_list. rewrite length_take.
    rewrite (Permutation_length (SortFacts.sort_desc_perm _ _)). lia.
Qed.

Lemma lists_newest_1000_ext {A} (m m' : M (list A))
    (validate : doc -> result A) (q : query) (c : list doc) (db : Db) :
  m db = m' db ->
  lists_newest_1000 m' validate q c db -> lists_newest_1000 m validate q c db.
Proof.
  unfold lists_newest_1000, outcome, state_after. intros ->. trivial.
Qed.

Lemma get_payments_client_run (current_user : Payload) (db : Db)
    (ad_ids : list value) :
  Jwt.role current_user <> "admin" ->
  rmap (item "id")
    (map project_id
       (to_list 1000 (find (owned_by current_user) (ad_requests db))))
  = Ok ad_ids ->
  get_payments current_user db
  = (docs <- db_find Payments [("ad_request_id", CIn ad_ids)]
               (Some "created_at") 1000 ;;
     lift (rmap Payment.validate docs)) db.
Proof.
  intros Hclient Hids. unfold get_payments.
  destruct (String.eqb_spec (Jwt.role current_user) "admin");
    [contradiction|].
  unfold bind, db_find, lift. cbn [coll]. fold (owned_by current_user).
  rewrite Hids. reflexivity.
Qed.

(** A property of the list a handler returns, decided by evaluation. *)
Lemma outcome_returns {A} (r : result (list A)) (check : list A -> bool) :
  match r with
  | Ok l => check l
  | Raise _ => false
  end = true ->
  exists l, r = Ok l /\ check l = true.
Proof. destruct r as [l|e]; [eauto | discriminate]. Qed.

Lemma Forall2_validated {A} (validate : doc -> result A) (docs : list doc) :
  Forall (fun d => is_ok (validate d) = true) docs ->
  exists l, Forall2 (fun d r => validate d = Ok r) docs l.
Proof.
  induction 1 as [|d docs Hd _ [l IH]]; [exists []; constructor|].
  destruct (validate d) as [r|e] eqn:Hv; [|discriminate].
  exists (r :: l). constructor; assumption.
Qed.

(** A list operation returns when the documents of the collection that
    match its query all validate. *)
Lemma lists_newest_1000_returns {A} (m : M (list A))
    (validate : doc -> result A) (q : query) (c : list doc) (db : Db) :
  lists_newest_1000 m validate q c db ->
  forallb (fun d => is_ok (validate d)) (find q c) = true ->
  exists l, outcome m db = Ok l.
Proof.
  intros (_ & Hiff & _) Hvalid.
  destruct (Forall2_validated validate
              (to_list 1000 (sort_desc "created_at" (find q c))))
    as [l Hl].
  - apply Forall_forall. intros d Hd.
    rewrite forallb_forall in Hvalid. apply Hvalid.
    apply list_elem_of_In. unfold to_list in Hd.
    apply elem_of_take in Hd as (i & Hd & _).
    apply list_elem_of_lookup_2 in Hd.
    rewrite SortFacts.sort_desc_perm in Hd. exact Hd.
  - exists l. apply Hiff, Hl.
Qed.

(** The fields a valid ad-request document is read from. *)
Lemma ad_request_validate_fields (d : doc) (r : AdRequest.t) :
  AdRequest.validate d = Ok r ->
  d !! "id" = Some (VStr (AdRequest.id r))
  /\ d !! "client_id" = Some (VStr (AdRequest.client_id r))
  /\ d !! "created_at" = Some (VStr (AdRequest.created_at r)).
Proof.
  intros H.
  unfold AdRequest.validate, rbind, str_field, str_field_default,
    list_field_default in H.
  repeat match type of H with
         | context [match ?m !! ?k with _ => _ end] =>
             destruct (m !! k) as [[?| |?]|] eqn:?; try discriminate H
         end;
    injection H as <-; cbn; auto.
Qed.

Lemma Forall2_elem_of_l {A B} (P : A -> B -> Prop) (l : list A) (k : list B)
    (a : A) :
  Forall2 P l k -> a ∈ l -> exists b, b ∈ k /\ P a b.
Proof.
  induction 1 as [|x y l k Hxy _ IH]; intros Ha; [inversion Ha|].
  apply elem_of_cons in Ha as [->|Ha].
  - exists y. split; [apply list_elem_of_here | exact Hxy].
  - destruct (IH Ha) as (b & Hb & Hab). exists b.
    split; [apply list_elem_of_further, Hb | exact Hab].
Qed.

Lemma Forall2_elem_of_r {A B} (P : A -> B -> Prop) (l : list A) (k : list B)
    (b : B) :
  Forall2 P l k -> b ∈ k -> exists a, a ∈ l /\ P a b.
Proof.
  induction 1 as [|x y l k Hxy _ IH]; intros Hb; [inversion Hb|].
  apply elem_of_cons in Hb as [->|Hb].
  - exists x. split; [apply list_elem_of_here | exact Hxy].
  - destruct (IH Hb) as (a & Ha & Hab). exists a.
    split; [apply list_elem_of_further, Ha | exact Hab].
Qed.

(** Every record a list operation returns comes from one of the first
    1000 documents. *)
Lemma lists_newest_1000_source {A} (m : M (list A))
    (validate : doc -> result A) (q : query) (c : list doc) (db : Db)
    (l : list A) (r : A) :
  lists_newest_1000 m validate q c db ->
  outcome m db = Ok l -> r ∈ l ->
  exists d, d ∈ to_list 1000 (sort_desc "created_at" (find q c))
            /\ validate d = Ok r.
Proof.
  intros (_ & Hiff & _) Hl Hr. apply Hiff in Hl.
  apply (Forall2_elem_of_r _ _ _ _ Hl Hr).
Qed.

(** A valid document with at most 1000 matching documents as new as
    itself is in the list the operation returns. *)
Lemma lists_newest_1000_shows {A} (m : M (list A))
    (validate : doc -> result A) (q : query) (c : list doc) (db : Db)
    (a : doc) (r : A) :
  lists_newest_1000 m validate q c db ->
  forallb (fun d => is_ok (validate d)) (find q c) = true ->
  a ∈ c -> matches q a = true -> validate a = Ok r ->
  (as_new_as "created_at" a (find q c) <= 1000)%nat ->
  exists l, outcome m db = Ok l /\ r ∈ l.
Proof.
  intros Hlist Hvalid Ha Hm Hr Hcount.
  destruct (lists_newest_1000_returns _ _ _ _ _ Hlist Hvalid) as [l Hl].
  exists l. split; [exact Hl|].
  destruct Hlist as (_ & Hiff & _). apply Hiff in Hl.
  assert (Hin : a ∈ to_list 1000 (sort_desc "created_at" (find q c))).
  { apply SortFacts.elem_of_take_sort_desc; [|exact Hcount].
    unfold find. apply list_elem_of_In, filter_In.
    split; [apply list_elem_of_In, Ha | exact Hm]. }
  destruct (Forall2_elem_of_l _ _ _ _ Hl Hin) as (r' & Hr' & Hv).
  congruence.
Qed.

(** A record whose timestamp has 1000 or more strictly newer matching
    documents is not in the list the operation returns. *)
Lemma lists_newest_1000_hides (m : M (list AdRequest.t)) (q : query)
    (c : list doc) (db : Db) (a : doc) (r : AdRequest.t)
    (l : list AdRequest.t) :
  lists_newest_1000 m AdRequest.validate q c db ->
  a !! "created_at" = Some (VStr (AdRequest.created_at r)) ->
  (1000 <= newer_than "created_at" a (find q c))%nat ->
  outcome m db = Ok l -> r ∉ l.
Proof.
  intros Hlist Ha Hcount Hl Hr.
  destruct (lists_newest_1000_source _ _ _ _ _ _ _ Hlist Hl Hr)
    as (d & Hd & Hv).
  apply ad_request_validate_fields in Hv as (_ & _ & Hcreated).
  apply SortFacts.take_sort_desc_newer_than in Hd.
  rewrite (SortFacts.newer_than_key _ d a) in Hd by congruence. lia.
Qed.

Lemma get_ad_request_found (ad_id : string) (current_user : Payload)
    (db : Db) (a : doc) (k v : string) (q : query) :
  (let query := by_id ad_id in
   if negb (String.eqb (Jwt.role current_user) "admin")
   then query ++ owned_by current_user else query)
  = (k, CEq (VStr v)) :: q ->
  find_one ((k, CEq (VStr v)) :: q) (ad_requests db) = Some a ->
  get_ad_request ad_id current_user db = (db, AdRequest.validate a).
Proof.
  intros Hq Ha. unfold get_ad_request, bind, db_find_one. cbn [coll].
  unfold by_id, owned_by in Hq. cbv zeta in Hq |- *.
  destruct (negb (String.eqb (Jwt.role current_user) "admin"));
    rewrite Hq, Ha;
  rewrite (find_one_truthy _ _ _ _ _ Ha); reflexivity.
Qed.

Lemma get_ad_request_not_found (ad_id : string) (current_user : Payload)
    (db : Db) :
  find_one
    (let query := by_id ad_id in
     if negb (String.eqb (Jwt.role current_user) "admin")
     then query ++ owned_by current_user else query)
    (ad_requests db) = None ->
  get_ad_request ad_id current_user db
  = (db, Raise (HTTPException 404 "Ad request not found")).
Proof.
  intros Ha. unfold get_ad_request, bind, db_find_one. cbn [coll].
  unfold by_id, owned_by in Ha. cbv zeta in Ha |- *.
  destruct (negb (String.eqb (Jwt.role current_user) "admin"));
    rewrite Ha; reflexivity.
Qed.

Lemma payment_validate_dict
    (id ad_request_id method screenshot status created_at : string) :
  Payment.validate
    (dict [ ("id", VStr id); ("ad_request_id", VStr ad_request_id);
            ("payment_method", VStr method);
            ("screenshot_url", VStr screenshot); ("status", VStr status);
            ("created_at", VStr created_at); ("verified_at", VNone) ])
  = Ok {| Payment.id := id; Payment.ad_request_id := ad_request_id;
          Payment.payment_method := method;
          Payment.screenshot_url := screenshot; Payment.status := status;
          Payment.created_at := created_at; Payment.verified_at := None |}.
Proof. reflexivity. Qed.

(** The fields a valid payment document is read from. *)
Lemma payment_validate_fields (d : doc) (r : Payment.t) :
  Payment.validate d = Ok r ->
  d !! "id" = Some (VStr (Payment.id r))
  /\ d !! "ad_request_id" = Some (VStr (Payment.ad_request_id r))
  /\ d !! "created_at" = Some (VStr (Payment.created_at r)).
Proof.
  intros H.
  unfold Payment.validate, rbind, str_field, str_field_default,
    optional_str_field in H.
  repeat match type of H with
         | context [match ?m !! ?k with _ => _ end] =>
             destruct (m !! k) as [[?| |?]|] eqn:?; try discriminate H
         end;
    injection H as <-; cbn; auto.
Qed.

Lemma get_ad_requests_lists (db : Db) (current_user : Payload) :
  lists_newest_1000 (get_ad_requests current_user) AdRequest.validate
    (if String.eqb (Jwt.role current_user) "admin" then []
     else owned_by current_user)
    (ad_requests db) db.
Proof.
  unfold get_ad_requests.
  destruct (String.eqb (Jwt.role current_user) "admin");
    apply (db_find_then_validate AdRequests).
Qed.

Lemma get_payments_client_lists (db : Db) (current_user : Payload)
    (ad_ids : list value) :
  Jwt.role current_user <> "admin" ->
  rmap (item "id")
    (map project_id
       (to_list 1000 (find (owned_by current_user) (ad_requests db))))
  = Ok ad_ids ->
  lists_newest_1000 (get_payments current_user) Payment.validate
    [("ad_request_id", CIn ad_ids)] (payments db) db.
Proof.
  intros Hclient Hids.
  eapply lists_newest_1000_ext;
    [apply (get_payments_client_run _ _ _ Hclient Hids)|].
  apply (db_find_then_validate Payments).
Qed.

Lemma to_list_find_subseteq (n : nat) (q : query) (c : list doc) (d : doc) :
  d ∈ to_list n (find q c) -> d ∈ c /\ matches q d = true.
Proof.
  unfold to_list, find. intros H.
  apply elem_of_take in H as (i & H & _).
  apply list_elem_of_lookup_2, list_elem_of_In, filter_In in H as [H Hm].
  split; [apply list_elem_of_In, H | exact Hm].
Qed.

(** A string field matched by [$in] equals one of the listed values. *)
Lemma matches_in_str (k s : string) (vs : list value) (d : doc) :
  d !! k = Some (VStr s) ->
  matches [(k, CIn vs)] d = true -> VStr s ∈ vs.
Proof.
  intros Hk. unfold matches. cbn. rewrite Hk, andb_true_r.
  intros H. apply existsb_exists in H as (v & Hv & Hm).
  apply list_elem_of_In in Hv.
  destruct v as [s'| |l]; cbn in Hm; try discriminate.
  apply String.eqb_eq in Hm. subst s'. exact Hv.
Qed.

Lemma get_payments_client_raises (current_user : Payload) (db : Db) (e : exn) :
  Jwt.role current_user <> "admin" ->
  rmap (item "id")
    (map project_id
       (to_list 1000 (find (owned_by current_user) (ad_requests db))))
  = Raise e ->
  get_payments current_user db = (db, Raise e).
Proof.
  intros Hclient Hids. unfold get_payments.
  destruct (String.eqb_spec (Jwt.role current_user) "admin");
    [contradiction|].
  unfold bind, db_find, lift. cbn [coll]. fold (owned_by current_user).
  rewrite Hids. reflexivity.
Qed.

Lemma item_project_id (a : doc) (v : value) :
  item "id" (project_id a) = Ok v -> a !! "id" = Some v.
Proof.
  unfold item, project_id. destruct (a !! "id") as [w|] eqn:Ha.
  - rewrite lookup_singleton_eq. congruence.
  - rewrite lookup_empty. discriminate.
Qed.

Lemma subscription_validate_fields (d : doc) (r : Subscription.t) :
  Subscription.validate d = Ok r ->
  d !! "id" = Some (VStr (Subscription.id r))
  /\ d !! "client_id" = Some (VStr (Subscription.client_id r))
  /\ d !! "created_at" = Some (VStr (Subscription.created_at r)).
Proof.
  intros H.
  unfold Subscription.validate, rbind, str_field, str_field_default in H.
  repeat match type of H with
         | context [match ?m !! ?k with _ => _ end] =>
             destruct (m !! k) as [[?| |?]|] eqn:?; try discriminate H
         end;
    injection H as <-; cbn; auto.
Qed.

Lemma StronglySorted_take {A} (R : A -> A -> Prop) (n : nat) (l : list A) :
  StronglySorted R l -> StronglySorted R (take n l).
Proof.
  intros H. revert n. induction H as [|a l _ IH Ha]; intros [|n]; cbn;
    try constructor.
  - apply IH.
  - apply Forall_take, Ha.
Qed.

Lemma StronglySorted_Forall2 {A B} (R : A -> A -> Prop) (S : B -> B -> Prop)
    (P : A -> B -> Prop) (l : list A) (k : list B) :
  (forall a a' b b', P a b -> P a' b' -> R a a' -> S b b') ->
  Forall2 P l k -> StronglySorted R l -> StronglySorted S k.
Proof.
  intros HRS H. induction H as [|a b l k Hab Hlk IH]; intros Hs;
    [constructor|].
  apply StronglySorted_inv in Hs as [Hs Ha].
  constructor; [apply IH, Hs|].
  apply Forall_forall. intros b' Hb'.
  destruct (Forall2_elem_of_r _ _ _ _ Hlk Hb') as (a' & Ha' & Hab').
  rewrite Forall_forall in Ha. eapply HRS; eauto.
Qed.

(** A list operation returns its records newest first. *)
Lemma lists_newest_1000_sorted {A} (m : M (list A))
    (validate : doc -> result A) (created_at : A -> string)
    (q : query) (c : list doc) (db : Db) (l : list A) :
  (forall d r, validate d = Ok r ->
               d !! "created_at" = Some (VStr (created_at r))) ->
  lists_newest_1000 m validate q c db ->
  outcome m db = Ok l -> newest_first created_at l.
Proof.
  intros Hfield (_ & Hiff & _) Hl. apply Hiff in Hl.
  unfold newest_first.
  eapply (StronglySorted_Forall2 (newer "created_at")); [|exact Hl|].
  - intros d d' r r' Hr Hr' Hnew. cbv beta in *.
    apply Hfield in Hr, Hr'.
    unfold newer, field_leb in Hnew. rewrite Hr, Hr' in Hnew.
    exact Hnew.
  - unfold to_list. apply StronglySorted_take, SortFacts.sort_desc_sorted.
Qed.

Lemma StronglySorted_app_elem {A} (R : A -> A -> Prop) (l1 l2 : list A)
    (x y : A) :
  StronglySorted R (l1 ++ l2) -> x ∈ l1 -> y ∈ l2 -> R x y.
Proof.
  induction l1 as [|e l1 IH]; cbn; intros Hs Hx Hy; [inversion Hx|].
  apply StronglySorted_inv in Hs as [Hs He].
  apply elem_of_cons in Hx as [->|Hx]; [|apply IH; assumption].
  rewrite Forall_forall in He. apply He. apply elem_of_app. right. exact Hy.
Qed.

(** The first 1000 of the sort are the newest 1000. *)
Lemma take_sort_desc_newest_of (k : string) (n : nat) (l : list doc) :
  newest_of k n l (take n (sort_desc k l)) (drop n (sort_desc k l)).
Proof.
  pose proof (SortFacts.sort_desc_sorted k l) as Hsorted.
  split; [|split; [|split]].
  - rewrite take_drop. apply SortFacts.sort_desc_perm.
  - rewrite length_take.
    rewrite (Permutation_length (SortFacts.sort_desc_perm k l)).
    reflexivity.
  - apply StronglySorted_take, Hsorted.
  - intros d r Hd Hr.
    apply (StronglySorted_app_elem _ (take n (sort_desc k l))
             (drop n (sort_desc k l))); [|assumption|assumption].
    rewrite take_drop. exact Hsorted.
Qed.

Lemma lists_newest_1000_newest {A} (m : M (list A))
    (validate : doc -> result A) (q : query) (c : list doc) (db : Db) :
  lists_newest_1000 m validate q c db ->
  returns_newest_1000 m validate q c db.
Proof.
  intros (Hstate & Hiff & Hlen).
  split; [exact Hstate|]. split; [|exact Hlen].
  exists (take 1000 (sort_desc "created_at" (find q c))),
    (drop 1000 (sort_desc "created_at" (find q c))).
  split; [apply take_sort_desc_newest_of | exact Hiff].
Qed.

Lemma filter_length_lt {A} (f : A -> bool) (l : list A) (x : A) :
  x ∈ l -> f x = false -> (length (List.filter f l) < length l)%nat.
Proof.
  induction l as [|e l IH]; intros Hx Hf; [inversion Hx|].
  cbn. apply elem_of_cons in Hx as [<-|Hx].
  - rewrite Hf. pose proof (SortFacts.filter_length_le f l). lia.
  - specialize (IH Hx Hf). destruct (f e); cbn; lia.
Qed.

(** A document that is kept has fewer than [n] matching documents
    strictly newer than itself. *)
Lemma newest_of_newer_than (k : string) (n : nat)
    (matching kept rest : list doc) (d : doc) :
  newest_of k n matching kept rest -> d ∈ kept ->
  (newer_than k d matching < n)%nat.
Proof.
  intros (Hperm & Hlen & _ & Hrest) Hd. unfold newer_than.
  rewrite <- (SortFacts.filter_length_perm _ _ _ Hperm).
  rewrite List.filter_app, length_app.
  rewrite (SortFacts.filter_none _ rest).
  - pose proof (filter_length_lt (fun e => negb (field_leb k e d)) kept d Hd)
      as Hlt.
    cbn [length]. rewrite Nat.add_0_r.
    assert (Hrefl : negb (field_leb k d d) = false).
    { unfold field_leb. rewrite SortFacts.key_leb_refl. reflexivity. }
    specialize (Hlt Hrefl). lia.
  - apply Forall_forall. intros r Hr.
    specialize (Hrest d r Hd Hr). unfold newer in Hrest.
    rewrite Hrest. reflexivity.
Qed.

(** A list operation returns when the matching documents all validate. *)
Lemma returns_newest_1000_returns {A} (m : M (list A))
    (validate : doc -> result A) (q : query) (c : list doc) (db : Db) :
  returns_newest_1000 m validate q c db ->
  forallb (fun d => is_ok (validate d)) (find q c) = true ->
  exists l, outcome m db = Ok l.
Proof.
  intros (_ & (kept & rest & (Hperm & _) & Hiff) & _) Hvalid.
  destruct (Forall2_validated validate kept) as [l Hl].
  - apply Forall_forall. intros d Hd.
    rewrite forallb_forall in Hvalid. apply Hvalid.
    apply list_elem_of_In. rewrite <- Hperm.
    apply elem_of_app. left. exact Hd.
  - exists l. apply Hiff, Hl.
Qed.

(** A record whose timestamp has 1000 or more strictly newer matching
    documents is left out. *)
Lemma returns_newest_1000_hides (m : M (list AdRequest.t)) (q : query)
    (c : list doc) (db : Db) (a : doc) (r : AdRequest.t)
    (l : list AdRequest.t) :
  returns_newest_1000 m AdRequest.validate q c db ->
  a !! "created_at" = Some (VStr (AdRequest.created_at r)) ->
  (1000 <= newer_than "created_at" a (find q c))%nat ->
  outcome m db = Ok l -> r ∉ l.
Proof.
  intros (_ & (kept & rest & Hnewest & Hiff) & _) Ha Hcount Hl Hr.
  apply Hiff in Hl.
  destruct (Forall2_elem_of_r _ _ _ _ Hl Hr) as (d & Hd & Hv).
  apply ad_request_validate_fields in Hv as (_ & _ & Hcreated).
  pose proof (newest_of_newer_than _ _ _ _ _ _ Hnewest Hd) as Hlt.
  rewrite (SortFacts.newer_than_key _ d a) in Hlt by congruence. lia.
Qed.

(** [bcrypt.hashpw] takes passwords of up to 72 bytes. *)
Lemma hash_password_short (bcrypt_hashpw : string -> string -> string)
    (password salt : string) :
  (String.length password <= 72)%nat ->
  hash_password bcrypt_hashpw password salt
  = Ok (bcrypt_hashpw password salt).
Proof.
  intros H. unfold hash_password.
  destruct (Nat.ltb_spec 72 (String.length password)); [lia | reflexivity].
Qed.

Lemma hash_password_long (bcrypt_hashpw : string -> string -> string)
    (password salt : string) :
  (72 < String.length password)%nat ->
  hash_password bcrypt_hashpw password salt = Raise ValueError.
Proof.
  intros H. unfold hash_password.
  destruct (Nat.ltb_spec 72 (String.length password)); [reflexivity | lia].
Qed.

End RunFacts.

(** ** Identifiers stay unique *)

Module InvariantFacts.
Import MongoFacts RunFacts.

Lemma matches_by_id_in (x : string) (d : doc) :
  matches (by_id x) d = in_strings x (doc_ids d).
Proof.
  unfold matches, by_id, doc_ids, in_strings. cbn. rewrite andb_true_r.
  destruct (d !! "id") as [[s| |l]|]; cbn; rewrite ?orb_false_r; reflexivity.
Qed.

Lemma existsb_by_id_ext (x : string) (c c' : list doc) :
  map doc_ids c = map doc_ids c' ->
  existsb (matches (by_id x)) c = existsb (matches (by_id x)) c'.
Proof.
  revert c'. induction c as [|d c IH]; intros [|d' c'] H; try discriminate;
    [reflexivity|].
  cbn [map] in H. injection H as Hd Hc. cbn [existsb].
  rewrite !matches_by_id_in, Hd, (IH c' Hc). reflexivity.
Qed.

Lemma unique_ids_ext (c c' : list doc) :
  map doc_ids c = map doc_ids c' -> unique_ids c = unique_ids c'.
Proof.
  revert c'. induction c as [|d c IH]; intros [|d' c'] H; try discriminate;
    [reflexivity|].
  cbn [map] in H. injection H as Hd Hc. cbn [unique_ids].
  rewrite Hd, (IH c' Hc).
  apply (f_equal (fun b => b && unique_ids c')). clear Hd.
  induction (doc_ids d') as [|x xs IHxs]; [reflexivity|]. cbn [forallb].
  rewrite (existsb_by_id_ext x c c' Hc), IHxs. reflexivity.
Qed.

Lemma doc_ids_set_fields (fields : list (string * value)) (d : doc) :
  keeps_id fields = true -> doc_ids (set_fields fields d) = doc_ids d.
Proof.
  unfold set_fields, keeps_id. revert d.
  induction fields as [|[k v] fields IH]; intros d H; [reflexivity|].
  cbn in H. apply andb_true_iff in H as [Hk H]. cbn [fold_left fst snd].
  rewrite (IH _ H). unfold doc_ids. rewrite lookup_insert_ne; [reflexivity|].
  apply negb_true_iff, String.eqb_neq in Hk. exact Hk.
Qed.

Lemma doc_ids_update_one (q : query) (fields : list (string * value))
    (c : list doc) :
  keeps_id fields = true ->
  map doc_ids (update_one q fields c).1 = map doc_ids c.
Proof.
  intros H. induction c as [|d c IH]; [reflexivity|]. cbn.
  destruct (matches q d).
  - cbn. rewrite (doc_ids_set_fields _ _ H). reflexivity.
  - destruct (update_one q fields c) as [c' n]. cbn in *. rewrite IH.
    reflexivity.
Qed.

Lemma unique_ids_update_one (q : query) (fields : list (string * value))
    (c : list doc) :
  keeps_id fields = true ->
  unique_ids (update_one q fields c).1 = unique_ids c.
Proof. intros H. apply unique_ids_ext, doc_ids_update_one, H. Qed.

Lemma unique_ids_insert_one (d : doc) (c : list doc) :
  unique_ids c = true ->
  (forall x, x ∈ doc_ids d -> find_one (by_id x) c = None) ->
  unique_ids (insert_one d c) = true.
Proof.
  unfold insert_one. induction c as [|e c IH]; intros Hu Hfresh.
  - cbn [app unique_ids existsb]. rewrite andb_true_r.
    apply forallb_forall. reflexivity.
  - cbn [app unique_ids] in Hu |- *. apply andb_true_iff in Hu as [He Hu].
    apply andb_true_iff. split.
    + rewrite forallb_forall in He |- *. intros x Hx.
      specialize (He x Hx). apply negb_true_iff in He.
      rewrite existsb_app, He. cbn [existsb orb]. rewrite orb_false_r.
      apply negb_true_iff.
      destruct (matches (by_id x) d) eqn:Hd; [|reflexivity].
      apply matches_by_id in Hd. specialize (Hfresh x Hd).
      rewrite find_one_None in Hfresh.
      assert (Hm : matches (by_id x) e = true).
      { apply matches_by_id, list_elem_of_In, Hx. }
      rewrite Hfresh in Hm by apply list_elem_of_here. discriminate.
    + apply IH; [exact Hu|]. intros x Hx. specialize (Hfresh x Hx).
      rewrite find_one_None in Hfresh |- *. intros d' Hd'.
      apply Hfresh, list_elem_of_further, Hd'.
Qed.

Lemma ids_unique_set_coll (c : collection) (l : list doc) (db : Db) :
  ids_unique db -> unique_ids l = true -> ids_unique (set_coll c l db).
Proof.
  intros Hdb Hl c'.
  destruct c, c'; cbn; try exact Hl;
    first [ exact (Hdb Users) | exact (Hdb Files) | exact (Hdb AdRequests)
          | exact (Hdb Payments) | exact (Hdb Subscriptions)
          | exact (Hdb AdminSettingsColl) ].
Qed.

(** *** Rules *)

Lemma hoare_weaken {A} (P P' Q Q' : Db -> Prop) (m : M A) :
  hoare P' m Q' -> (forall db, P db -> P' db) -> (forall db, Q' db -> Q db) ->
  hoare P m Q.
Proof. unfold hoare. auto. Qed.

(** A computation that only reads. *)
Lemma hoare_skip {A} (P Q : Db -> Prop) (m : M A) :
  (forall db, state_after m db = db) -> (forall db, P db -> Q db) ->
  hoare P m Q.
Proof. intros Hm HPQ db HP. rewrite Hm. apply HPQ, HP. Qed.

Lemma hoare_ret {A} (P : Db -> Prop) (a : A) : hoare P (ret a) P.
Proof. intros db H. exact H. Qed.

Lemma hoare_raise {A} (P : Db -> Prop) (e : exn) : hoare P (@raise A e) P.
Proof. intros db H. exact H. Qed.

Lemma hoare_lift {A} (P : Db -> Prop) (r : result A) : hoare P (lift r) P.
Proof. intros db H. exact H. Qed.

Lemma hoare_db_find_one (P : Db -> Prop) (c : collection) (q : query) :
  hoare P (db_find_one c q) P.
Proof. intros db H. exact H. Qed.

Lemma hoare_db_find (P : Db -> Prop) (c : collection) (q : query)
    (sort : option string) (n : nat) :
  hoare P (db_find c q sort n) P.
Proof. intros db H. exact H. Qed.

(** Sequencing: the intermediate assertion must imply the final one,
    since an exception in [m] ends the handler there. *)
Lemma hoare_bind {A B} (P R Q : Db -> Prop) (m : M A) (k : A -> M B) :
  hoare P m R -> (forall db, R db -> Q db) -> (forall a, hoare R (k a) Q) ->
  hoare P (bind m k) Q.
Proof.
  unfold hoare, state_after, bind. intros Hm HRQ Hk db HP.
  specialize (Hm db HP). destruct (m db) as [db' [a|e]]; cbn in *.
  - apply Hk, Hm.
  - apply HRQ, Hm.
Qed.

Lemma hoare_db_update_one (c : collection) (q : query)
    (fields : list (string * value)) :
  keeps_id fields = true ->
  hoare ids_unique (db_update_one c q fields) ids_unique.
Proof.
  intros Hk db Hdb. unfold state_after. rewrite db_update_one_run.
  cbn [fst]. apply ids_unique_set_coll; [exact Hdb|].
  rewrite (unique_ids_update_one _ _ _ Hk). apply Hdb.
Qed.

Lemma hoare_db_insert_one (c : collection) (d : doc) (x : string) :
  d !! "id" = Some (VStr x) ->
  hoare (fun db => ids_unique db /\ fresh_in c x db) (db_insert_one c d)
    ids_unique.
Proof.
  intros Hd db [Hdb Hfresh]. unfold state_after, db_insert_one. cbn [fst].
  apply ids_unique_set_coll; [exact Hdb|].
  apply unique_ids_insert_one; [apply Hdb|].
  unfold doc_ids. rewrite Hd. intros y Hy.
  apply list_elem_of_singleton in Hy as ->. exact Hfresh.
Qed.

Lemma hoare_db_insert_one_no_id (c : collection) (d : doc) :
  d !! "id" = None ->
  hoare ids_unique (db_insert_one c d) ids_unique.
Proof.
  intros Hd db Hdb. unfold state_after, db_insert_one. cbn [fst].
  apply ids_unique_set_coll; [exact Hdb|].
  apply unique_ids_insert_one; [apply Hdb|].
  unfold doc_ids. rewrite Hd. intros y Hy. inversion Hy.
Qed.

Lemma lookup_id_set_fields (fields : list (string * value)) (d : doc) :
  keeps_id fields = true -> set_fields fields d !! "id" = d !! "id".
Proof.
  unfold set_fields, keeps_id. revert d.
  induction fields as [|[k v] fields IH]; intros d H; [reflexivity|].
  cbn in H. apply andb_true_iff in H as [Hk H]. cbn [fold_left fst snd].
  rewrite (IH _ H). apply lookup_insert_ne.
  apply negb_true_iff, String.eqb_neq in Hk. exact Hk.
Qed.

Lemma update_one_elem (q : query) (fields : list (string * value))
    (c : list doc) (d : doc) :
  find_one q c = Some d -> set_fields fields d ∈ (update_one q fields c).1.
Proof.
  intros H. destruct (update_one_Some q fields c d H) as (i & Hi & _ & ->).
  cbn [fst]. apply list_elem_of_lookup. exists i.
  apply list_lookup_insert_eq. apply (lookup_lt_Some _ _ _ Hi).
Qed.

(** After an update that keeps [id], the identifier of the updated
    document resolves to its new version. *)
Lemma updated_resolves (q : query) (fields : list (string * value))
    (c : list doc) (d : doc) (x : string) :
  unique_ids c = true -> keeps_id fields = true ->
  find_one q c = Some d -> d !! "id" = Some (VStr x) ->
  find_one (by_id x) (update_one q fields c).1 = Some (set_fields fields d).
Proof.
  intros Hu Hk Hq Hid. apply find_one_unique.
  - rewrite (unique_ids_update_one _ _ _ Hk). exact Hu.
  - apply update_one_elem, Hq.
  - apply matches_by_id_str. rewrite (lookup_id_set_fields _ _ Hk). exact Hid.
Qed.

(** *** Writes outside a collection, and the size of a collection *)

Lemma db_update_one_upsert_run (c : collection) (q : query)
    (fields : list (string * value)) (db : Db) :
  db_update_one_upsert c q fields db
  = (set_coll c (update_one_upsert q fields (coll c db)).1 db,
     Ok (update_one_upsert q fields (coll c db)).2).
Proof.
  unfold db_update_one_upsert.
  destruct (update_one_upsert q fields (coll c db)). reflexivity.
Qed.

Lemma hoare_frame_insert (c c' : collection) (d : doc) (l : list doc) :
  c <> c' ->
  hoare (fun db => coll c' db = l) (db_insert_one c d)
    (fun db => coll c' db = l).
Proof.
  intros Hne db H. unfold state_after, db_insert_one. cbn [fst].
  rewrite coll_set_coll_ne by exact Hne. exact H.
Qed.

Lemma hoare_frame_update (c c' : collection) (q : query)
    (fields : list (string * value)) (l : list doc) :
  c <> c' ->
  hoare (fun db => coll c' db = l) (db_update_one c q fields)
    (fun db => coll c' db = l).
Proof.
  intros Hne db H. unfold state_after. rewrite db_update_one_run. cbn [fst].
  rewrite coll_set_coll_ne by exact Hne. exact H.
Qed.

Lemma hoare_frame_upsert (c c' : collection) (q : query)
    (fields : list (string * value)) (l : list doc) :
  c <> c' ->
  hoare (fun db => coll c' db = l) (db_update_one_upsert c q fields)
    (fun db => coll c' db = l).
Proof.
  intros Hne db H. unfold state_after. rewrite db_update_one_upsert_run.
  cbn [fst]. rewrite coll_set_coll_ne by exact Hne. exact H.
Qed.

Lemma length_coll_set_coll (c c' : collection) (l : list doc) (db : Db)
    (n : nat) :
  (n <= length (coll c' db))%nat ->
  (length (coll c db) <= length l)%nat ->
  (n <= length (coll c' (set_coll c l db)))%nat.
Proof. destruct c, c'; cbn; lia. Qed.

Lemma hoare_length_insert (c c' : collection) (d : doc) (n : nat) :
  hoare (fun db => (n <= length (coll c' db))%nat) (db_insert_one c d)
    (fun db => (n <= length (coll c' db))%nat).
Proof.
  intros db H. unfold state_after, db_insert_one. cbn [fst].
  apply length_coll_set_coll; [exact H|].
  unfold insert_one. rewrite length_app. lia.
Qed.

Lemma hoare_length_update (c c' : collection) (q : query)
    (fields : list (string * value)) (n : nat) :
  hoare (fun db => (n <= length (coll c' db))%nat) (db_update_one c q fields)
    (fun db => (n <= length (coll c' db))%nat).
Proof.
  intros db H. unfold state_after. rewrite db_update_one_run. cbn [fst].
  apply length_coll_set_coll; [exact H|]. rewrite update_one_length. lia.
Qed.

Lemma hoare_length_upsert (c c' : collection) (q : query)
    (fields : list (string * value)) (n : nat) :
  hoare (fun db => (n <= length (coll c' db))%nat)
    (db_update_one_upsert c q fields)
    (fun db => (n <= length (coll c' db))%nat).
Proof.
  intros db H. unfold state_after. rewrite db_update_one_upsert_run.
  cbn [fst]. apply length_coll_set_coll; [exact H|].
  unfold update_one_upsert.
  pose proof (update_one_length q fields (coll c db)) as Hlen.
  destruct (update_one q fields (coll c db)) as [l n']. cbn [fst] in Hlen.
  destruct (n' =? 0); cbn [fst].
  - unfold insert_one. rewrite length_app. lia.
  - lia.
Qed.

(** *** The handlers *)

Ltac hoare_side := intros ? ?; first [assumption | tauto].

Ltac hoare_leaf := apply hoare_skip; [intros ?; reflexivity | hoare_side].

Ltac hoare_write :=
  first
    [ match goal with
      | |- hoare ?P _ ?Q =>
          apply (hoare_weaken P ids_unique Q ids_unique);
          [ first [ apply hoare_db_update_one; reflexivity
                  | apply hoare_db_insert_one_no_id; reflexivity ]
          | hoare_side | hoare_side ]
      end
    | eapply hoare_db_insert_one; reflexivity ].

Ltac hoare_auto :=
  repeat
    (cbv zeta;
     match goal with
     | |- hoare _ (if ?b then _ else _) _ => destruct b
     | |- hoare _ (match ?x with _ => _ end) _ => destruct x
     | |- hoare ?P (bind (db_update_one _ _ _) _) ?Q =>
         apply (hoare_bind P ids_unique Q); [hoare_write | hoare_side | intros ?]
     | |- hoare ?P (bind (db_insert_one _ _) _) ?Q =>
         apply (hoare_bind P ids_unique Q); [hoare_write | hoare_side | intros ?]
     | |- hoare ?P (bind _ _) ?Q =>
         apply (hoare_bind P P Q); [hoare_leaf | hoare_side | intros ?]
     | |- hoare _ _ _ => first [hoare_leaf | hoare_write]
     end).

Ltac hoare_with write :=
  repeat
    (cbv zeta;
     match goal with
     | |- hoare _ (if ?b then _ else _) _ => destruct b
     | |- hoare _ (match ?x with _ => _ end) _ => destruct x
     | |- hoare ?P (bind (db_update_one _ _ _) _) ?Q =>
         apply (hoare_bind P Q Q); [write | hoare_side | intros ?]
     | |- hoare ?P (bind (db_update_one_upsert _ _ _) _) ?Q =>
         apply (hoare_bind P Q Q); [write | hoare_side | intros ?]
     | |- hoare ?P (bind (db_insert_one _ _) _) ?Q =>
         apply (hoare_bind P Q Q); [write | hoare_side | intros ?]
     | |- hoare ?P (bind _ _) ?Q =>
         apply (hoare_bind P P Q); [| hoare_side | intros ?]
     | |- hoare _ _ _ => first [hoare_leaf | write]
     end).

Ltac frame_write :=
  first [ apply hoare_frame_insert; discriminate
        | apply hoare_frame_update; discriminate
        | apply hoare_frame_upsert; discriminate ].

Ltac length_write :=
  first [ apply hoare_length_insert | apply hoare_length_update
        | apply hoare_length_upsert ].

Section Writers.
Variable JWT_SECRET : string.
Variable hmac : string -> string -> Payload -> string.
Variable bcrypt_hashpw : string -> string -> string.

Lemma register_keeps_ids_unique (user_data : UserCreate)
    (uuid4 salt : string) (now now' : datetime) :
  hoare (fun db => ids_unique db /\ fresh_in Users uuid4 db)
    (register JWT_SECRET hmac bcrypt_hashpw user_data uuid4 salt now now')
    ids_unique.
Proof. unfold register. hoare_auto. Qed.

Lemma upload_file_keeps_ids_unique (contents : list byte)
    (filename content_type : option string) (current_user : Payload)
    (uuid4 : string) (now : datetime) :
  hoare (fun db => ids_unique db /\ fresh_in Files uuid4 db)
    (upload_file contents filename content_type current_user uuid4 now)
    ids_unique.
Proof. unfold upload_file. hoare_auto. Qed.

Lemma create_ad_request_keeps_ids_unique (ad_data : AdRequestCreate.t)
    (current_user : Payload) (uuid4 : string) (now : datetime) :
  hoare (fun db => ids_unique db /\ fresh_in AdRequests uuid4 db)
    (create_ad_request ad_data current_user uuid4 now) ids_unique.
Proof. unfold create_ad_request. hoare_auto. Qed.

Lemma add_photos_keeps_ids_unique (ad_id : string) (file_ids : list string)
    (current_user : Payload) :
  hoare ids_unique (add_photos ad_id file_ids current_user) ids_unique.
Proof. unfold add_photos. hoare_auto. Qed.

Lemma update_ad_status_keeps_ids_unique (ad_id status : string)
    (current_user : Payload) :
  hoare ids_unique (update_ad_status ad_id status current_user) ids_unique.
Proof. unfold update_ad_status. hoare_auto. Qed.

Lemma create_payment_keeps_ids_unique (payment_data : PaymentCreate)
    (current_user : Payload) (uuid4 : string) (now : datetime) :
  hoare (fun db => ids_unique db /\ fresh_in Payments uuid4 db)
    (create_payment payment_data current_user uuid4 now) ids_unique.
Proof. unfold create_payment. hoare_auto. Qed.

Lemma upload_payment_screenshot_keeps_ids_unique (payment_id file_id : string)
    (current_user : Payload) :
  hoare ids_unique (upload_payment_screenshot payment_id file_id current_user)
    ids_unique.
Proof. unfold upload_payment_screenshot. hoare_auto. Qed.

Lemma verify_payment_keeps_ids_unique (payment_id : string)
    (current_user : Payload) (now : datetime) :
  hoare ids_unique (verify_payment payment_id current_user now) ids_unique.
Proof. unfold verify_payment. hoare_auto. Qed.

Lemma create_subscription_keeps_ids_unique (method : payment_method_t)
    (current_user : Payload) (uuid4 : string) (now now' : datetime) :
  hoare (fun db => ids_unique db /\ fresh_in Subscriptions uuid4 db)
    (create_subscription method current_user uuid4 now now') ids_unique.
Proof. unfold create_subscription. hoare_auto. Qed.

Lemma upload_subscription_screenshot_keeps_ids_unique
    (sub_id file_id : string) (current_user : Payload) :
  hoare ids_unique (upload_subscription_screenshot sub_id file_id current_user)
    ids_unique.
Proof. unfold upload_subscription_screenshot. hoare_auto. Qed.

Lemma verify_subscription_keeps_ids_unique (sub_id : string)
    (current_user : Payload) :
  hoare ids_unique (verify_subscription sub_id current_user) ids_unique.
Proof. unfold verify_subscription. hoare_auto. Qed.

Lemma get_admin_settings_keeps_ids_unique :
  hoare ids_unique get_admin_settings ids_unique.
Proof. unfold get_admin_settings. hoare_auto. Qed.

End Writers.

Lemma hoare_db_upsert_no_id (c : collection)
    (fields : list (string * value)) :
  keeps_id fields = true ->
  hoare ids_unique (db_update_one_upsert c [] fields) ids_unique.
Proof.
  intros Hk db Hdb. unfold state_after. rewrite db_update_one_upsert_run.
  cbn [fst]. apply ids_unique_set_coll; [exact Hdb|].
  unfold update_one_upsert.
  pose proof (unique_ids_update_one [] fields (coll c db) Hk) as Hu.
  destruct (update_one [] fields (coll c db)) as [l n]. cbn [fst] in Hu.
  destruct (n =? 0); cbn [fst].
  - apply unique_ids_insert_one; [apply Hdb|].
    unfold doc_ids. cbn [query_fields flat_map].
    rewrite (lookup_id_set_fields _ _ Hk). cbn [set_fields fold_left].
    rewrite lookup_empty. intros x Hx. inversion Hx.
  - rewrite Hu. apply Hdb.
Qed.

Lemma update_admin_settings_keeps_ids_unique
    (settings : AdminSettingsUpdate.t) (current_user : Payload) :
  hoare ids_unique (update_admin_settings settings current_user) ids_unique.
Proof.
  unfold update_admin_settings, AdminSettingsUpdate.update_data.
  destruct settings as [[a|] [b|]];
    cbn [AdminSettingsUpdate.sham_cash_qr AdminSettingsUpdate.syriatel_qr app];
    cbv zeta;
    first [ apply hoare_ret
          | apply (hoare_bind ids_unique ids_unique ids_unique);
            [ apply hoare_db_upsert_no_id; reflexivity
            | hoare_side | intros ?; apply hoare_ret ] ].
Qed.

Lemma empty_db_ids_unique : ids_unique empty_db.
Proof. intros c. destruct c; reflexivity. Qed.

(** *** Payments keep referring to ad requests *)

Lemma lookup_set_fields_keeps (k : string) (fields : list (string * value))
    (d : doc) :
  keeps_key k fields = true -> set_fields fields d !! k = d !! k.
Proof.
  unfold set_fields, keeps_key. revert d.
  induction fields as [|[k' v] fields IH]; intros d H; [reflexivity|].
  cbn in H. apply andb_true_iff in H as [Hk H]. cbn [fold_left fst snd].
  rewrite (IH _ H). apply lookup_insert_ne.
  apply negb_true_iff, String.eqb_neq in Hk. exact Hk.
Qed.

Lemma update_one_elem_inv (q : query) (fields : list (string * value))
    (c : list doc) (d' : doc) :
  d' ∈ (update_one q fields c).1 ->
  d' ∈ c \/ exists d, d ∈ c /\ d' = set_fields fields d.
Proof.
  induction c as [|e c IH]; cbn; [intros H; inversion H|].
  destruct (matches q e).
  - cbn. intros H. apply elem_of_cons in H as [->|H].
    + right. exists e. split; [apply list_elem_of_here | reflexivity].
    + left. apply list_elem_of_further, H.
  - destruct (update_one q fields c) as [c' n]. cbn in *. intros H.
    apply elem_of_cons in H as [->|H]; [left; apply list_elem_of_here|].
    destruct (IH H) as [Hin|(d & Hd & ->)].
    + left. apply list_elem_of_further, Hin.
    + right. exists d. split; [apply list_elem_of_further, Hd | reflexivity].
Qed.

(** Whether some document answers to [{"id": v}] depends on the [id]
    fields only. *)
Lemma find_one_id_update_one (v : value) (q : query)
    (fields : list (string * value)) (c : list doc) :
  keeps_key "id" fields = true ->
  find_one [("id", CEq v)] c <> None ->
  find_one [("id", CEq v)] (update_one q fields c).1 <> None.
Proof.
  intros Hk. unfold find_one.
  induction c as [|e c IH]; cbn [update_one List.find]; [trivial|].
  destruct (matches q e) eqn:Hq.
  - cbn [fst List.find].
    assert (Hm : matches [("id", CEq v)] (set_fields fields e)
                 = matches [("id", CEq v)] e).
    { unfold matches. cbn [forallb fst snd].
      rewrite (lookup_set_fields_keeps _ _ _ Hk). reflexivity. }
    rewrite Hm.
    destruct (matches [("id", CEq v)] e); [intros _; discriminate | trivial].
  - destruct (update_one q fields c) as [c' n]. cbn [fst List.find] in *.
    destruct (matches [("id", CEq v)] e); [discriminate | exact IH].
Qed.

Lemma no_dangling_same (db db' : Db) :
  payments db' = payments db -> ad_requests db' = ad_requests db ->
  no_dangling db -> no_dangling db'.
Proof. unfold no_dangling. intros -> ->. trivial. Qed.

Lemma no_dangling_ads (db : Db) (l : list doc) :
  (forall v, find_one [("id", CEq v)] (ad_requests db) <> None ->
             find_one [("id", CEq v)] l <> None) ->
  no_dangling db -> no_dangling (set_coll AdRequests l db).
Proof.
  intros Hl Hdb p Hp. destruct (Hdb p Hp) as (v & Hv & Hfind).
  exists v. split; [exact Hv | apply Hl, Hfind].
Qed.

Lemma hoare_nd_insert (c : collection) (d : doc) :
  c <> Payments ->
  hoare no_dangling (db_insert_one c d) no_dangling.
Proof.
  intros Hc db Hdb. unfold state_after, db_insert_one. cbn [fst].
  destruct c; try contradiction;
    try (eapply no_dangling_same; [reflexivity | reflexivity | exact Hdb]).
  apply no_dangling_ads; [|exact Hdb]. intros v Hv. unfold insert_one.
  destruct (find_one [("id", CEq v)] (ad_requests db)) as [a|] eqn:Ha;
    [|contradiction].
  cbn [coll]. rewrite (find_one_app_Some _ _ _ _ Ha). discriminate.
Qed.

Lemma hoare_nd_update (c : collection) (q : query)
    (fields : list (string * value)) :
  keeps_key "id" fields = true ->
  keeps_key "ad_request_id" fields = true ->
  hoare no_dangling (db_update_one c q fields) no_dangling.
Proof.
  intros Hid Href db Hdb. unfold state_after. rewrite db_update_one_run.
  cbn [fst].
  destruct c;
    try (eapply no_dangling_same; [reflexivity | reflexivity | exact Hdb]).
  - apply no_dangling_ads; [|exact Hdb]. intros v.
    apply find_one_id_update_one, Hid.
  - intros p' Hp'. cbn [payments set_coll coll] in Hp'.
    apply update_one_elem_inv in Hp' as [Hp|(p & Hp & ->)].
    + apply Hdb, Hp.
    + destruct (Hdb p Hp) as (v & Hv & Hfind). exists v.
      rewrite (lookup_set_fields_keeps _ _ _ Href). split; assumption.
Qed.

Lemma hoare_nd_upsert (q : query) (fields : list (string * value)) :
  hoare no_dangling (db_update_one_upsert AdminSettingsColl q fields)
    no_dangling.
Proof.
  intros db Hdb. unfold state_after. rewrite db_update_one_upsert_run.
  cbn [fst]. eapply no_dangling_same; [reflexivity | reflexivity | exact Hdb].
Qed.

Ltac nd_write :=
  first [ apply hoare_nd_insert; discriminate
        | apply hoare_nd_update; reflexivity
        | apply hoare_nd_upsert ].

Lemma create_payment_no_dangling (payment_data : PaymentCreate)
    (current_user : Payload) (uuid4 : string) (now : datetime) :
  hoare no_dangling (create_payment payment_data current_user uuid4 now)
    no_dangling.
Proof.
  intros db Hdb. unfold state_after, create_payment, bind, db_find_one.
  cbn [coll].
  destruct (find_one _ (ad_requests db)) as [ad|] eqn:Had; [|exact Hdb].
  destruct (negb (truthy (Some ad))); [exact Hdb|].
  assert (Hstate :
             no_dangling
               (set_coll Payments
                  (insert_one
                     (dict [ ("id", VStr uuid4);
                             ("ad_request_id",
                               VStr (pc_ad_request_id payment_data));
                             ("payment_method",
                               VStr (payment_method_str
                                       (pc_payment_method payment_data)));
                             ("screenshot_url", VStr "");
                             ("status", VStr "pending");
                             ("created_at", VStr (isoformat now));
                             ("verified_at", VNone) ])
                     (payments db)) db)).
  { intros p Hp. cbn [payments set_coll coll ad_requests] in *.
    unfold insert_one in Hp. apply elem_of_app in Hp as [Hp|Hp].
    - apply Hdb, Hp.
    - apply list_elem_of_singleton in Hp as ->.
      exists (VStr (pc_ad_request_id payment_data)).
      split; [reflexivity|].
      apply find_one_Some in Had as [Hin Hm].
      unfold matches in Hm. cbn [forallb fst snd] in Hm.
      apply andb_true_iff in Hm as [Hm _].
      intros Hnone. rewrite find_one_None in Hnone.
      specialize (Hnone ad Hin). unfold matches in Hnone.
      cbn [forallb fst snd] in Hnone. rewrite Hm in Hnone. discriminate. }
  unfold db_insert_one, lift. cbn [coll fst]. exact Hstate.
Qed.

(** *** The settings document and the roles of the users *)



Lemma update_admin_settings_run (settings : AdminSettingsUpdate.t)
    (current_user : Payload) (db : Db) :
  let update_data := AdminSettingsUpdate.update_data settings in
  update_admin_settings settings current_user db
  = (match update_data, admin_settings db with
     | [], _ => db
     | _ :: _, [] => set_coll AdminSettingsColl [set_fields update_data ∅] db
     | _ :: _, d :: l =>
         set_coll AdminSettingsColl (set_fields update_data d :: l) db
     end,
     Ok {| success := true |}).
Proof.
  cbv zeta. unfold update_admin_settings.
  destruct (AdminSettingsUpdate.update_data settings) as [|kv fields];
    [reflexivity|].
  unfold bind. rewrite db_update_one_upsert_run. cbn [coll].
  destruct (admin_settings db) as [|d l]; reflexivity.
Qed.

Lemma update_data_nonempty (settings : AdminSettingsUpdate.t) (d : doc) :
  AdminSettingsUpdate.update_data settings <> [] ->
  set_fields (AdminSettingsUpdate.update_data settings) d <> ∅.
Proof.
  unfold AdminSettingsUpdate.update_data.
  destruct settings as [[a|] [b|]];
    cbn [AdminSettingsUpdate.sham_cash_qr AdminSettingsUpdate.syriatel_qr app
           set_fields fold_left fst snd];
    intros H; try contradiction; apply insert_non_empty.
Qed.

Lemma update_admin_settings_settings_ok (settings : AdminSettingsUpdate.t)
    (current_user : Payload) :
  hoare settings_ok (update_admin_settings settings current_user) settings_ok.
Proof.
  intros db [Hlen Hne]. unfold state_after.
  rewrite update_admin_settings_run. cbn [fst].
  pose proof (update_data_nonempty settings) as Hnonempty.
  destruct (AdminSettingsUpdate.update_data settings) as [|kv fields];
    [split; assumption|].
  destruct (admin_settings db) as [|d l] eqn:Hs;
    unfold settings_ok; cbn [admin_settings set_coll length] in *.
  - split; [lia|]. constructor; [|constructor].
    apply Hnonempty. discriminate.
  - split; [exact Hlen|]. apply Forall_cons in Hne as [_ Hl].
    constructor; [|exact Hl]. apply Hnonempty. discriminate.
Qed.

Lemma register_users_are_clients (JWT_SECRET : string)
    (hmac : string -> string -> Payload -> string)
    (bcrypt_hashpw : string -> string -> string)
    (user_data : UserCreate) (uuid4 salt : string) (now now' : datetime) :
  hoare users_are_clients
    (register JWT_SECRET hmac bcrypt_hashpw user_data uuid4 salt now now')
    users_are_clients.
Proof.
  intros db Hdb. unfold state_after, register, bind, db_find_one.
  cbn [coll].
  destruct (truthy (find_one _ (users db))); [exact Hdb|].
  unfold lift.
  destruct (hash_password _ _ _) as [hashed|?]; [|exact Hdb].
  assert (Hstate :
            users_are_clients
              (set_coll Users
                 (insert_one
                    (dict [ ("id", VStr uuid4);
                            ("email", VStr (uc_email user_data));
                            ("password", VStr hashed);
                            ("name", VStr (uc_name user_data));
                            ("phone", VStr (uc_phone user_data));
                            ("role", VStr "client");
                            ("created_at", VStr (isoformat now)) ])
                    (users db)) db)).
  { intros u Hu. cbn [users set_coll] in Hu. unfold insert_one in Hu.
    apply elem_of_app in Hu as [Hu|Hu]; [apply Hdb, Hu|].
    apply list_elem_of_singleton in Hu as ->. reflexivity. }
  unfold db_insert_one. cbn [coll].
  destruct (create_token _ _ _ _ _ _); cbn [fst]; [|exact Hstate].
  destruct (User.validate _); exact Hstate.
Qed.

Lemma admin_settings_validate_insert (d : doc) (old : AdminSettings.t) :
  AdminSettings.validate d = Ok old ->
  (forall a,
      AdminSettings.validate (<["sham_cash_qr" := VStr a]> d)
      = Ok {| AdminSettings.sham_cash_qr := a;
              AdminSettings.syriatel_qr := AdminSettings.syriatel_qr old |})
  /\ (forall b,
        AdminSettings.validate (<["syriatel_qr" := VStr b]> d)
        = Ok {| AdminSettings.sham_cash_qr := AdminSettings.sham_cash_qr old;
                AdminSettings.syriatel_qr := b |})
  /\ (forall a b,
        AdminSettings.validate
          (<["syriatel_qr" := VStr b]> (<["sham_cash_qr" := VStr a]> d))
        = Ok {| AdminSettings.sham_cash_qr := a;
                AdminSettings.syriatel_qr := b |}).
Proof.
  unfold AdminSettings.validate, rbind, str_field_default. intros H.
  split; [|split]; intros;
    rewrite ?lookup_insert_eq, ?lookup_insert_ne by done;
    rewrite ?lookup_insert_eq; try reflexivity;
    destruct (d !! "sham_cash_qr") as [[?| |?]|]; try discriminate H;
    destruct (d !! "syriatel_qr") as [[?| |?]|]; try discriminate H;
    injection H as <-; reflexivity.
Qed.

Lemma get_admin_settings_outcome (db : Db) :
  settings_ok db ->
  outcome get_admin_settings db
  = match admin_settings db with
    | [] => Ok {| AdminSettings.sham_cash_qr := "";
                  AdminSettings.syriatel_qr := "" |}
    | d :: _ => AdminSettings.validate d
    end.
Proof.
  intros [_ Hne]. unfold outcome.
  destruct (admin_settings db) as [|d l] eqn:Hs.
  - rewrite (get_admin_settings_first _ Hs). reflexivity.
  - apply Forall_cons in Hne as [Hd _].
    rewrite (get_admin_settings_found _ _ _ Hs Hd). reflexivity.
Qed.

End InvariantFacts.

(** ** Properties of the handlers *)

Section Handlers.
Import MongoFacts RunFacts.

Variable JWT_SECRET : string.
Variable hmac : string -> string -> Payload -> string.
Variable bcrypt_hashpw : string -> string -> string.

Lemma with_admin_user_run {A} (credentials : token) (t : datetime)
    (admin : Payload) (handler : Payload -> M A) (db : Db) :
  get_current_user JWT_SECRET hmac credentials t = Ok admin ->
  Jwt.role admin = "admin" ->
  with_admin_user JWT_SECRET hmac credentials t handler db = handler admin db.
Proof.
  intros Hauth Hrole. unfold with_admin_user, bind, lift. rewrite Hauth.
  unfold get_admin_user. rewrite Hrole. reflexivity.
Qed.

Lemma with_current_user_run {A} (credentials : token) (t : datetime)
    (user : Payload) (handler : Payload -> M A) (db : Db) :
  get_current_user JWT_SECRET hmac credentials t = Ok user ->
  with_current_user JWT_SECRET hmac credentials t handler db = handler user db.
Proof.
  intros Hauth. unfold with_current_user, bind, lift. rewrite Hauth.
  reflexivity.
Qed.

(** C1. For every existing payment [p], [verify_payment] called on its
    identifier by an admin reports success; afterwards the identifier
    resolves to [p] with status "verified" and [verified_at] set to the
    timestamp of the call, and the ad request that [p]'s [ad_request_id]
    resolves to has status "paid". *)
Theorem verify_payment_cascade
    (db : Db) (credentials : token) (t now : datetime) (admin : Payload)
    (payment_id : string) (p a : doc) (v : value) :
  get_current_user JWT_SECRET hmac credentials t = Ok admin ->
  Jwt.role admin = "admin" ->
  unique_ids (payments db) = true ->
  p ∈ payments db ->
  p !! "id" = Some (VStr payment_id) ->
  p !! "ad_request_id" = Some v ->
  find_one [("id", CEq v)] (ad_requests db) = Some a ->
  let call := with_admin_user JWT_SECRET hmac credentials t
                (fun current_user => verify_payment payment_id current_user now) in
  let p' := <["verified_at" := VStr (isoformat now)]>
              (<["status" := VStr "verified"]> p) in
  outcome call db = Ok {| success := true |}
  /\ find_one (by_id payment_id) (payments (state_after call db)) = Some p'
  /\ p' !! "status" = Some (VStr "verified")
  /\ p' !! "verified_at" = Some (VStr (isoformat now))
  /\ find_one [("id", CEq v)] (ad_requests (state_after call db))
     = Some (<["status" := VStr "paid"]> a)
  /\ (<["status" := VStr "paid"]> a : doc) !! "status" = Some (VStr "paid").
Proof.
  intros Hauth Hrole Hu Hin Hid Hv Ha call p'.
  assert (Hp : find_one (by_id payment_id) (payments db) = Some p).
  { apply find_one_unique; [assumption..|]. apply matches_by_id_str, Hid. }
  unfold outcome, state_after, call.
  rewrite (with_admin_user_run _ _ _ _ _ Hauth Hrole).
  rewrite (verify_payment_run _ _ _ _ _ _ Hp Hv). cbn [fst snd].
  split; [reflexivity|]. split.
  { cbn [payments set_coll coll].
    apply (find_one_update_one (by_id payment_id)
             [("status", VStr "verified");
              ("verified_at", VStr (isoformat now))] _ _ Hp).
    cbn [set_fields fold_left fst snd].
    apply matches_by_id_str. rewrite !lookup_insert_ne by done. exact Hid. }
  split; [subst p'; rewrite lookup_insert_ne by done;
          apply lookup_insert_eq|].
  split; [apply lookup_insert_eq|]. split; [|apply lookup_insert_eq].
  cbn [ad_requests set_coll coll].
  apply (find_one_update_one [("id", CEq v)] [("status", VStr "paid")]
           _ _ Ha).
  cbn [set_fields fold_left fst snd].
  apply find_one_Some in Ha as [_ Hm]. unfold matches in *. cbn in *.
  rewrite lookup_insert_ne by done. exact Hm.
Qed.

(** C10. For an existing payment [p] whose [ad_request_id] resolves to no ad
    request, [verify_payment] still reports success and marks [p]
    "verified" with a timestamp; the ad-request collection is left as it
    was. *)
Theorem verify_payment_dangling
    (db : Db) (credentials : token) (t now : datetime) (admin : Payload)
    (payment_id : string) (p : doc) (v : value) :
  get_current_user JWT_SECRET hmac credentials t = Ok admin ->
  Jwt.role admin = "admin" ->
  unique_ids (payments db) = true ->
  p ∈ payments db ->
  p !! "id" = Some (VStr payment_id) ->
  p !! "ad_request_id" = Some v ->
  find_one [("id", CEq v)] (ad_requests db) = None ->
  let call := with_admin_user JWT_SECRET hmac credentials t
                (fun current_user => verify_payment payment_id current_user now) in
  let p' := <["verified_at" := VStr (isoformat now)]>
              (<["status" := VStr "verified"]> p) in
  outcome call db = Ok {| success := true |}
  /\ find_one (by_id payment_id) (payments (state_after call db)) = Some p'
  /\ p' !! "status" = Some (VStr "verified")
  /\ p' !! "verified_at" = Some (VStr (isoformat now))
  /\ ad_requests (state_after call db) = ad_requests db.
Proof.
  intros Hauth Hrole Hu Hin Hid Hv Ha call p'.
  assert (Hp : find_one (by_id payment_id) (payments db) = Some p).
  { apply find_one_unique; [assumption..|]. apply matches_by_id_str, Hid. }
  unfold outcome, state_after, call.
  rewrite (with_admin_user_run _ _ _ _ _ Hauth Hrole).
  rewrite (verify_payment_run _ _ _ _ _ _ Hp Hv). cbn [fst snd].
  split; [reflexivity|]. split.
  { cbn [payments set_coll coll].
    apply (find_one_update_one (by_id payment_id)
             [("status", VStr "verified");
              ("verified_at", VStr (isoformat now))] _ _ Hp).
    cbn [set_fields fold_left fst snd].
    apply matches_by_id_str. rewrite !lookup_insert_ne by done. exact Hid. }
  split; [subst p'; rewrite lookup_insert_ne by done;
          apply lookup_insert_eq|].
  split; [apply lookup_insert_eq|].
  cbn [ad_requests set_coll coll]. rewrite (update_one_None _ _ _ Ha).
  reflexivity.
Qed.

(** C5. For every existing payment [p] and every authenticated caller,
    [upload_payment_screenshot] on [p]'s identifier succeeds and sets
    [p]'s [screenshot_url] to the URL derived from the file identifier;
    the caller plays no part in the outcome. *)
Theorem upload_payment_screenshot_unchecked
    (db : Db) (credentials : token) (t : datetime) (caller : Payload)
    (payment_id file_id : string) (p : doc) :
  get_current_user JWT_SECRET hmac credentials t = Ok caller ->
  unique_ids (payments db) = true ->
  p ∈ payments db ->
  p !! "id" = Some (VStr payment_id) ->
  let call := with_current_user JWT_SECRET hmac credentials t
                (upload_payment_screenshot payment_id file_id) in
  let p' := <["screenshot_url" := VStr (file_url file_id)]> p in
  outcome call db
  = Ok {| screenshot_success := true; screenshot_url_ := file_url file_id |}
  /\ find_one (by_id payment_id) (payments (state_after call db)) = Some p'
  /\ p' !! "screenshot_url" = Some (VStr (file_url file_id))
  /\ (forall other : Payload,
        upload_payment_screenshot payment_id file_id other db = call db).
Proof.
  intros Hauth Hu Hin Hid call p'.
  assert (Hp : find_one (by_id payment_id) (payments db) = Some p).
  { apply find_one_unique; [assumption..|]. apply matches_by_id_str, Hid. }
  unfold outcome, state_after, call.
  rewrite (with_current_user_run _ _ _ _ _ Hauth).
  rewrite (upload_payment_screenshot_run _ _ _ _ _ Hp). cbn [fst snd].
  split; [reflexivity|]. split.
  { cbn [payments set_coll coll].
    apply (find_one_update_one (by_id payment_id)
             [("screenshot_url", VStr (file_url file_id))] _ _ Hp).
    cbn [set_fields fold_left fst snd].
    apply matches_by_id_str. rewrite lookup_insert_ne by done. exact Hid. }
  split; [apply lookup_insert_eq|].
  intros other. apply (upload_payment_screenshot_run _ _ _ _ _ Hp).
Qed.

(** C6. [create_subscription] stores and returns a subscription whose
    [start_date] is the clock reading taken at creation, whose [end_date]
    is that reading plus thirty days, and whose status is "pending"; an
    admin's [verify_subscription] on an existing subscription sets its
    status to "active" and changes no other field, [end_date] included. *)
Theorem subscription_window_fixed_at_creation :
  (forall (db : Db) (credentials : token) (t : datetime) (caller : Payload)
          (method : payment_method_t) (uuid4 : string) (now now' : datetime)
          (user : doc) (name email : string),
      get_current_user JWT_SECRET hmac credentials t = Ok caller ->
      find_one (by_id (Jwt.user_id caller)) (users db) = Some user ->
      user !! "name" = Some (VStr name) ->
      user !! "email" = Some (VStr email) ->
      clock_ok now ->
      let call := with_current_user JWT_SECRET hmac credentials t
                    (fun current_user =>
                       create_subscription method current_user uuid4
                         now now') in
      exists (sub : Subscription.t) (stored : doc),
        outcome call db = Ok sub
        /\ Subscription.start_date sub = isoformat now
        /\ Subscription.end_date sub = isoformat (now + timedelta_days 30)
        /\ Subscription.status sub = "pending"
        /\ Subscription.created_at sub = isoformat now'
        /\ subscriptions (state_after call db) = subscriptions db ++ [stored]
        /\ Subscription.validate stored = Ok sub)
  /\ (forall (db : Db) (credentials : token) (t : datetime) (admin : Payload)
             (sub_id : string) (s : doc),
      get_current_user JWT_SECRET hmac credentials t = Ok admin ->
      Jwt.role admin = "admin" ->
      unique_ids (subscriptions db) = true ->
      s ∈ subscriptions db ->
      s !! "id" = Some (VStr sub_id) ->
      let call := with_admin_user JWT_SECRET hmac credentials t
                    (verify_subscription sub_id) in
      let s' := <["status" := VStr "active"]> s in
      outcome call db = Ok {| success := true |}
      /\ find_one (by_id sub_id) (subscriptions (state_after call db))
         = Some s'
      /\ s' !! "status" = Some (VStr "active")
      /\ (forall k : string, k <> "status" -> s' !! k = s !! k)
      /\ s' !! "end_date" = s !! "end_date").
Proof.
  split.
  - intros db credentials t caller method uuid4 now now' user name email
      Hauth Hu Hn He Hclock call.
    unfold outcome, state_after, call.
    rewrite (with_current_user_run _ _ _ _ _ Hauth).
    rewrite (create_subscription_run _ _ _ _ _ _ _ _ _ Hu Hn He Hclock).
    rewrite subscription_validate_dict. cbn [fst snd].
    eexists _, _. split; [reflexivity|].
    repeat (split; [reflexivity|]). apply subscription_validate_dict.
  - intros db credentials t admin sub_id s Hauth Hrole Hu Hin Hid call s'.
    assert (Hs : find_one (by_id sub_id) (subscriptions db) = Some s).
    { apply find_one_unique; [assumption..|]. apply matches_by_id_str, Hid. }
    unfold outcome, state_after, call.
    rewrite (with_admin_user_run _ _ _ _ _ Hauth Hrole).
    rewrite (verify_subscription_run _ _ _ _ Hs). cbn [fst snd].
    split; [reflexivity|]. split.
    { cbn [subscriptions set_coll coll].
      apply (find_one_update_one (by_id sub_id) [("status", VStr "active")]
               _ _ Hs).
      cbn [set_fields fold_left fst snd].
      apply matches_by_id_str. rewrite lookup_insert_ne by done. exact Hid. }
    split; [apply lookup_insert_eq|]. split.
    + intros k Hk. apply lookup_insert_ne. congruence.
    + apply lookup_insert_ne. done.
Qed.

(** C7. When the settings collection is empty, [get_admin_settings]
    returns the all-empty settings and stores them as the only document; a
    later fetch returns the same settings and leaves the database as it
    is, however often it is repeated. *)
Theorem get_admin_settings_lazy_singleton (db : Db) :
  admin_settings db = [] ->
  let empty_settings := {| AdminSettings.sham_cash_qr := "";
                           AdminSettings.syriatel_qr := "" |} in
  let db' := state_after get_admin_settings db in
  outcome get_admin_settings db = Ok empty_settings
  /\ admin_settings db' = [default_settings]
  /\ outcome get_admin_settings db' = Ok empty_settings
  /\ state_after get_admin_settings db' = db'
  /\ (forall n : nat, Nat.iter n (state_after get_admin_settings) db' = db')
  /\ length (admin_settings db') = 1%nat.
Proof.
  intros Hempty empty_settings db'.
  assert (Hdb' : db' = set_coll AdminSettingsColl [default_settings] db).
  { unfold db', state_after. rewrite (get_admin_settings_first _ Hempty).
    reflexivity. }
  assert (Hagain : get_admin_settings db' = (db', Ok empty_settings)).
  { apply (get_admin_settings_found db' default_settings []).
    - rewrite Hdb'. reflexivity.
    - apply default_settings_nonempty. }
  unfold outcome. rewrite (get_admin_settings_first _ Hempty). cbn [snd].
  split; [reflexivity|]. split; [rewrite Hdb'; reflexivity|].
  rewrite Hagain. split; [reflexivity|].
  assert (Hfix : state_after get_admin_settings db' = db').
  { unfold state_after. rewrite Hagain. reflexivity. }
  split; [exact Hfix|]. split; [|rewrite Hdb'; reflexivity].
  induction n as [|n IH]; [reflexivity|].
  rewrite Nat.iter_succ, IH. exact Hfix.
Qed.

(** C8. When [upload_file] stores the bytes [contents] under an
    identifier no stored file answers to, [get_file] on that identifier
    returns exactly [contents], with the stored content type as media
    type; [get_file] on an identifier no file answers to is a 404. *)
Theorem upload_then_get_file
    (db : Db) (credentials : token) (t : datetime) (uploader : Payload)
    (contents : list byte) (filename content_type : option string)
    (uuid4 : string) (now : datetime) :
  get_current_user JWT_SECRET hmac credentials t = Ok uploader ->
  find_one (by_id uuid4) (files db) = None ->
  let upload := with_current_user JWT_SECRET hmac credentials t
                  (fun current_user =>
                     upload_file contents filename content_type current_user
                       uuid4 now) in
  let db' := state_after upload db in
  outcome upload db = Ok {| file_id_ := uuid4; url_ := file_url uuid4 |}
  /\ (exists file_doc,
        find_one (by_id uuid4) (files db') = Some file_doc
        /\ file_doc !! "content_type" = Some (optional_str content_type))
  /\ get_file uuid4 db'
     = (db', Ok {| content := contents;
                   media_type := optional_str content_type |})
  /\ (forall (db0 : Db) (file_id : string),
        find_one (by_id file_id) (files db0) = None ->
        get_file file_id db0
        = (db0, Raise (HTTPException 404 "File not found"))).
Proof.
  intros Hauth Hfresh upload db'.
  pose proof (file_doc_lookups uuid4 (b64encode contents)
                (Jwt.user_id uploader) (isoformat now)
                (optional_str filename) (optional_str content_type))
    as (Hid & Hdata & Hct).
  set (file_doc := dict _) in Hid, Hdata, Hct.
  assert (Hrun : upload db
                 = (set_coll Files (files db ++ [file_doc]) db,
                    Ok {| file_id_ := uuid4; url_ := file_url uuid4 |})).
  { unfold upload. rewrite (with_current_user_run _ _ _ _ _ Hauth).
    reflexivity. }
  assert (Hfound : find_one (by_id uuid4) (files db') = Some file_doc).
  { unfold db', state_after. rewrite Hrun. cbn [fst files set_coll].
    rewrite (find_one_app_None _ _ _ Hfresh). unfold find_one.
    cbn [List.find]. rewrite (matches_by_id_str _ _ Hid). reflexivity. }
  unfold outcome. rewrite Hrun. cbn [snd].
  split; [reflexivity|]. split; [eauto|]. split.
  - rewrite (get_file_found _ _ _ _ Hfound Hdata).
    rewrite Base64Facts.b64decode_b64encode, Hct. reflexivity.
  - intros db0 file_id H. apply get_file_missing, H.
Qed.

Lemma get_current_user_encode (payload : Payload) (t : datetime) :
  t < Jwt.exp payload * SECOND ->
  get_current_user JWT_SECRET hmac
    (Jwt.encode hmac payload JWT_SECRET JWT_ALGORITHM) t = Ok payload.
Proof.
  intros Ht. unfold get_current_user, Jwt.encode, Jwt.decode.
  cbn [existsb]. rewrite !String.eqb_refl. cbn [orb negb].
  destruct (Z.leb_spec (Jwt.exp payload * SECOND) t); [lia | reflexivity].
Qed.

Lemma get_current_user_expired (alg signature : string) (payload : Payload)
    (t : datetime) :
  Jwt.exp payload * SECOND <= t ->
  get_current_user JWT_SECRET hmac (Signed alg payload signature) t
  = Raise (HTTPException 401 "Invalid authentication").
Proof.
  intros Ht. unfold get_current_user, Jwt.decode.
  destruct (negb _); [reflexivity|]. destruct (negb _); [reflexivity|].
  destruct (Z.leb_spec (Jwt.exp payload * SECOND) t); [reflexivity | lia].
Qed.

(** C3. A token made by [create_token] decodes, until its expiry, to a
    payload with the same [user_id], [email] and [role]; from its expiry
    on it is answered with a 401, and so is every expired, malformed,
    wrongly signed or wrongly typed token. *)
Theorem token_round_trip
    (user_id email role : string) (now : datetime) :
  clock_ok now ->
  let expiry := timegm (now + timedelta_days 30) in
  let unauthorized := Raise (HTTPException 401 "Invalid authentication") in
  exists tok : token,
    create_token JWT_SECRET hmac user_id email role now = Ok tok
    /\ (forall t : datetime, t < expiry * SECOND ->
          exists payload : Payload,
            get_current_user JWT_SECRET hmac tok t = Ok payload
            /\ Jwt.user_id payload = user_id
            /\ Jwt.email payload = email
            /\ Jwt.role payload = role
            /\ Jwt.exp payload = expiry)
    /\ (forall t : datetime, expiry * SECOND <= t ->
          get_current_user JWT_SECRET hmac tok t = unauthorized)
    /\ (forall t : datetime, t + SECOND <= now + timedelta_days 30 ->
          t < expiry * SECOND)
    /\ (forall t : datetime, now + timedelta_days 30 <= t ->
          expiry * SECOND <= t)
    /\ (forall (alg signature : string) (payload : Payload) (t : datetime),
          Jwt.exp payload * SECOND <= t ->
          get_current_user JWT_SECRET hmac (Signed alg payload signature) t
          = unauthorized)
    /\ (forall (raw : string) (t : datetime),
          get_current_user JWT_SECRET hmac (Malformed raw) t = unauthorized)
    /\ (forall (alg signature : string) (payload : Payload) (t : datetime),
          signature <> hmac JWT_SECRET alg payload ->
          get_current_user JWT_SECRET hmac (Signed alg payload signature) t
          = unauthorized)
    /\ (forall (alg signature : string) (payload : Payload) (t : datetime),
          alg <> JWT_ALGORITHM ->
          get_current_user JWT_SECRET hmac (Signed alg payload signature) t
          = unauthorized).
Proof.
  intros Hclock expiry unauthorized.
  pose proof (timegm_bounds (now + timedelta_days 30)) as Hb.
  fold expiry in Hb.
  eexists. split.
  { unfold create_token. unfold clock_ok in Hclock. rewrite Hclock.
    reflexivity. }
  split.
  { intros t Ht. eexists. split.
    - apply get_current_user_encode. exact Ht.
    - repeat split; reflexivity. }
  split; [intros t Ht; apply get_current_user_expired; exact Ht|].
  split; [intros t Ht; lia|]. split; [intros t Ht; lia|].
  split; [intros alg signature payload t Ht;
          apply get_current_user_expired; exact Ht|].
  split; [reflexivity|]. split.
  - intros alg signature payload t Hsig.
    unfold get_current_user, Jwt.decode.
    destruct (negb (existsb _ _)); [reflexivity|].
    destruct (String.eqb_spec signature (hmac JWT_SECRET alg payload));
      [contradiction | reflexivity].
  - intros alg signature payload t Halg.
    unfold get_current_user, Jwt.decode. cbn [existsb].
    destruct (String.eqb_spec alg JWT_ALGORITHM); [contradiction|].
    reflexivity.
Qed.

Lemma register_taken (user_data : UserCreate) (uuid4 salt : string)
    (now now' : datetime) (db : Db) (d : doc) :
  find_one [("email", CEq (VStr (uc_email user_data)))] (users db) = Some d ->
  register JWT_SECRET hmac bcrypt_hashpw user_data uuid4 salt now now' db
  = (db, Raise (HTTPException 400 "Email already registered")).
Proof.
  intros H. unfold register, bind, db_find_one. cbn [coll]. rewrite H.
  rewrite (find_one_truthy _ _ _ _ _ H). reflexivity.
Qed.

(** C2. [register] with an email some stored user already has fails with a
    400 and leaves the database as it was; with an email no stored user
    answers to and a password of at most 72 bytes, the longest that
    [bcrypt.hashpw] takes, it stores a user with role "client" and returns
    a token signed for that user together with the user record, which has
    no password field. *)
Theorem register_email_once
    (db : Db) (user_data : UserCreate) (uuid4 salt : string)
    (now now' : datetime) :
  let call := register JWT_SECRET hmac bcrypt_hashpw user_data uuid4 salt
                now now' in
  let email := uc_email user_data in
  (forall d : doc,
      d ∈ users db -> d !! "email" = Some (VStr email) ->
      outcome call db = Raise (HTTPException 400 "Email already registered")
      /\ http_status (HTTPException 400 "Email already registered") = 400
      /\ state_after call db = db)
  /\ ((forall d : doc,
          d ∈ users db -> matches [("email", CEq (VStr email))] d = false) ->
      (String.length (uc_password user_data) <= 72)%nat ->
      clock_ok now' ->
      let claims := {| Jwt.user_id := uuid4; Jwt.email := email;
                       Jwt.role := "client";
                       Jwt.exp := timegm (now' + timedelta_days 30) |} in
      let user := {| User.id := uuid4; User.email := email;
                     User.name := uc_name user_data;
                     User.phone := uc_phone user_data;
                     User.role := "client";
                     User.created_at := isoformat now |} in
      outcome call db
      = Ok {| token_ := Jwt.encode hmac claims JWT_SECRET JWT_ALGORITHM;
              user_ := user |}
      /\ (forall t : datetime, t < Jwt.exp claims * SECOND ->
            get_current_user JWT_SECRET hmac
              (Jwt.encode hmac claims JWT_SECRET JWT_ALGORITHM) t
            = Ok claims)
      /\ exists stored : doc,
           users (state_after call db) = users db ++ [stored]
           /\ stored !! "email" = Some (VStr email)
           /\ stored !! "role" = Some (VStr "client")
           /\ stored !! "password"
              = Some (VStr (bcrypt_hashpw (uc_password user_data) salt))
           /\ User.validate (delete "password" stored) = Ok user).
Proof.
  intros call email. split.
  - intros d Hin Hd.
    destruct (find_one_exists [("email", CEq (VStr email))] (users db) d Hin)
      as [d' Hd'].
    { unfold matches. cbn. rewrite Hd, String.eqb_refl. reflexivity. }
    unfold outcome, state_after, call.
    rewrite (register_taken _ _ _ _ _ _ _ Hd'). repeat split.
  - intros Hnone Hshort Hclock claims user.
    apply find_one_None in Hnone.
    pose proof (user_validate_dict uuid4 email
                  (bcrypt_hashpw (uc_password user_data) salt)
                  (uc_name user_data) (uc_phone user_data) "client"
                  (isoformat now))
      as (Hval & _ & _ & Hpw & Hem & Hrole).
    set (user_dict := dict _) in Hval, Hpw, Hem, Hrole.
    assert (Hrun : call db
                   = (set_coll Users (users db ++ [user_dict]) db,
                      Ok {| token_ := Jwt.encode hmac claims JWT_SECRET
                                        JWT_ALGORITHM;
                            user_ := user |})).
    { unfold call, register, bind, db_find_one. cbn [coll].
      fold email. rewrite Hnone. cbn [truthy].
      unfold lift. rewrite (hash_password_short _ _ _ Hshort).
      unfold db_insert_one, create_token.
      unfold clock_ok in Hclock. rewrite Hclock.
      fold user_dict. rewrite Hval. reflexivity. }
    unfold outcome, state_after. rewrite Hrun. cbn [fst snd].
    split; [reflexivity|]. split.
    { intros t Ht. apply get_current_user_encode. exact Ht. }
    exists user_dict. cbn [users set_coll]. repeat split; assumption.
Qed.

(** C9. Each list operation returns at most 1000 records, the validated
    newest 1000 of the documents matching its query: they come newest
    first, no document left out is newer than one returned, and the
    documents left out raise no error: [get_ad_requests], [get_payments]
    (for an admin, and for a client over the identifiers of their first
    1000 ad requests), [get_my_subscriptions] and
    [get_all_subscriptions]. *)
Theorem list_operations_capped (db : Db) (current_user : Payload) :
  returns_newest_1000 (get_ad_requests current_user) AdRequest.validate
    (if String.eqb (Jwt.role current_user) "admin" then []
     else owned_by current_user)
    (ad_requests db) db
  /\ (Jwt.role current_user = "admin" ->
      returns_newest_1000 (get_payments current_user) Payment.validate
        [] (payments db) db)
  /\ (Jwt.role current_user <> "admin" ->
      forall ad_ids : list value,
        rmap (item "id")
          (map project_id
             (to_list 1000 (find (owned_by current_user) (ad_requests db))))
        = Ok ad_ids ->
        returns_newest_1000 (get_payments current_user) Payment.validate
          [("ad_request_id", CIn ad_ids)] (payments db) db)
  /\ returns_newest_1000 (get_my_subscriptions current_user)
       Subscription.validate (owned_by current_user) (subscriptions db) db
  /\ returns_newest_1000 (get_all_subscriptions current_user)
       Subscription.validate [] (subscriptions db) db.
Proof.
  split; [|split; [|split; [|split]]].
  - apply lists_newest_1000_newest, get_ad_requests_lists.
  - intros Hadmin. apply lists_newest_1000_newest.
    unfold get_payments. rewrite Hadmin. cbn [String.eqb].
    apply (db_find_then_validate Payments).
  - intros Hclient ad_ids Hids.
    apply lists_newest_1000_newest,
      (get_payments_client_lists _ _ _ Hclient Hids).
  - apply lists_newest_1000_newest,
      (db_find_then_validate Subscriptions).
  - apply lists_newest_1000_newest,
      (db_find_then_validate Subscriptions).
Qed.

(** C4, as the code has it.  For a valid stored ad request [a] of client
    [owner]: the owner's [get_ad_request] returns it, and the owner's list
    shows it when at most 1000 of the owner's ad requests are as new as it
    (and these documents validate); another client's [get_ad_request] is
    the same 404 as for an identifier nobody has, and their list never
    shows it; an admin's [get_ad_request] returns it, and the admin's list
    shows it when at most 1000 of all ad requests are as new as it. *)
Theorem ad_request_visibility
    (db : Db) (a : doc) (record : AdRequest.t) (ad_id : string)
    (owner other admin : Payload) :
  unique_ids (ad_requests db) = true ->
  a ∈ ad_requests db ->
  a !! "id" = Some (VStr ad_id) ->
  a !! "client_id" = Some (VStr (Jwt.user_id owner)) ->
  AdRequest.validate a = Ok record ->
  Jwt.role owner <> "admin" ->
  Jwt.role other <> "admin" ->
  Jwt.user_id other <> Jwt.user_id owner ->
  Jwt.role admin = "admin" ->
  let not_found := Raise (HTTPException 404 "Ad request not found") in
  let valid := fun d => is_ok (AdRequest.validate d) in
  get_ad_request ad_id owner db = (db, Ok record)
  /\ (forallb valid (find (owned_by owner) (ad_requests db)) = true ->
      (as_new_as "created_at" a (find (owned_by owner) (ad_requests db))
       <= 1000)%nat ->
      exists l, outcome (get_ad_requests owner) db = Ok l /\ record ∈ l)
  /\ get_ad_request ad_id other db = (db, not_found)
  /\ (forall missing : string,
        find_one (by_id missing) (ad_requests db) = None ->
        get_ad_request missing other db = (db, not_found))
  /\ (forall l, outcome (get_ad_requests other) db = Ok l ->
        (record ∉ l) /\ Forall (fun r => AdRequest.id r <> ad_id) l)
  /\ get_ad_request ad_id admin db = (db, Ok record)
  /\ (forallb valid (find [] (ad_requests db)) = true ->
      (as_new_as "created_at" a (find [] (ad_requests db)) <= 1000)%nat ->
      exists l, outcome (get_ad_requests admin) db = Ok l /\ record ∈ l).
Proof.
  intros Hu Ha Hid Hclient Hvalid Howner Hother Hne Hadmin not_found valid.
  pose proof (matches_by_id_str _ _ Hid) as Hm.
  pose proof (find_one_unique _ _ _ Hu Ha Hm) as Hfind.
  apply String.eqb_neq in Howner, Hother.
  pose proof (get_ad_requests_lists db owner) as Hlo.
  pose proof (get_ad_requests_lists db other) as Hlt.
  pose proof (get_ad_requests_lists db admin) as Hla.
  rewrite Howner in Hlo. rewrite Hother in Hlt.
  rewrite Hadmin in Hla. cbn [String.eqb Ascii.eqb Bool.eqb] in Hla.
  assert (Hmine : matches (owned_by owner) a = true).
  { rewrite (matches_owned_by _ _ _ Hclient). apply String.eqb_refl. }
  assert (Htheirs : matches (owned_by other) a = false).
  { rewrite (matches_owned_by _ _ _ Hclient). apply String.eqb_neq, Hne. }
  split.
  { rewrite (get_ad_request_found ad_id owner db a "id" ad_id
               (owned_by owner)).
    - rewrite Hvalid. reflexivity.
    - cbv zeta. rewrite Howner. reflexivity.
    - apply (find_one_conj (by_id ad_id)); assumption. }
  split.
  { intros Hall Hcount.
    apply (lists_newest_1000_shows _ _ _ _ _ a record Hlo); assumption. }
  split.
  { apply get_ad_request_not_found. cbv zeta. rewrite Hother. cbn [negb].
    apply (find_one_conj_other _ _ _ a); assumption. }
  split.
  { intros missing Hmissing. apply get_ad_request_not_found. cbv zeta.
    rewrite Hother. cbn [negb]. apply find_one_conj_None, Hmissing. }
  split.
  { intros l Hl.
    assert (Hids : Forall (fun r => AdRequest.id r <> ad_id) l).
    { apply Forall_forall. intros r Hr Heq.
      destruct (lists_newest_1000_source _ _ _ _ _ _ _ Hlt Hl Hr)
        as (d & Hd & Hv).
      apply SortFacts.to_list_subseteq in Hd as [Hd Hdm].
      apply ad_request_validate_fields in Hv as (Hdid & _).
      rewrite Heq in Hdid.
      pose proof (find_one_unique _ _ _ Hu Hd (matches_by_id_str _ _ Hdid))
        as Hfind'.
      assert (d = a) as -> by congruence. congruence. }
    split; [|exact Hids].
    intros Hr. rewrite Forall_forall in Hids. apply (Hids _ Hr).
    apply ad_request_validate_fields in Hvalid as (Hrid & _). congruence. }
  split.
  { rewrite (get_ad_request_found ad_id admin db a "id" ad_id []).
    - rewrite Hvalid. reflexivity.
    - cbv zeta. rewrite Hadmin. reflexivity.
    - exact Hfind. }
  intros Hall Hcount.
  apply (lists_newest_1000_shows _ _ _ _ _ a record Hla);
    [assumption.. | reflexivity | assumption | assumption].
Qed.

End Handlers.

(** * Further properties of the handlers *)

Section Further.
Import MongoFacts RunFacts InvariantFacts.

Variable JWT_SECRET : string.
Variable hmac : string -> string -> Payload -> string.
Variable bcrypt_hashpw : string -> string -> string.
Variable bcrypt_checkpw : string -> string -> result bool.

(** X1. The dependencies guard the handler body: without a valid token
    the request ends in a 401, with a valid token of a non-admin an
    admin-only request ends in a 403, and in both cases the body does not
    run, so the database is as it was; an admin's request is the body
    itself. *)
Theorem dependencies_guard_handlers {A : Type}
    (credentials : token) (t : datetime) (handler : Payload -> M A) (db : Db) :
  (forall e : exn,
      get_current_user JWT_SECRET hmac credentials t = Raise e ->
      e = HTTPException 401 "Invalid authentication"
      /\ with_current_user JWT_SECRET hmac credentials t handler db
         = (db, Raise e)
      /\ with_admin_user JWT_SECRET hmac credentials t handler db
         = (db, Raise e))
  /\ (forall user : Payload,
        get_current_user JWT_SECRET hmac credentials t = Ok user ->
        with_current_user JWT_SECRET hmac credentials t handler db
        = handler user db
        /\ (Jwt.role user <> "admin" ->
            with_admin_user JWT_SECRET hmac credentials t handler db
            = (db, Raise (HTTPException 403 "Admin access required")))
        /\ (Jwt.role user = "admin" ->
            with_admin_user JWT_SECRET hmac credentials t handler db
            = handler user db)).
Proof.
  split.
  - intros e He. unfold with_current_user, with_admin_user, bind, lift.
    rewrite He. split; [|split; reflexivity].
    unfold get_current_user in He.
    destruct (Jwt.decode _ _ _ _ _); [|discriminate].
    injection He as <-. reflexivity.
  - intros user Hu. split; [apply with_current_user_run, Hu|]. split.
    + intros Hrole. unfold with_admin_user, bind, lift. rewrite Hu.
      unfold get_admin_user. apply String.eqb_neq in Hrole. rewrite Hrole.
      reflexivity.
    + intros Hrole. apply with_admin_user_run; assumption.
Qed.

(** X2. A request that names an identifier no document answers to ends in
    a 404 and changes nothing: [add_photos], [update_ad_status],
    [upload_payment_screenshot], [verify_payment],
    [upload_subscription_screenshot] and [verify_subscription]. *)
Theorem missing_target_is_404
    (db : Db) (missing : string) (current_user : Payload) :
  (find_one (by_id missing) (ad_requests db) = None ->
   (forall file_ids,
       add_photos missing file_ids current_user db
       = (db, Raise (HTTPException 404 "Ad request not found")))
   /\ (forall status,
         update_ad_status missing status current_user db
         = (db, Raise (HTTPException 404 "Ad request not found"))))
  /\ (find_one (by_id missing) (payments db) = None ->
      (forall file_id,
          upload_payment_screenshot missing file_id current_user db
          = (db, Raise (HTTPException 404 "Payment not found")))
      /\ (forall now,
            verify_payment missing current_user now db
            = (db, Raise (HTTPException 404 "Payment not found"))))
  /\ (find_one (by_id missing) (subscriptions db) = None ->
      (forall file_id,
          upload_subscription_screenshot missing file_id current_user db
          = (db, Raise (HTTPException 404 "Subscription not found")))
      /\ verify_subscription missing current_user db
         = (db, Raise (HTTPException 404 "Subscription not found"))).
Proof.
  split; [|split].
  - intros H. split.
    + intros file_ids. unfold add_photos, bind, db_find_one. cbn [coll].
      pose proof (find_one_conj_None (by_id missing)
                    (owned_by current_user) _ H) as H'.
      unfold by_id, owned_by in H'. cbn [app] in H'. rewrite H'.
      reflexivity.
    + intros status. unfold update_ad_status, bind.
      rewrite db_update_one_run. fold (by_id missing). cbn [coll].
      rewrite (update_one_None _ _ _ H). cbn. destruct db; reflexivity.
  - intros H. split.
    + intros file_id. unfold upload_payment_screenshot, bind.
      rewrite db_update_one_run. fold (by_id missing). cbn [coll].
      rewrite (update_one_None _ _ _ H). cbn. destruct db; reflexivity.
    + intros now. apply verify_payment_missing, H.
  - intros H. split.
    + intros file_id. unfold upload_subscription_screenshot, bind.
      rewrite db_update_one_run. cbn [coll].
      pose proof (find_one_conj_None (by_id missing)
                    (owned_by current_user) _ H) as H'.
      unfold by_id, owned_by in H'. cbn [app] in H'.
      rewrite (update_one_None _ _ _ H').
      cbn. destruct db; reflexivity.
    + unfold verify_subscription, bind.
      rewrite db_update_one_run. fold (by_id missing). cbn [coll].
      rewrite (update_one_None _ _ _ H). cbn. destruct db; reflexivity.
Qed.

(** X3. [add_photos] is for the owner alone, whatever the caller's role:
    for the owner it replaces the photo list of the ad request by the URLs
    of the given file identifiers (none of which is looked up) and changes
    no other field; for anyone else it is a 404 that changes nothing. *)
Theorem add_photos_owner_replaces
    (db : Db) (a : doc) (ad_id owner : string) (file_ids : list string)
    (caller : Payload) :
  unique_ids (ad_requests db) = true ->
  a ∈ ad_requests db ->
  a !! "id" = Some (VStr ad_id) ->
  a !! "client_id" = Some (VStr owner) ->
  let call := add_photos ad_id file_ids caller in
  let a' := <["photos" := VList (map file_url file_ids)]> a in
  (Jwt.user_id caller = owner ->
   outcome call db
   = Ok {| photos_success := true; photos_ := map file_url file_ids |}
   /\ find_one (by_id ad_id) (ad_requests (state_after call db)) = Some a'
   /\ a' !! "photos" = Some (VList (map file_url file_ids))
   /\ (forall k : string, k <> "photos" -> a' !! k = a !! k))
  /\ (Jwt.user_id caller <> owner ->
      call db = (db, Raise (HTTPException 404 "Ad request not found"))).
Proof.
  intros Hu Ha Hid Hclient call a'.
  pose proof (matches_by_id_str _ _ Hid) as Hm.
  pose proof (find_one_unique _ _ _ Hu Ha Hm) as Hfind.
  pose proof (matches_owned_by caller _ _ Hclient) as Hown.
  split.
  - intros Howner. rewrite Howner, String.eqb_refl in Hown.
    pose proof (find_one_conj _ _ _ _ Hfind Hown) as Hboth.
    unfold by_id, owned_by in Hboth. cbn [app] in Hboth.
    assert (Hrun : call db
                   = (set_coll AdRequests
                        (update_one (by_id ad_id)
                           [("photos", VList (map file_url file_ids))]
                           (ad_requests db)).1 db,
                      Ok {| photos_success := true;
                            photos_ := map file_url file_ids |})).
    { unfold call, add_photos, bind, db_find_one. cbn [coll].
      rewrite Hboth, (find_one_truthy _ _ _ _ _ Hboth). cbn [negb].
      fold (by_id ad_id). rewrite db_update_one_run. reflexivity. }
    unfold outcome, state_after. rewrite Hrun. cbn [fst snd].
    split; [reflexivity|]. split.
    { cbn [ad_requests set_coll].
      apply (updated_resolves (by_id ad_id)
               [("photos", VList (map file_url file_ids))]);
        [assumption | reflexivity | assumption | assumption]. }
    split; [apply lookup_insert_eq|].
    intros k Hk. apply lookup_insert_ne. congruence.
  - intros Hother. apply String.eqb_neq in Hother. rewrite Hother in Hown.
    pose proof (find_one_conj_other _ _ _ _ Hu Ha Hm Hown) as Hnone.
    unfold by_id, owned_by in Hnone. cbn [app] in Hnone.
    unfold call, add_photos, bind, db_find_one. cbn [coll].
    rewrite Hnone. reflexivity.
Qed.

(** X4. [update_ad_status] writes whatever string an admin gives as the
    status of an existing ad request, with no check of the value, and
    changes no other field. *)
Theorem update_ad_status_free_form
    (db : Db) (credentials : token) (t : datetime) (admin : Payload)
    (a : doc) (ad_id status : string) :
  get_current_user JWT_SECRET hmac credentials t = Ok admin ->
  Jwt.role admin = "admin" ->
  unique_ids (ad_requests db) = true ->
  a ∈ ad_requests db ->
  a !! "id" = Some (VStr ad_id) ->
  let call := with_admin_user JWT_SECRET hmac credentials t
                (update_ad_status ad_id status) in
  let a' := <["status" := VStr status]> a in
  outcome call db = Ok {| success := true |}
  /\ find_one (by_id ad_id) (ad_requests (state_after call db)) = Some a'
  /\ a' !! "status" = Some (VStr status)
  /\ (forall k : string, k <> "status" -> a' !! k = a !! k).
Proof.
  intros Hauth Hrole Hu Ha Hid call a'.
  pose proof (find_one_unique _ _ _ Hu Ha (matches_by_id_str _ _ Hid))
    as Hfind.
  assert (Hrun : call db
                 = (set_coll AdRequests
                      (update_one (by_id ad_id) [("status", VStr status)]
                         (ad_requests db)).1 db,
                    Ok {| success := true |})).
  { unfold call. rewrite (with_admin_user_run _ _ _ _ _ _ _ Hauth Hrole).
    unfold update_ad_status, bind. fold (by_id ad_id).
    rewrite (db_update_by_id_run AdRequests _ _ _ a Hfind). reflexivity. }
  unfold outcome, state_after. rewrite Hrun. cbn [fst snd].
  split; [reflexivity|]. split.
  { cbn [ad_requests set_coll].
    apply (updated_resolves (by_id ad_id) [("status", VStr status)]);
      [assumption | reflexivity | assumption | assumption]. }
  split; [apply lookup_insert_eq|].
  intros k Hk. apply lookup_insert_ne. congruence.
Qed.

(** X5. [create_payment] is for the owner of the ad request: for the owner
    it stores and returns a payment that is "pending", has an empty
    screenshot URL and no verification time; for anyone else, admins
    included, it is a 404 and nothing is stored. *)
Theorem create_payment_owner_only
    (db : Db) (a : doc) (ad_id owner : string) (method : payment_method_t)
    (caller : Payload) (uuid4 : string) (now : datetime) :
  unique_ids (ad_requests db) = true ->
  a ∈ ad_requests db ->
  a !! "id" = Some (VStr ad_id) ->
  a !! "client_id" = Some (VStr owner) ->
  let call := create_payment
                {| pc_ad_request_id := ad_id; pc_payment_method := method |}
                caller uuid4 now in
  let payment := {| Payment.id := uuid4; Payment.ad_request_id := ad_id;
                    Payment.payment_method := payment_method_str method;
                    Payment.screenshot_url := "";
                    Payment.status := "pending";
                    Payment.created_at := isoformat now;
                    Payment.verified_at := None |} in
  (Jwt.user_id caller = owner ->
   outcome call db = Ok payment
   /\ exists stored : doc,
        payments (state_after call db) = payments db ++ [stored]
        /\ Payment.validate stored = Ok payment
        /\ stored !! "verified_at" = Some VNone
        /\ ad_requests (state_after call db) = ad_requests db)
  /\ (Jwt.user_id caller <> owner ->
      call db = (db, Raise (HTTPException 404 "Ad request not found"))).
Proof.
  intros Hu Ha Hid Hclient call payment.
  pose proof (matches_by_id_str _ _ Hid) as Hm.
  pose proof (find_one_unique _ _ _ Hu Ha Hm) as Hfind.
  pose proof (matches_owned_by caller _ _ Hclient) as Hown.
  split.
  - intros Howner. rewrite Howner, String.eqb_refl in Hown.
    pose proof (find_one_conj _ _ _ _ Hfind Hown) as Hboth.
    unfold by_id, owned_by in Hboth. cbn [app] in Hboth.
    pose proof (payment_validate_dict uuid4 ad_id (payment_method_str method)
                  "" "pending" (isoformat now)) as Hvalid.
    set (payment_dict := dict _) in Hvalid.
    assert (Hrun : call db
                   = (set_coll Payments (payments db ++ [payment_dict]) db,
                      Ok payment)).
    { unfold call, create_payment, bind, db_find_one. cbn [coll].
      cbn [pc_ad_request_id pc_payment_method].
      rewrite Hboth, (find_one_truthy _ _ _ _ _ Hboth). cbn [negb].
      unfold db_insert_one, lift. fold payment_dict. rewrite Hvalid.
      reflexivity. }
    unfold outcome, state_after. rewrite Hrun. cbn [fst snd].
    split; [reflexivity|]. exists payment_dict.
    split; [reflexivity|]. split; [exact Hvalid|].
    split; reflexivity.
  - intros Hother. apply String.eqb_neq in Hother. rewrite Hother in Hown.
    pose proof (find_one_conj_other _ _ _ _ Hu Ha Hm Hown) as Hnone.
    unfold by_id, owned_by in Hnone. cbn [app] in Hnone.
    unfold call, create_payment, bind, db_find_one. cbn [coll].
    cbn [pc_ad_request_id]. rewrite Hnone. reflexivity.
Qed.

(** X6. Unlike the payment screenshot, [upload_subscription_screenshot] is
    checked against the owner: the owner's call sets [payment_screenshot]
    and nothing else, anyone else's call is a 404 that changes nothing. *)
Theorem upload_subscription_screenshot_owner_only
    (db : Db) (s : doc) (sub_id owner file_id : string) (caller : Payload) :
  unique_ids (subscriptions db) = true ->
  s ∈ subscriptions db ->
  s !! "id" = Some (VStr sub_id) ->
  s !! "client_id" = Some (VStr owner) ->
  let call := upload_subscription_screenshot sub_id file_id caller in
  let s' := <["payment_screenshot" := VStr (file_url file_id)]> s in
  (Jwt.user_id caller = owner ->
   outcome call db
   = Ok {| screenshot_success := true; screenshot_url_ := file_url file_id |}
   /\ find_one (by_id sub_id) (subscriptions (state_after call db)) = Some s'
   /\ s' !! "payment_screenshot" = Some (VStr (file_url file_id))
   /\ (forall k : string, k <> "payment_screenshot" -> s' !! k = s !! k))
  /\ (Jwt.user_id caller <> owner ->
      call db = (db, Raise (HTTPException 404 "Subscription not found"))).
Proof.
  intros Hu Hs Hid Hclient call s'.
  pose proof (matches_by_id_str _ _ Hid) as Hm.
  pose proof (find_one_unique _ _ _ Hu Hs Hm) as Hfind.
  pose proof (matches_owned_by caller _ _ Hclient) as Hown.
  split.
  - intros Howner. rewrite Howner, String.eqb_refl in Hown.
    pose proof (find_one_conj _ _ _ _ Hfind Hown) as Hboth.
    unfold by_id, owned_by in Hboth. cbn [app] in Hboth.
    unfold outcome, state_after, call, upload_subscription_screenshot, bind.
    rewrite db_update_one_run. cbn [coll].
    rewrite (update_one_matched _ _ _ _ Hboth). cbn [fst snd Z.eqb].
    split; [reflexivity|]. split.
    { cbn [subscriptions set_coll].
      apply (updated_resolves _
               [("payment_screenshot", VStr (file_url file_id))]);
        [assumption | reflexivity | assumption | assumption]. }
    split; [apply lookup_insert_eq|].
    intros k Hk. apply lookup_insert_ne. congruence.
  - intros Hother. apply String.eqb_neq in Hother. rewrite Hother in Hown.
    pose proof (find_one_conj_other _ _ _ _ Hu Hs Hm Hown) as Hnone.
    unfold by_id, owned_by in Hnone. cbn [app] in Hnone.
    unfold call, upload_subscription_screenshot, bind.
    rewrite db_update_one_run. cbn [coll].
    rewrite (update_one_None _ _ _ Hnone). cbn. destruct db; reflexivity.
Qed.

(** X7. A client's payment list is confined to their own ad requests:
    every payment [get_payments] returns to a non-admin refers to an ad
    request that this caller owns. *)
Theorem get_payments_confined
    (db : Db) (client : Payload) (l : list Payment.t) :
  Jwt.role client <> "admin" ->
  outcome (get_payments client) db = Ok l ->
  state_after (get_payments client) db = db
  /\ forall r : Payment.t, r ∈ l ->
       exists a : doc,
         a ∈ ad_requests db
         /\ matches (owned_by client) a = true
         /\ a !! "id" = Some (VStr (Payment.ad_request_id r)).
Proof.
  intros Hclient Hl.
  destruct (rmap (item "id")
              (map project_id
                 (to_list 1000 (find (owned_by client) (ad_requests db)))))
    as [ad_ids|e] eqn:Hids.
  - pose proof (get_payments_client_lists db client ad_ids Hclient Hids)
      as Hlist.
    split; [apply Hlist|]. intros r Hr.
    destruct (lists_newest_1000_source _ _ _ _ _ _ _ Hlist Hl Hr)
      as (d & Hd & Hv).
    apply SortFacts.to_list_subseteq in Hd as [_ Hm].
    apply payment_validate_fields in Hv as (_ & Hrid & _).
    pose proof (matches_in_str _ _ _ _ Hrid Hm) as Hin.
    apply rmap_Ok in Hids.
    destruct (Forall2_elem_of_r _ _ _ _ Hids Hin) as (pd & Hpd & Hitem).
    apply list_elem_of_fmap in Hpd as (a & -> & Ha).
    apply to_list_find_subseteq in Ha as [Ha Hown].
    exists a. split; [exact Ha|]. split; [exact Hown|].
    apply item_project_id, Hitem.
  - unfold outcome in Hl.
    rewrite (get_payments_client_raises _ _ _ Hclient Hids) in Hl.
    discriminate.
Qed.

Ltac unfold_handlers :=
  unfold register, login, get_me, upload_file, get_file, create_ad_request,
    add_photos, get_ad_requests, get_ad_request, update_ad_status,
    create_payment, upload_payment_screenshot, get_payments, verify_payment,
    create_subscription, upload_subscription_screenshot,
    get_my_subscriptions, get_all_subscriptions, verify_subscription,
    get_admin_settings, update_admin_settings.

Abbreviation perform_ := (perform JWT_SECRET hmac bcrypt_hashpw bcrypt_checkpw).

Lemma perform_frame (r : request) (db : Db) (c : collection) :
  c ∉ writes r -> coll c (perform_ r db) = coll c db.
Proof.
  intros Hc.
  destruct r; cbn [perform writes] in *;
    match goal with
    | |- coll c (state_after ?m db) = _ =>
        cut (hoare (fun db' => coll c db' = coll c db) m
               (fun db' => coll c db' = coll c db));
        [intros Hh; exact (Hh db eq_refl)|]
    end;
    destruct c; try (exfalso; apply Hc; clear; set_solver);
    unfold_handlers; hoare_with frame_write.
Qed.

(** X8. Each request writes only to its own collections: users change
    through [register] alone, files through [upload_file] alone,
    [verify_payment] touches payments and ad requests, and the only [GET]
    that writes is [get_admin_settings]; every other read leaves the whole
    database as it was. *)
Theorem requests_write_only_their_collections (r : request) (db : Db) :
  (forall c : collection,
      c ∉ writes r -> coll c (perform_ r db) = coll c db)
  /\ (writes r = [] -> perform_ r db = db).
Proof.
  split; [intros c; apply perform_frame|].
  intros Hr.
  assert (H : forall c, coll c (perform_ r db) = coll c db).
  { intros c. apply perform_frame. rewrite Hr. apply not_elem_of_nil. }
  pose proof (H Users) as Husers. pose proof (H Files) as Hfiles.
  pose proof (H AdRequests) as Hads. pose proof (H Payments) as Hpayments.
  pose proof (H Subscriptions) as Hsubs.
  pose proof (H AdminSettingsColl) as Hsettings.
  clear H. set (db' := perform_ r db) in *. clearbody db'.
  destruct db', db. cbn [coll users files ad_requests payments subscriptions
                          admin_settings] in *.
  congruence.
Qed.

(** X9. No request removes a document: whatever the request and its
    outcome, no collection is shorter afterwards. *)
Theorem requests_never_delete (r : request) (db : Db) (c : collection) :
  (length (coll c db) <= length (coll c (perform_ r db)))%nat.
Proof.
  destruct r; cbn [perform];
    match goal with
    | |- (_ <= length (coll c (state_after ?m db)))%nat =>
        cut (hoare (fun db' => (length (coll c db) <= length (coll c db'))%nat)
               m
               (fun db' => (length (coll c db) <= length (coll c db'))%nat));
        [intros Hh; exact (Hh db (le_n _))|]
    end;
    unfold_handlers; hoare_with length_write.
Qed.

(** X10. Identifiers stay unique: when [uuid.uuid4()] returns an
    identifier not yet used in the collection it goes to, every request
    leaves every collection without two documents of the same identifier,
    whether it succeeds or fails; so every database the API produces from
    the empty one has unique identifiers. *)
Theorem requests_keep_ids_unique :
  (forall (r : request) (db : Db),
      ids_unique db -> fresh r db -> ids_unique (perform_ r db))
  /\ (forall db : Db,
        reachable JWT_SECRET hmac bcrypt_hashpw bcrypt_checkpw db ->
        ids_unique db).
Proof.
  assert (Hstep : forall (r : request) (db : Db),
             ids_unique db -> fresh r db -> ids_unique (perform_ r db)).
  { intros r db Hdb Hfresh.
    destruct r; cbn [perform fresh new_id] in *;
      lazymatch goal with
      | Hf : fresh_in ?c ?x db |- ids_unique (state_after ?m db) =>
          apply (fun Hh : hoare (fun db => ids_unique db /\ fresh_in c x db)
                            m ids_unique => Hh db (conj Hdb Hf))
      | |- ids_unique (state_after ?m db) =>
          apply (fun Hh : hoare ids_unique m ids_unique => Hh db Hdb)
      end;
      try apply update_admin_settings_keeps_ids_unique;
      unfold_handlers; hoare_with hoare_write. }
  split; [exact Hstep|].
  induction 1 as [|r db _ IH Hfresh]; [apply empty_db_ids_unique|].
  apply Hstep; assumption.
Qed.

(** X11. No request leaves a payment without its ad request: if every
    payment refers to an ad request that exists, this is still so after
    any request, whatever its outcome; so it holds in every database the
    API produces from the empty one, where the second write of
    [verify_payment] always finds its document. *)
Theorem requests_keep_payments_attached :
  (forall (r : request) (db : Db),
      no_dangling db -> no_dangling (perform_ r db))
  /\ (forall db : Db,
        reachable JWT_SECRET hmac bcrypt_hashpw bcrypt_checkpw db ->
        no_dangling db).
Proof.
  assert (Hstep : forall (r : request) (db : Db),
             no_dangling db -> no_dangling (perform_ r db)).
  { intros r db Hdb.
    destruct r; cbn [perform];
      lazymatch goal with
      | |- no_dangling (state_after ?m db) =>
          apply (fun Hh : hoare no_dangling m no_dangling => Hh db Hdb)
      end;
      try apply create_payment_no_dangling;
      unfold_handlers; hoare_with nd_write. }
  split; [exact Hstep|].
  induction 1 as [|r db _ IH _]; [|apply Hstep, IH].
  intros p Hp. inversion Hp.
Qed.

Lemma login_reads_only (credentials : UserLogin) (now : datetime) (db : Db) :
  state_after (login JWT_SECRET hmac bcrypt_checkpw credentials now) db = db.
Proof.
  apply (fun Hh : hoare (fun db' => db' = db)
                    (login JWT_SECRET hmac bcrypt_checkpw credentials now)
                    (fun db' => db' = db) => Hh db eq_refl).
  unfold login. hoare_with fail.
Qed.

(** What a successful [login] has found and returns. *)
Lemma login_Ok (credentials : UserLogin) (now : datetime) (db : Db)
    (response : AuthResponse) :
  outcome (login JWT_SECRET hmac bcrypt_checkpw credentials now) db
  = Ok response ->
  exists (user : doc) (hashed id email role : string),
    find_one [("email", CEq (VStr (ul_email credentials)))] (users db)
    = Some user
    /\ user !! "password" = Some (VStr hashed)
    /\ bcrypt_checkpw (ul_password credentials) hashed = Ok true
    /\ user !! "id" = Some (VStr id)
    /\ user !! "email" = Some (VStr email)
    /\ user !! "role" = Some (VStr role)
    /\ token_ response
       = Jwt.encode hmac
           {| Jwt.user_id := id; Jwt.email := email; Jwt.role := role;
              Jwt.exp := timegm (now + timedelta_days 30) |}
           JWT_SECRET JWT_ALGORITHM
    /\ User.validate (delete "password" user) = Ok (user_ response).
Proof.
  unfold outcome, login, bind, db_find_one, lift. cbn [coll].
  destruct (find_one _ (users db)) as [user|] eqn:Hfind; [|discriminate].
  destruct (negb (truthy (Some user))); [discriminate|].
  unfold subscript.
  destruct (user !! "password") as [hashed|] eqn:Hpw; [|discriminate].
  unfold verify_password.
  destruct hashed as [hashed| |?]; try discriminate.
  destruct (bcrypt_checkpw (ul_password credentials) hashed)
    as [[|]|?] eqn:Hcheck; try discriminate.
  cbn [negb].
  destruct (user !! "id") as [id|] eqn:Hid; [|discriminate].
  destruct (user !! "email") as [email|] eqn:Hemail; [|discriminate].
  destruct (user !! "role") as [role|] eqn:Hrole; [|discriminate].
  unfold create_token_from, create_token.
  unfold datetime_add.
  destruct (in_range (now + timedelta_days 30)); [|discriminate].
  change (kwargs (Some user)) with user.
  destruct (User.validate (delete "password" user)) as [model|?] eqn:Hv.
  - destruct id as [id| |?], email as [email| |?], role as [role| |?];
      cbn [rbind];
      try (intros [= <-]; exists user, hashed, id, email, role;
           repeat split; first [assumption | reflexivity]);
      exfalso;
      unfold User.validate, rbind, str_field, str_field_default in Hv;
      rewrite ?lookup_delete_ne in Hv by done;
      rewrite ?Hid, ?Hemail, ?Hrole in Hv;
      repeat match type of Hv with
             | context [match ?m !! ?k with _ => _ end] =>
                 destruct (m !! k) as [[?| |?]|]; try discriminate Hv
             end.
  - destruct id as [id| |?], email as [email| |?], role as [role| |?];
      cbn [rbind]; discriminate.
Qed.

Ltac not_in_list H :=
  repeat (apply elem_of_cons in H as [H|H]; [discriminate H|]); inversion H.


Lemma users_are_clients_step (r : request) (db : Db) :
  users_are_clients db -> users_are_clients (perform_ r db).
Proof.
  intros Hdb.
  destruct (decide (Users ∈ writes r)) as [Hw|Hw].
  - destruct r; cbn [writes] in Hw; try solve [exfalso; not_in_list Hw].
    cbn [perform]. apply register_users_are_clients, Hdb.
  - unfold users_are_clients.
    pose proof (perform_frame r db Users Hw) as Hframe.
    cbn [coll] in Hframe. rewrite Hframe. exact Hdb.
Qed.

Lemma reachable_users_are_clients (db : Db) :
  reachable JWT_SECRET hmac bcrypt_hashpw bcrypt_checkpw db ->
  users_are_clients db.
Proof.
  induction 1 as [|r db _ IH _]; [|apply users_are_clients_step, IH].
  intros u Hu. inversion Hu.
Qed.

Lemma client_token_is_no_admin {A : Type} (claims : Payload) (t : datetime)
    (handler : Payload -> M A) (db : Db) :
  Jwt.role claims = "client" ->
  exists e : exn,
    with_admin_user JWT_SECRET hmac
      (Jwt.encode hmac claims JWT_SECRET JWT_ALGORITHM) t handler db
    = (db, Raise e)
    /\ (e = HTTPException 401 "Invalid authentication"
        \/ e = HTTPException 403 "Admin access required").
Proof.
  intros Hrole. unfold with_admin_user, bind, lift.
  destruct (Z.lt_ge_cases t (Jwt.exp claims * SECOND)) as [Hlt|Hge].
  - rewrite (get_current_user_encode _ _ _ _ Hlt).
    unfold get_admin_user. rewrite Hrole. cbn. eauto.
  - unfold Jwt.encode.
    rewrite (get_current_user_expired _ _ _ _ _ _ Hge). eauto.
Qed.

(** X13. The API makes no admin: [register] is the only request that
    changes the users and it stores the role "client", so every user of a
    database produced from the empty one is a client; there a token that
    [login] returns, like one that [register] returns anywhere, is turned
    away by every admin-only route with a 401 or a 403, the handler body
    not being run. *)
Theorem api_makes_no_admin :
  (forall (r : request) (db : Db),
      users_are_clients db -> users_are_clients (perform_ r db))
  /\ (forall db : Db,
        reachable JWT_SECRET hmac bcrypt_hashpw bcrypt_checkpw db ->
        users_are_clients db
        /\ forall (credentials : UserLogin) (now : datetime)
                  (response : AuthResponse),
             outcome (login JWT_SECRET hmac bcrypt_checkpw credentials now) db
             = Ok response ->
             forall (A : Type) (t : datetime) (handler : Payload -> M A)
                    (db' : Db),
             exists e : exn,
               with_admin_user JWT_SECRET hmac (token_ response) t handler db'
               = (db', Raise e)
               /\ (e = HTTPException 401 "Invalid authentication"
                   \/ e = HTTPException 403 "Admin access required"))
  /\ (forall (user_data : UserCreate) (uuid4 salt : string)
             (now now' : datetime) (db : Db) (response : AuthResponse),
        outcome (register JWT_SECRET hmac bcrypt_hashpw user_data uuid4 salt
                   now now') db = Ok response ->
        forall (A : Type) (t : datetime) (handler : Payload -> M A) (db' : Db),
        exists e : exn,
          with_admin_user JWT_SECRET hmac (token_ response) t handler db'
          = (db', Raise e)
          /\ (e = HTTPException 401 "Invalid authentication"
              \/ e = HTTPException 403 "Admin access required")).
Proof.
  split; [exact users_are_clients_step|]. split.
  - intros db Hreach.
    pose proof (reachable_users_are_clients db Hreach) as Hclients.
    split; [exact Hclients|].
    intros credentials now response Hlogin A t handler db'.
    apply login_Ok in Hlogin
      as (user & hashed & id & email & role & Hfind & _ & _ & _ & _
          & Hrole & -> & _).
    apply find_one_Some in Hfind as [Hin _].
    rewrite (Hclients user Hin) in Hrole. injection Hrole as <-.
    apply client_token_is_no_admin. reflexivity.
  - intros user_data uuid4 salt now now' db response Hreg A t handler db'.
    unfold outcome, register, bind, db_find_one, db_insert_one, lift in Hreg.
    cbn [coll] in Hreg.
    destruct (truthy (find_one _ (users db))); [discriminate|].
    destruct (hash_password _ _ _) as [hashed|?]; [|discriminate].
    unfold create_token in Hreg.
    destruct (datetime_add now' (timedelta_days 30)); [|discriminate].
    cbn [snd fst] in Hreg.
    destruct (User.validate _); [|discriminate].
    cbn in Hreg. injection Hreg as <-. cbn [token_].
    apply client_token_is_no_admin. reflexivity.
Qed.

(** X14. [update_admin_settings] is a partial update that
    [get_admin_settings] reads back: after it, the settings returned are
    the given values for the fields that were given and the values
    returned before for the others; with no field given nothing is
    written. *)
Theorem update_admin_settings_read_back
    (db : Db) (settings : AdminSettingsUpdate.t) (current_user : Payload)
    (old : AdminSettings.t) :
  settings_ok db ->
  outcome get_admin_settings db = Ok old ->
  let update := update_admin_settings settings current_user in
  let db' := state_after update db in
  outcome update db = Ok {| success := true |}
  /\ outcome get_admin_settings db'
     = Ok {| AdminSettings.sham_cash_qr :=
               default (AdminSettings.sham_cash_qr old)
                 (AdminSettingsUpdate.sham_cash_qr settings);
             AdminSettings.syriatel_qr :=
               default (AdminSettings.syriatel_qr old)
                 (AdminSettingsUpdate.syriatel_qr settings) |}
  /\ (AdminSettingsUpdate.sham_cash_qr settings = None ->
      AdminSettingsUpdate.syriatel_qr settings = None -> db' = db).
Proof.
  intros Hok Hold update db'.
  pose proof (update_admin_settings_settings_ok settings current_user db Hok)
    as Hok'.
  fold update in Hok'. fold db' in Hok'.
  rewrite (get_admin_settings_outcome _ Hok) in Hold.
  rewrite (get_admin_settings_outcome _ Hok').
  unfold db', update, outcome, state_after.
  rewrite update_admin_settings_run. cbn [fst snd].
  split; [reflexivity|].
  unfold AdminSettingsUpdate.update_data.
  destruct settings as [[a|] [b|]], old as [sham syr];
    cbn [AdminSettingsUpdate.sham_cash_qr AdminSettingsUpdate.syriatel_qr
           AdminSettings.sham_cash_qr AdminSettings.syriatel_qr app default
           from_option id];
    (split; [|first [ intros; discriminate | reflexivity ]]);
    destruct (admin_settings db) as [|d l];
    cbn [admin_settings set_coll set_fields fold_left fst snd];
    try (injection Hold as <- <-; reflexivity);
    try exact Hold;
    destruct (admin_settings_validate_insert d _ Hold) as (Ha & Hb & Hab);
    cbn [AdminSettings.sham_cash_qr AdminSettings.syriatel_qr] in *;
    first [ apply Hab | apply Ha | apply Hb ].
Qed.

(** [create_ad_request] for a caller whose user document is stored: the
    new document is appended before it is validated. *)
Lemma create_ad_request_run (ad_data : AdRequestCreate.t)
    (current_user : Payload) (uuid4 : string) (now : datetime) (db : Db)
    (user : doc) (name email : value) :
  find_one (by_id (Jwt.user_id current_user)) (users db) = Some user ->
  user !! "name" = Some name ->
  user !! "email" = Some email ->
  let ad_dict := dict [
    ("id", VStr uuid4);
    ("client_id", VStr (Jwt.user_id current_user));
    ("client_name", name);
    ("client_email", email);
    ("location", VStr (AdRequestCreate.location ad_data));
    ("product_names", VStr (AdRequestCreate.product_names ad_data));
    ("other_info", optional_str (AdRequestCreate.other_info ad_data));
    ("photos", VList []);
    ("payment_type",
      VStr (AdRequestCreate.payment_type_str
              (AdRequestCreate.payment_type ad_data)));
    ("status", VStr "pending");
    ("created_at", VStr (isoformat now)) ] in
  create_ad_request ad_data current_user uuid4 now db
  = (set_coll AdRequests (ad_requests db ++ [ad_dict]) db,
     AdRequest.validate ad_dict).
Proof.
  intros Hu Hn He ad_dict.
  unfold create_ad_request, bind, db_find_one, lift, db_insert_one.
  cbn [coll]. unfold by_id in Hu. rewrite Hu. unfold subscript.
  rewrite Hn, He. reflexivity.
Qed.

(** The query of [get_ad_request] resolves a fresh identifier to the
    document appended under it, for its owner and for an admin. *)
Lemma get_ad_request_appended (ad_id : string) (caller : Payload) (db : Db)
    (stored : doc) (owner : string) :
  fresh_in AdRequests ad_id db ->
  stored !! "id" = Some (VStr ad_id) ->
  stored !! "client_id" = Some (VStr owner) ->
  Jwt.role caller = "admin" \/ Jwt.user_id caller = owner ->
  get_ad_request ad_id caller
    (set_coll AdRequests (ad_requests db ++ [stored]) db)
  = (set_coll AdRequests (ad_requests db ++ [stored]) db,
     AdRequest.validate stored).
Proof.
  intros Hfresh Hid Hown Hcaller. unfold fresh_in in Hfresh. cbn [coll] in Hfresh.
  pose proof (matches_by_id_str _ _ Hid) as Hm.
  destruct (String.eqb (Jwt.role caller) "admin") eqn:Hrole.
  - eapply get_ad_request_found.
    + rewrite Hrole. reflexivity.
    + cbn [ad_requests set_coll]. fold (by_id ad_id).
      rewrite (find_one_app_None _ _ _ Hfresh).
      unfold find_one. cbn [List.find]. rewrite Hm. reflexivity.
  - destruct Hcaller as [Hadmin|Hme].
    { rewrite Hadmin in Hrole. discriminate. }
    eapply get_ad_request_found.
    + rewrite Hrole. reflexivity.
    + cbn [ad_requests set_coll].
      change ((("id", CEq (VStr ad_id))
               :: [("client_id", CEq (VStr (Jwt.user_id caller)))]))
        with (by_id ad_id ++ owned_by caller).
      rewrite (find_one_app_None _ _ _
                 (find_one_conj_None _ (owned_by caller) _ Hfresh)).
      unfold find_one. cbn [List.find].
      rewrite matches_app, Hm, (matches_owned_by _ _ _ Hown), Hme,
        String.eqb_refl.
      reflexivity.
Qed.

(** X15. A null [other_info], which [AdRequestCreate] accepts, makes
    [create_ad_request] store the ad request and then fail with a
    validation error (a 500): the stored document has [other_info] null,
    fetching it by its identifier fails the same way for its owner and
    for an admin, and while the collection holds fewer than 1000 documents
    before it, their listings fail too. *)
Theorem create_ad_request_null_other_info
    (db : Db) (ad_data : AdRequestCreate.t) (current_user : Payload)
    (uuid4 : string) (now : datetime) (user : doc) (name email : string) :
  find_one (by_id (Jwt.user_id current_user)) (users db) = Some user ->
  user !! "name" = Some (VStr name) ->
  user !! "email" = Some (VStr email) ->
  AdRequestCreate.other_info ad_data = None ->
  fresh_in AdRequests uuid4 db ->
  let call := create_ad_request ad_data current_user uuid4 now in
  let db' := state_after call db in
  outcome call db = Raise (ValidationError "other_info")
  /\ http_status (ValidationError "other_info") = 500
  /\ (exists stored : doc,
        ad_requests db' = ad_requests db ++ [stored]
        /\ stored !! "id" = Some (VStr uuid4)
        /\ stored !! "client_id" = Some (VStr (Jwt.user_id current_user))
        /\ stored !! "other_info" = Some VNone)
  /\ forall caller : Payload,
       Jwt.role caller = "admin"
       \/ Jwt.user_id caller = Jwt.user_id current_user ->
       get_ad_request uuid4 caller db'
       = (db', Raise (ValidationError "other_info"))
       /\ ((length (ad_requests db) < 1000)%nat ->
           exists e, outcome (get_ad_requests caller) db' = Raise e).
Proof.
  intros Hu Hn He Hinfo Hfresh call db'.
  pose proof (create_ad_request_run ad_data current_user uuid4 now db
                user _ _ Hu Hn He) as Hrun.
  cbv zeta in Hrun. rewrite Hinfo in Hrun.
  set (stored := dict _) in Hrun.
  assert (Hid : stored !! "id" = Some (VStr uuid4)) by reflexivity.
  assert (Hown : stored !! "client_id"
                 = Some (VStr (Jwt.user_id current_user))) by reflexivity.
  assert (Hv : AdRequest.validate stored
               = Raise (ValidationError "other_info")) by reflexivity.
  unfold db', call, outcome, state_after. rewrite Hrun, Hv. cbn [fst snd].
  split; [reflexivity|]. split; [reflexivity|]. split.
  { exists stored. repeat split; reflexivity. }
  intros caller Hcaller. split.
  { rewrite <- Hv.
    apply (get_ad_request_appended uuid4 caller db stored _ Hfresh Hid Hown
             Hcaller). }
  intros Hlen.
  set (db1 := set_coll AdRequests (ad_requests db ++ [stored]) db).
  change (exists e, outcome (get_ad_requests caller) db1 = Raise e).
  destruct (outcome (get_ad_requests caller) db1) as [l|e] eqn:Hout;
    [exfalso | exists e; reflexivity].
  destruct (get_ad_requests_lists db1 caller) as (_ & Hiff & _).
  apply Hiff in Hout.
  set (q := if String.eqb (Jwt.role caller) "admin" then []
            else owned_by caller) in Hout.
  assert (Hin : stored
                ∈ to_list 1000 (sort_desc "created_at"
                                  (find q (ad_requests db1)))).
  { apply SortFacts.elem_of_take_sort_desc.
    - unfold find. apply list_elem_of_In, filter_In. split.
      + cbn [db1 ad_requests set_coll]. apply in_or_app. right. left.
        reflexivity.
      + unfold q. destruct (String.eqb (Jwt.role caller) "admin") eqn:Hrole;
          [reflexivity|].
        destruct Hcaller as [Hadmin|Hme].
        { rewrite Hadmin in Hrole. discriminate. }
        rewrite (matches_owned_by _ _ _ Hown), Hme. apply String.eqb_refl.
    - unfold as_new_as, find.
      etransitivity; [apply filter_length_le|].
      etransitivity; [apply filter_length_le|].
      cbn [db1 ad_requests set_coll]. rewrite length_app. cbn [length]. lia. }
  destruct (Forall2_elem_of_l _ _ _ _ Hout Hin) as (r & _ & Hr).
  rewrite Hv in Hr. discriminate.
Qed.

(** X16. [create_ad_request] snapshots the caller's stored name and
    email: with a string [other_info] and a fresh identifier it returns
    the new ad request, pending and without photos, under the caller's
    identifier, name and email, and [get_ad_request] then returns the
    same record to the caller; a caller without a stored user document
    gets an error and nothing is stored. *)
Theorem create_ad_request_snapshots_caller
    (db : Db) (ad_data : AdRequestCreate.t) (current_user : Payload)
    (uuid4 : string) (now : datetime) :
  let call := create_ad_request ad_data current_user uuid4 now in
  (forall (user : doc) (name email info : string),
      find_one (by_id (Jwt.user_id current_user)) (users db) = Some user ->
      user !! "name" = Some (VStr name) ->
      user !! "email" = Some (VStr email) ->
      AdRequestCreate.other_info ad_data = Some info ->
      fresh_in AdRequests uuid4 db ->
      let record :=
        {| AdRequest.id := uuid4;
           AdRequest.client_id := Jwt.user_id current_user;
           AdRequest.client_name := name;
           AdRequest.client_email := email;
           AdRequest.location := AdRequestCreate.location ad_data;
           AdRequest.product_names := AdRequestCreate.product_names ad_data;
           AdRequest.other_info := info;
           AdRequest.photos := [];
           AdRequest.payment_type :=
             AdRequestCreate.payment_type_str
               (AdRequestCreate.payment_type ad_data);
           AdRequest.status := "pending";
           AdRequest.created_at := isoformat now |} in
      outcome call db = Ok record
      /\ length (ad_requests (state_after call db))
         = S (length (ad_requests db))
      /\ get_ad_request uuid4 current_user (state_after call db)
         = (state_after call db, Ok record))
  /\ (find_one (by_id (Jwt.user_id current_user)) (users db) = None ->
      call db = (db, Raise TypeError)).
Proof.
  intros call. split.
  - intros user name email info Hu Hn He Hinfo Hfresh record.
    pose proof (create_ad_request_run ad_data current_user uuid4 now db
                  user _ _ Hu Hn He) as Hrun.
    cbv zeta in Hrun. rewrite Hinfo in Hrun.
    set (stored := dict _) in Hrun.
    assert (Hid : stored !! "id" = Some (VStr uuid4)) by reflexivity.
    assert (Hown : stored !! "client_id"
                   = Some (VStr (Jwt.user_id current_user))) by reflexivity.
    assert (Hv : AdRequest.validate stored = Ok record) by reflexivity.
    unfold call, outcome, state_after. rewrite Hrun, Hv. cbn [fst snd].
    split; [reflexivity|]. split.
    { cbn [ad_requests set_coll]. rewrite length_app. cbn [length]. lia. }
    rewrite <- Hv.
    apply (get_ad_request_appended uuid4 current_user db stored _ Hfresh Hid
             Hown).
    right. reflexivity.
  - intros Hu. unfold call, create_ad_request, bind, db_find_one.
    cbn [coll]. unfold by_id in Hu. rewrite Hu. reflexivity.
Qed.

Lemma truthy_lookup (d : doc) (k : string) (v : value) :
  d !! k = Some v -> truthy (Some d) = true.
Proof.
  intros H. apply negb_true_iff, bool_decide_eq_false. intros ->.
  rewrite lookup_empty in H. discriminate.
Qed.

(** What a successful [register] has stored and returns. *)
Lemma register_Ok (user_data : UserCreate) (uuid4 salt : string)
    (now now' : datetime) (db : Db) (response : AuthResponse) :
  let call := register JWT_SECRET hmac bcrypt_hashpw user_data uuid4 salt
                now now' in
  outcome call db = Ok response ->
  let user_dict := dict [
    ("id", VStr uuid4);
    ("email", VStr (uc_email user_data));
    ("password", VStr (bcrypt_hashpw (uc_password user_data) salt));
    ("name", VStr (uc_name user_data));
    ("phone", VStr (uc_phone user_data));
    ("role", VStr "client");
    ("created_at", VStr (isoformat now)) ] in
  find_one [("email", CEq (VStr (uc_email user_data)))] (users db) = None
  /\ state_after call db = set_coll Users (users db ++ [user_dict]) db
  /\ token_ response
     = Jwt.encode hmac
         {| Jwt.user_id := uuid4; Jwt.email := uc_email user_data;
            Jwt.role := "client";
            Jwt.exp := timegm (now' + timedelta_days 30) |}
         JWT_SECRET JWT_ALGORITHM
  /\ user_ response
     = {| User.id := uuid4; User.email := uc_email user_data;
          User.name := uc_name user_data; User.phone := uc_phone user_data;
          User.role := "client"; User.created_at := isoformat now |}.
Proof.
  intros call Hout user_dict.
  destruct (user_validate_dict uuid4 (uc_email user_data)
              (bcrypt_hashpw (uc_password user_data) salt)
              (uc_name user_data) (uc_phone user_data) "client"
              (isoformat now)) as (Hval & _).
  fold user_dict in Hval.
  unfold call, outcome, state_after in *.
  unfold register, bind, db_find_one in *. cbn [coll] in *.
  destruct (find_one _ (users db)) as [d|] eqn:Hfind.
  { rewrite (find_one_truthy _ _ _ _ _ Hfind) in Hout. discriminate. }
  cbn [truthy] in *.
  unfold lift, hash_password in *.
  destruct (72 <? String.length (uc_password user_data))%nat;
    [discriminate|].
  unfold db_insert_one, create_token, datetime_add in *.
  fold user_dict in Hout |- *.
  destruct (in_range (now' + timedelta_days 30)); [|discriminate].
  rewrite Hval in Hout |- *. cbn [fst snd] in *.
  injection Hout as <-. repeat split; reflexivity.
Qed.

(** X17. After a successful [register] under a fresh identifier, the
    token it returned opens [get_me] until its expiry, and [get_me]
    returns the user record [register] returned, without writing. *)
Theorem register_then_get_me
    (db : Db) (user_data : UserCreate) (uuid4 salt : string)
    (now now' : datetime) (response : AuthResponse) :
  let call := register JWT_SECRET hmac bcrypt_hashpw user_data uuid4 salt
                now now' in
  outcome call db = Ok response ->
  fresh_in Users uuid4 db ->
  let db' := state_after call db in
  forall t : datetime,
    t < timegm (now' + timedelta_days 30) * SECOND ->
    with_current_user JWT_SECRET hmac (token_ response) t get_me db'
    = (db', Ok (user_ response)).
Proof.
  intros call Hout Hfresh db' t Ht.
  destruct (register_Ok _ _ _ _ _ _ _ Hout) as (_ & Hdb & Htoken & Huser).
  fold call in Hdb. fold db' in Hdb.
  destruct (user_validate_dict uuid4 (uc_email user_data)
              (bcrypt_hashpw (uc_password user_data) salt)
              (uc_name user_data) (uc_phone user_data) "client"
              (isoformat now)) as (Hval & _).
  set (user_dict := dict _) in Hdb, Hval.
  rewrite Htoken.
  set (claims := {| Jwt.user_id := uuid4; Jwt.email := uc_email user_data;
                    Jwt.role := "client";
                    Jwt.exp := timegm (now' + timedelta_days 30) |}).
  rewrite (with_current_user_run JWT_SECRET hmac _ t _ get_me db'
             (get_current_user_encode JWT_SECRET hmac claims t Ht)).
  clearbody db'. subst db'.
  unfold get_me, bind, db_find_one. cbn [coll Jwt.user_id users set_coll].
  unfold fresh_in, by_id in Hfresh. cbn [coll] in Hfresh.
  rewrite (find_one_app_None _ _ _ Hfresh).
  assert (Hm : matches [("id", CEq (VStr uuid4))] user_dict = true).
  { apply (matches_by_id_str uuid4 user_dict). reflexivity. }
  unfold find_one. cbn [List.find]. rewrite Hm. cbn [fmap option_fmap option_map].
  rewrite (truthy_lookup (delete "password" user_dict) "id" (VStr uuid4))
    by reflexivity.
  cbn [negb kwargs default from_option id]. unfold lift.
  change (kwargs (Some (delete "password" user_dict)))
    with (delete "password" user_dict : doc).
  rewrite Hval, Huser. reflexivity.
Qed.

(** X18. After a successful [register], [login] with the same email
    and a password that [bcrypt.checkpw] accepts against the stored hash
    returns the same user record and a token for the same identifier,
    email and role, expiring 30 days after the login; it writes
    nothing. *)
Theorem register_then_login
    (db : Db) (user_data : UserCreate) (uuid4 salt : string)
    (now now' : datetime) (response : AuthResponse)
    (credentials : UserLogin) (t : datetime) :
  let call := register JWT_SECRET hmac bcrypt_hashpw user_data uuid4 salt
                now now' in
  outcome call db = Ok response ->
  ul_email credentials = uc_email user_data ->
  bcrypt_checkpw (ul_password credentials)
    (bcrypt_hashpw (uc_password user_data) salt) = Ok true ->
  clock_ok t ->
  let db' := state_after call db in
  login JWT_SECRET hmac bcrypt_checkpw credentials t db'
  = (db',
     Ok {| token_ :=
             Jwt.encode hmac
               {| Jwt.user_id := uuid4; Jwt.email := uc_email user_data;
                  Jwt.role := "client";
                  Jwt.exp := timegm (t + timedelta_days 30) |}
               JWT_SECRET JWT_ALGORITHM;
           user_ := user_ response |}).
Proof.
  intros call Hout Hemail Hcheck Hclock db'.
  destruct (register_Ok _ _ _ _ _ _ _ Hout) as (Hnone & Hdb & _ & Huser).
  fold call in Hdb. fold db' in Hdb.
  destruct (user_validate_dict uuid4 (uc_email user_data)
              (bcrypt_hashpw (uc_password user_data) salt)
              (uc_name user_data) (uc_phone user_data) "client"
              (isoformat now)) as (Hval & _ & _ & Hpw & Hem & Hrole).
  set (user_dict := dict _) in Hdb, Hval, Hpw, Hem, Hrole.
  clearbody db'. subst db'.
  unfold login, bind, db_find_one. cbn [coll users set_coll].
  rewrite Hemail, (find_one_app_None _ _ _ Hnone).
  assert (Hm : matches [("email", CEq (VStr (uc_email user_data)))] user_dict
               = true).
  { unfold matches. cbn [forallb fst snd]. rewrite Hem. cbn.
    rewrite String.eqb_refl. reflexivity. }
  unfold find_one. cbn [List.find]. rewrite Hm.
  rewrite (truthy_lookup user_dict _ _ Hem). cbn [negb].
  unfold lift, subscript. rewrite Hpw. unfold verify_password.
  rewrite Hcheck. cbn [negb]. rewrite Hem, Hrole.
  assert (Hid : user_dict !! "id" = Some (VStr uuid4)) by reflexivity.
  rewrite Hid. unfold create_token_from, create_token.
  unfold clock_ok in Hclock. rewrite Hclock. cbn [rbind].
  change (kwargs (Some user_dict)) with user_dict.
  rewrite Hval, Huser. reflexivity.
Qed.

(** X19. [login] tells nothing apart in its failures: an email no
    stored user answers to and a password [bcrypt.checkpw] rejects give
    the same 401; and [login] never writes, whatever its outcome. *)
Theorem login_failures_look_alike
    (db : Db) (credentials : UserLogin) (now : datetime) :
  let call := login JWT_SECRET hmac bcrypt_checkpw credentials now in
  let by_email := [("email", CEq (VStr (ul_email credentials)))] in
  (find_one by_email (users db) = None ->
   outcome call db = Raise (HTTPException 401 "Invalid credentials"))
  /\ (forall (user : doc) (hashed : string),
        find_one by_email (users db) = Some user ->
        user !! "password" = Some (VStr hashed) ->
        bcrypt_checkpw (ul_password credentials) hashed = Ok false ->
        outcome call db = Raise (HTTPException 401 "Invalid credentials"))
  /\ state_after call db = db.
Proof.
  intros call by_email. split; [|split].
  - intros Hnone. unfold call, outcome, login, bind, db_find_one.
    cbn [coll]. fold by_email. rewrite Hnone. reflexivity.
  - intros user hashed Hfind Hpw Hcheck.
    unfold call, outcome, login, bind, db_find_one.
    cbn [coll]. fold by_email. rewrite Hfind.
    rewrite (find_one_truthy _ _ _ _ _ Hfind). cbn [negb].
    unfold lift, subscript. rewrite Hpw. unfold verify_password.
    rewrite Hcheck. reflexivity.
  - apply login_reads_only.
Qed.

(** X20. Every list operation returns its records newest first: in the
    list [get_ad_requests], [get_payments], [get_my_subscriptions] or
    [get_all_subscriptions] returns, no record has a [created_at] greater,
    as a string, than that of a record before it; and since the strings
    [isoformat] prints compare as the instants they print, of two records
    stamped by the handlers the one listed first is not the older one. *)
Theorem list_operations_newest_first (db : Db) (current_user : Payload) :
  (forall l, outcome (get_ad_requests current_user) db = Ok l ->
             newest_first AdRequest.created_at l
             /\ latest_first AdRequest.created_at l)
  /\ (forall l, outcome (get_payments current_user) db = Ok l ->
                newest_first Payment.created_at l
                /\ latest_first Payment.created_at l)
  /\ (forall l, outcome (get_my_subscriptions current_user) db = Ok l ->
                newest_first Subscription.created_at l
                /\ latest_first Subscription.created_at l)
  /\ (forall l, outcome (get_all_subscriptions current_user) db = Ok l ->
                newest_first Subscription.created_at l
                /\ latest_first Subscription.created_at l).
Proof.
  assert (Hboth : forall (A : Type) (f : A -> string) (l : list A),
             newest_first f l -> newest_first f l /\ latest_first f l).
  { intros A f l H. split; [exact H|].
    apply ClockFacts.newest_first_latest_first, H. }
  split; [|split; [|split]]; intros l Hl; apply Hboth.
  - eapply lists_newest_1000_sorted;
      [|apply get_ad_requests_lists|exact Hl].
    intros d r Hv. apply ad_request_validate_fields, Hv.
  - destruct (String.eqb_spec (Jwt.role current_user) "admin")
      as [Hadmin|Hclient].
    + eapply (lists_newest_1000_sorted _ Payment.validate _ [] (payments db));
        [| |exact Hl].
      * intros d r Hv. apply payment_validate_fields, Hv.
      * unfold get_payments. rewrite Hadmin. cbn [String.eqb Ascii.eqb].
        apply (db_find_then_validate Payments).
    + destruct (rmap (item "id")
                  (map project_id
                     (to_list 1000
                        (find (owned_by current_user) (ad_requests db)))))
        as [ad_ids|e] eqn:Hids.
      * eapply lists_newest_1000_sorted;
          [|apply (get_payments_client_lists _ _ _ Hclient Hids)|exact Hl].
        intros d r Hv. apply payment_validate_fields, Hv.
      * unfold outcome in Hl.
        rewrite (get_payments_client_raises _ _ _ Hclient Hids) in Hl.
        discriminate.
  - eapply lists_newest_1000_sorted;
      [|apply (db_find_then_validate Subscriptions)|exact Hl].
    intros d r Hv. apply subscription_validate_fields, Hv.
  - eapply lists_newest_1000_sorted;
      [|apply (db_find_then_validate Subscriptions)|exact Hl].
    intros d r Hv. apply subscription_validate_fields, Hv.
Qed.

Lemma get_file_reads_files (file_id : string) (db db' : Db) :
  find_one (by_id file_id) (files db') = find_one (by_id file_id) (files db) ->
  outcome (get_file file_id) db' = outcome (get_file file_id) db.
Proof.
  intros H. unfold outcome, get_file, bind, db_find_one. cbn [coll].
  unfold by_id in H. rewrite H.
  destruct (find_one _ (files db)) as [file_doc|]; [|reflexivity].
  destruct (negb (truthy (Some file_doc))); [reflexivity|].
  unfold lift. destruct (subscript (Some file_doc) "data") as [[s| |?]|?];
    try reflexivity.
  destruct (b64decode s); reflexivity.
Qed.

(** X21. Stored files are write-once: the file an identifier resolves
    to is the same after any request, even an upload that draws the same
    identifier again, so [get_file] keeps returning the same bytes and
    media type. *)
Theorem files_are_write_once
    (r : request) (db : Db) (file_id : string) (file_doc : doc) :
  find_one (by_id file_id) (files db) = Some file_doc ->
  find_one (by_id file_id) (files (perform_ r db)) = Some file_doc
  /\ outcome (get_file file_id) (perform_ r db)
     = outcome (get_file file_id) db.
Proof.
  intros Hfile.
  assert (H : find_one (by_id file_id) (files (perform_ r db))
              = Some file_doc).
  { destruct (decide (Files ∈ writes r)) as [Hw|Hw].
    - destruct r; cbn [writes] in Hw; try solve [exfalso; not_in_list Hw].
      cbn [perform]. unfold state_after, upload_file, bind, db_insert_one.
      cbn [fst snd files set_coll coll].
      apply find_one_app_Some, Hfile.
    - pose proof (perform_frame r db Files Hw) as Heq. cbn [coll] in Heq.
      rewrite Heq. exact Hfile. }
  split; [exact H|].
  apply get_file_reads_files. rewrite H, Hfile. reflexivity.
Qed.

(** X22. What a client lists is their own: every ad request that
    [get_ad_requests] returns to a non-admin, and every subscription that
    [get_my_subscriptions] returns to anyone, has the caller as its
    [client_id]; neither call writes. *)
Theorem listings_confined_to_owner (db : Db) (caller : Payload) :
  (Jwt.role caller <> "admin" ->
   forall l : list AdRequest.t,
     outcome (get_ad_requests caller) db = Ok l ->
     state_after (get_ad_requests caller) db = db
     /\ forall r : AdRequest.t,
          r ∈ l -> AdRequest.client_id r = Jwt.user_id caller)
  /\ (forall l : list Subscription.t,
        outcome (get_my_subscriptions caller) db = Ok l ->
        state_after (get_my_subscriptions caller) db = db
        /\ forall r : Subscription.t,
             r ∈ l -> Subscription.client_id r = Jwt.user_id caller).
Proof.
  split.
  - intros Hclient l Hl.
    pose proof (get_ad_requests_lists db caller) as Hlist.
    apply String.eqb_neq in Hclient. rewrite Hclient in Hlist.
    split; [apply Hlist|]. intros r Hr.
    destruct (lists_newest_1000_source _ _ _ _ _ _ _ Hlist Hl Hr)
      as (d & Hd & Hv).
    apply SortFacts.to_list_subseteq in Hd as [_ Hm].
    apply ad_request_validate_fields in Hv as (_ & Hown & _).
    rewrite (matches_owned_by _ _ _ Hown) in Hm.
    apply String.eqb_eq in Hm. symmetry. exact Hm.
  - intros l Hl.
    pose proof (db_find_then_validate Subscriptions (owned_by caller)
                  Subscription.validate db) as Hlist.
    split; [apply Hlist|]. intros r Hr.
    destruct (lists_newest_1000_source _ _ _ _ _ _ _ Hlist Hl Hr)
      as (d & Hd & Hv).
    apply SortFacts.to_list_subseteq in Hd as [_ Hm].
    apply subscription_validate_fields in Hv as (_ & Hown & _).
    rewrite (matches_owned_by _ _ _ Hown) in Hm.
    apply String.eqb_eq in Hm. symmetry. exact Hm.
Qed.

(** X23. A password of more than 72 bytes is refused only after the
    email check, and before anything is written: with an email nobody
    has, [register] ends in the [ValueError] of [bcrypt.hashpw], a 500,
    and the database is as it was; with an email somebody has, it is the
    400 as for any password. *)
Theorem register_long_password
    (db : Db) (user_data : UserCreate) (uuid4 salt : string)
    (now now' : datetime) :
  (72 < String.length (uc_password user_data))%nat ->
  let call := register JWT_SECRET hmac bcrypt_hashpw user_data uuid4 salt
                now now' in
  let by_email := [("email", CEq (VStr (uc_email user_data)))] in
  (find_one by_email (users db) = None ->
   call db = (db, Raise ValueError) /\ http_status ValueError = 500)
  /\ (forall d : doc,
        find_one by_email (users db) = Some d ->
        call db = (db, Raise (HTTPException 400 "Email already registered"))).
Proof.
  intros Hlong call by_email. split.
  - intros Hnone. split; [|reflexivity].
    unfold call, register, bind, db_find_one. cbn [coll].
    fold by_email. rewrite Hnone. cbn [truthy]. unfold lift.
    rewrite (hash_password_long _ _ _ Hlong). reflexivity.
  - intros d Hd. apply (register_taken _ _ _ _ _ _ _ _ _ _ Hd).
Qed.

End Further.

(** ** The handlers on the concrete deployment *)

(** Closed decidable facts about maps are decided by evaluation. *)
Ltac by_compute := apply (bool_decide_unpack _); vm_compute; exact I.

Lemma verify_payment_cascade_witness :
  let call := with_admin_user Scenario.secret Scenario.mac
                (Scenario.token_of Scenario.root) (Scenario.t0 + 5 * SECOND)
                (fun current_user =>
                   verify_payment "pay-1" current_user
                     (Scenario.t0 + 5 * SECOND)) in
  outcome call Scenario.db_payment = Ok {| success := true |}
  /\ (exists p',
        find_one (by_id "pay-1")
          (payments (state_after call Scenario.db_payment)) = Some p'
        /\ p' !! "status" = Some (VStr "verified")
        /\ p' !! "verified_at"
           = Some (VStr (isoformat (Scenario.t0 + 5 * SECOND))))
  /\ (exists a',
        find_one (by_id "ad-1")
          (ad_requests (state_after call Scenario.db_payment)) = Some a'
        /\ a' !! "status" = Some (VStr "paid")).
Proof.
  intros call.
  destruct (verify_payment_cascade Scenario.secret Scenario.mac
              Scenario.db_payment (Scenario.token_of Scenario.root)
              (Scenario.t0 + 5 * SECOND) (Scenario.t0 + 5 * SECOND)
              Scenario.root "pay-1" Scenario.the_payment Scenario.the_ad
              (VStr "ad-1"))
    as (Hok & Hp & Hs & Hv & Ha & Has).
  - vm_compute. reflexivity.
  - vm_compute. reflexivity.
  - vm_compute. reflexivity.
  - by_compute.
  - vm_compute. reflexivity.
  - vm_compute. reflexivity.
  - by_compute.
  - split; [exact Hok|]. split; eauto.
Defined.

Lemma verify_payment_dangling_witness :
  let call := with_admin_user Scenario.secret Scenario.mac
                (Scenario.token_of Scenario.root) (Scenario.t0 + 5 * SECOND)
                (fun current_user =>
                   verify_payment "pay-1" current_user
                     (Scenario.t0 + 5 * SECOND)) in
  find_one (by_id "ad-1") (ad_requests Scenario.db_dangling) = None
  /\ outcome call Scenario.db_dangling = Ok {| success := true |}
  /\ ad_requests (state_after call Scenario.db_dangling) = [].
Proof.
  intros call. split; [vm_compute; reflexivity|].
  destruct (verify_payment_dangling Scenario.secret Scenario.mac
              Scenario.db_dangling (Scenario.token_of Scenario.root)
              (Scenario.t0 + 5 * SECOND) (Scenario.t0 + 5 * SECOND)
              Scenario.root "pay-1" Scenario.the_payment (VStr "ad-1"))
    as (Hok & Hp & Hs & Hv & Ha).
  - vm_compute. reflexivity.
  - vm_compute. reflexivity.
  - vm_compute. reflexivity.
  - by_compute.
  - vm_compute. reflexivity.
  - vm_compute. reflexivity.
  - vm_compute. reflexivity.
  - split; [exact Hok | exact Ha].
Defined.

(** Bob, who owns nothing, attaches a screenshot to Alice's payment. *)
Lemma upload_payment_screenshot_unchecked_witness :
  let call := with_current_user Scenario.secret Scenario.mac
                (Scenario.token_of Scenario.bob) (Scenario.t0 + 5 * SECOND)
                (upload_payment_screenshot "pay-1" "f-1") in
  find_one [("id", CEq (VStr "ad-1")); ("client_id", CEq (VStr "u-bob"))]
    (ad_requests Scenario.db_payment) = None
  /\ outcome call Scenario.db_payment
     = Ok {| screenshot_success := true; screenshot_url_ := "/api/files/f-1" |}
  /\ (exists p',
        find_one (by_id "pay-1")
          (payments (state_after call Scenario.db_payment)) = Some p'
        /\ p' !! "screenshot_url" = Some (VStr "/api/files/f-1")).
Proof.
  intros call. split; [vm_compute; reflexivity|].
  destruct (upload_payment_screenshot_unchecked Scenario.secret Scenario.mac
              Scenario.db_payment (Scenario.token_of Scenario.bob)
              (Scenario.t0 + 5 * SECOND) Scenario.bob "pay-1" "f-1"
              Scenario.the_payment)
    as (Hok & Hp & Hs & _).
  - vm_compute. reflexivity.
  - vm_compute. reflexivity.
  - by_compute.
  - vm_compute. reflexivity.
  - split; [exact Hok|]. eauto.
Defined.

Lemma subscription_window_fixed_at_creation_witness :
  (exists sub,
     outcome
       (with_current_user Scenario.secret Scenario.mac
          (Scenario.token_of Scenario.alice) (Scenario.t0 + 3 * SECOND)
          (fun current_user =>
             create_subscription syriatel current_user "sub-1"
               (Scenario.t0 + 3 * SECOND)
               (Scenario.t0 + 3 * SECOND + 7 * MICROSECOND)))
       Scenario.db_payment = Ok sub
     /\ Subscription.start_date sub = "2023-11-14T22:13:23+00:00"
     /\ Subscription.end_date sub = "2023-12-14T22:13:23+00:00")
  /\ (let call := with_admin_user Scenario.secret Scenario.mac
                    (Scenario.token_of Scenario.root)
                    (Scenario.t0 + 20 * DAY)
                    (verify_subscription "sub-1") in
      outcome call Scenario.db_sub = Ok {| success := true |}
      /\ exists s',
           find_one (by_id "sub-1")
             (subscriptions (state_after call Scenario.db_sub)) = Some s'
           /\ s' !! "status" = Some (VStr "active")
           /\ s' !! "end_date" = Some (VStr "2023-12-14T22:13:23+00:00")).
Proof.
  destruct (subscription_window_fixed_at_creation Scenario.secret Scenario.mac)
    as [Hcreate Hverify].
  split.
  - destruct (Hcreate Scenario.db_payment (Scenario.token_of Scenario.alice)
                (Scenario.t0 + 3 * SECOND) Scenario.alice syriatel "sub-1"
                (Scenario.t0 + 3 * SECOND)
                (Scenario.t0 + 3 * SECOND + 7 * MICROSECOND)
                (default ∅ (users Scenario.db_payment !! 0%nat)) "A" "a@x.com")
      as (sub & stored & Hok & Hstart & Hend & _).
    + vm_compute. reflexivity.
    + by_compute.
    + vm_compute. reflexivity.
    + vm_compute. reflexivity.
    + vm_compute. reflexivity.
    + exists sub. split; [exact Hok|]. split.
      * rewrite Hstart. vm_compute. reflexivity.
      * rewrite Hend. vm_compute. reflexivity.
  - intros call.
    destruct (Hverify Scenario.db_sub (Scenario.token_of Scenario.root)
                (Scenario.t0 + 20 * DAY) Scenario.root "sub-1"
                Scenario.the_sub)
      as (Hok & Hs & Hst & _ & Hend).
    + vm_compute. reflexivity.
    + vm_compute. reflexivity.
    + vm_compute. reflexivity.
    + by_compute.
    + vm_compute. reflexivity.
    + split; [exact Hok|]. eexists. split; [exact Hs|].
      split; [exact Hst|]. rewrite Hend. vm_compute. reflexivity.
Defined.

Lemma get_admin_settings_lazy_singleton_witness :
  let db' := state_after get_admin_settings Scenario.db_payment in
  outcome get_admin_settings Scenario.db_payment
  = Ok {| AdminSettings.sham_cash_qr := ""; AdminSettings.syriatel_qr := "" |}
  /\ state_after get_admin_settings db' = db'
  /\ length (admin_settings db') = 1%nat.
Proof.
  intros db'.
  destruct (get_admin_settings_lazy_singleton Scenario.db_payment)
    as (Hfirst & _ & _ & Hfix & _ & Hlen).
  - vm_compute. reflexivity.
  - split; [exact Hfirst|]. split; [exact Hfix | exact Hlen].
Defined.

Lemma upload_then_get_file_witness :
  let upload := with_current_user Scenario.secret Scenario.mac
                  (Scenario.token_of Scenario.alice)
                  (Scenario.t0 + 4 * SECOND)
                  (fun current_user =>
                     upload_file [x89; x50; x4e; x47; x00; xff; x0a]
                       (Some "proof.png") (Some "image/png") current_user
                       "f-1" (Scenario.t0 + 4 * SECOND)) in
  let db' := state_after upload Scenario.db_payment in
  outcome upload Scenario.db_payment
  = Ok {| file_id_ := "f-1"; url_ := "/api/files/f-1" |}
  /\ get_file "f-1" db'
     = (db', Ok {| content := [x89; x50; x4e; x47; x00; xff; x0a];
                   media_type := VStr "image/png" |})
  /\ get_file "f-2" db'
     = (db', Raise (HTTPException 404 "File not found")).
Proof.
  intros upload db'.
  destruct (upload_then_get_file Scenario.secret Scenario.mac
              Scenario.db_payment (Scenario.token_of Scenario.alice)
              (Scenario.t0 + 4 * SECOND) Scenario.alice
              [x89; x50; x4e; x47; x00; xff; x0a]
              (Some "proof.png") (Some "image/png") "f-1"
              (Scenario.t0 + 4 * SECOND))
    as (Hup & _ & Hget & Hmiss).
  - vm_compute. reflexivity.
  - vm_compute. reflexivity.
  - split; [exact Hup|]. split; [exact Hget|].
    apply Hmiss. vm_compute. reflexivity.
Defined.

Lemma token_round_trip_witness :
  exists tok : token,
    create_token Scenario.secret Scenario.mac "u-alice" "a@x.com" "client"
      Scenario.t0 = Ok tok
    /\ get_current_user Scenario.secret Scenario.mac tok
         (Scenario.t0 + 29 * DAY)
       = Ok Scenario.alice
    /\ get_current_user Scenario.secret Scenario.mac tok
         (Scenario.t0 + 30 * DAY)
       = Raise (HTTPException 401 "Invalid authentication").
Proof.
  destruct (token_round_trip Scenario.secret Scenario.mac
              "u-alice" "a@x.com" "client" Scenario.t0)
    as (tok & Hmake & Hvalid & Hexpired & _).
  - vm_compute. reflexivity.
  - exists tok. split; [exact Hmake|]. split.
    + destruct (Hvalid (Scenario.t0 + 29 * DAY)) as (payload & Hdec & H).
      * vm_compute. reflexivity.
      * rewrite Hdec. destruct payload as [u e r x].
        cbn in H. destruct H as (-> & -> & -> & ->). reflexivity.
    + apply Hexpired. vm_compute. discriminate.
Defined.

(** The example of the specification: registering [a@x.com] succeeds with
    role "client", registering it again is a 400. *)
Lemma register_email_once_witness :
  let user_data := {| uc_email := "a@x.com"; uc_password := "p";
                      uc_name := "A"; uc_phone := "1" |} in
  let first := register Scenario.secret Scenario.mac Scenario.hashpw
                 user_data "u-alice" "salt" Scenario.t0 Scenario.t0 in
  let again := register Scenario.secret Scenario.mac Scenario.hashpw
                 user_data "u-other" "pepper" (Scenario.t0 + 9 * SECOND)
                 (Scenario.t0 + 9 * SECOND) in
  (exists response,
     outcome first empty_db = Ok response
     /\ User.role (user_ response) = "client")
  /\ outcome again (state_after first empty_db)
     = Raise (HTTPException 400 "Email already registered")
  /\ state_after again (state_after first empty_db)
     = state_after first empty_db.
Proof.
  intros user_data first again. split.
  - destruct (register_email_once Scenario.secret Scenario.mac
                Scenario.hashpw empty_db user_data "u-alice" "salt"
                Scenario.t0 Scenario.t0) as [_ Hnew].
    destruct Hnew as (Hok & _).
    + intros d Hd. inversion Hd.
    + apply Nat.leb_le. reflexivity.
    + vm_compute. reflexivity.
    + eexists. split; [exact Hok | reflexivity].
  - destruct (register_email_once Scenario.secret Scenario.mac
                Scenario.hashpw (state_after first empty_db) user_data
                "u-other" "pepper" (Scenario.t0 + 9 * SECOND)
                (Scenario.t0 + 9 * SECOND)) as [Htaken _].
    destruct (Htaken (default ∅ (users (state_after first empty_db) !! 0%nat)))
      as (Hout & _ & Hdb).
    + by_compute.
    + vm_compute. reflexivity.
    + split; [exact Hout | exact Hdb].
Defined.

(** C2 as stated fails on a long password: nobody has the email, yet
    with a password of 73 bytes [register] ends in the [ValueError] of
    [bcrypt.hashpw], a 500, and no user is stored. *)
Lemma register_email_once_counterexample :
  let user_data :=
    {| uc_email := "a@x.com";
       uc_password :=
         "correct horse battery staple, correct horse battery staple, and then some";
       uc_name := "A"; uc_phone := "1" |} in
  let call := register Scenario.secret Scenario.mac Scenario.hashpw
                user_data "u-alice" "salt" Scenario.t0 Scenario.t0 in
  String.length (uc_password user_data) = 73%nat
  /\ find_one [("email", CEq (VStr "a@x.com"))] (users empty_db) = None
  /\ clock_ok Scenario.t0
  /\ outcome call empty_db = Raise ValueError
  /\ http_status ValueError = 500
  /\ users (state_after call empty_db) = [].
Proof.
  intros user_data call. repeat split; vm_compute; reflexivity.
Qed.

(** Alice owns 1001 ad requests and is shown 1000 of them; the one left
    out is the oldest, [ad-0000]. *)
Lemma list_operations_capped_witness :
  exists l : list AdRequest.t,
    outcome (get_ad_requests Scenario.alice) Scenario.db_many = Ok l
    /\ length l = 1000%nat
    /\ length (find (owned_by Scenario.alice) (ad_requests Scenario.db_many))
       = 1001%nat
    /\ Scenario.first_ad_record ∉ l.
Proof.
  destruct (list_operations_capped Scenario.db_many Scenario.alice)
    as (Hads & _).
  change (if String.eqb (Jwt.role Scenario.alice) "admin"
          then [] else owned_by Scenario.alice)
    with (owned_by Scenario.alice) in Hads.
  destruct (RunFacts.returns_newest_1000_returns _ _ _ _ _ Hads) as [l Hl].
  { vm_compute. reflexivity. }
  assert (Hcount : length (find (owned_by Scenario.alice)
                             (ad_requests Scenario.db_many)) = 1001%nat).
  { vm_compute. reflexivity. }
  exists l. split; [exact Hl|]. split; [|split; [exact Hcount|]].
  - destruct Hads as (_ & _ & Hlen). destruct (Hlen l Hl) as [_ ->].
    exact (f_equal (Nat.min 1000) Hcount).
  - apply (RunFacts.returns_newest_1000_hides _ _ _ _ Scenario.first_ad
             _ _ Hads); [vm_compute; reflexivity | | exact Hl].
    apply Nat.leb_le. vm_compute. reflexivity.
Defined.

(** C4 as stated fails on the cap: Alice created [ad-0000] and can fetch
    it, yet neither her list of ad requests nor an admin's contains it,
    because 1000 newer ones exist. *)
Lemma ad_request_visibility_counterexample :
  Scenario.first_ad ∈ ad_requests Scenario.db_many
  /\ Scenario.first_ad !! "client_id"
     = Some (VStr (Jwt.user_id Scenario.alice))
  /\ outcome (get_ad_request "ad-0000" Scenario.alice) Scenario.db_many
     = Ok Scenario.first_ad_record
  /\ (exists l,
        outcome (get_ad_requests Scenario.alice) Scenario.db_many = Ok l
        /\ Scenario.first_ad_record ∉ l)
  /\ (exists l,
        outcome (get_ad_requests Scenario.root) Scenario.db_many = Ok l
        /\ Scenario.first_ad_record ∉ l).
Proof.
  split; [by_compute|]. split; [vm_compute; reflexivity|].
  split; [vm_compute; reflexivity|].
  pose proof (RunFacts.get_ad_requests_lists Scenario.db_many Scenario.alice)
    as Halice.
  pose proof (RunFacts.get_ad_requests_lists Scenario.db_many Scenario.root)
    as Hroot.
  change (if String.eqb (Jwt.role Scenario.alice) "admin"
          then [] else owned_by Scenario.alice)
    with (owned_by Scenario.alice) in Halice.
  change (if String.eqb (Jwt.role Scenario.root) "admin"
          then [] else owned_by Scenario.root)
    with (@nil (string * cond)) in Hroot.
  split.
  - destruct (RunFacts.lists_newest_1000_returns _ _ _ _ _ Halice)
      as [l Hl]; [vm_compute; reflexivity|].
    exists l. split; [exact Hl|].
    apply (RunFacts.lists_newest_1000_hides _ _ _ _ Scenario.first_ad
             _ _ Halice); [vm_compute; reflexivity | | exact Hl].
    apply Nat.leb_le. vm_compute. reflexivity.
  - destruct (RunFacts.lists_newest_1000_returns _ _ _ _ _ Hroot)
      as [l Hl]; [vm_compute; reflexivity|].
    exists l. split; [exact Hl|].
    apply (RunFacts.lists_newest_1000_hides _ _ _ _ Scenario.first_ad
             _ _ Hroot); [vm_compute; reflexivity | | exact Hl].
    apply Nat.leb_le. vm_compute. reflexivity.
Qed.

(** With three ad requests the lists are complete: Alice and the admin
    see [ad-0000], Bob gets a 404 and an empty list. *)
Lemma ad_request_visibility_witness :
  let db := Scenario.post_ads 3 Scenario.db_users in
  get_ad_request "ad-0000" Scenario.alice db
  = (db, Ok Scenario.first_ad_record)
  /\ (exists l, outcome (get_ad_requests Scenario.alice) db = Ok l
                /\ Scenario.first_ad_record ∈ l)
  /\ get_ad_request "ad-0000" Scenario.bob db
     = (db, Raise (HTTPException 404 "Ad request not found"))
  /\ get_ad_request "ad-9999" Scenario.bob db
     = (db, Raise (HTTPException 404 "Ad request not found"))
  /\ outcome (get_ad_requests Scenario.bob) db = Ok []
  /\ get_ad_request "ad-0000" Scenario.root db
     = (db, Ok Scenario.first_ad_record)
  /\ (exists l, outcome (get_ad_requests Scenario.root) db = Ok l
                /\ Scenario.first_ad_record ∈ l).
Proof.
  intros db.
  destruct (ad_request_visibility db Scenario.first_ad
              Scenario.first_ad_record "ad-0000" Scenario.alice Scenario.bob
              Scenario.root)
    as (Hget & Hlist & Hbob & Hmissing & _ & Hadmin & Hall).
  - vm_compute. reflexivity.
  - by_compute.
  - vm_compute. reflexivity.
  - vm_compute. reflexivity.
  - vm_compute. reflexivity.
  - vm_compute. discriminate.
  - vm_compute. discriminate.
  - vm_compute. discriminate.
  - vm_compute. reflexivity.
  - split; [exact Hget|]. split.
    { apply Hlist; [vm_compute; reflexivity|].
      apply Nat.leb_le. vm_compute. reflexivity. }
    split; [exact Hbob|]. split.
    { apply Hmissing. vm_compute. reflexivity. }
    split; [vm_compute; reflexivity|]. split; [exact Hadmin|].
    apply Hall; [vm_compute; reflexivity|].
    apply Nat.leb_le. vm_compute. reflexivity.
Defined.

(** ** Further runs on the concrete deployment *)

(** Alice's token is turned away from an admin route with a 403, and
    after its expiry from every route with a 401. *)
Lemma dependencies_guard_handlers_witness :
  with_admin_user Scenario.secret Scenario.mac
    (Scenario.token_of Scenario.alice) (Scenario.t0 + 5 * SECOND)
    (fun current_user =>
       verify_payment "pay-1" current_user (Scenario.t0 + 5 * SECOND))
    Scenario.db_payment
  = (Scenario.db_payment, Raise (HTTPException 403 "Admin access required"))
  /\ with_current_user Scenario.secret Scenario.mac
       (Scenario.token_of Scenario.alice) (Scenario.t0 + 31 * DAY)
       get_me Scenario.db_payment
     = (Scenario.db_payment,
        Raise (HTTPException 401 "Invalid authentication")).
Proof.
  split.
  - destruct (dependencies_guard_handlers Scenario.secret Scenario.mac
                (Scenario.token_of Scenario.alice) (Scenario.t0 + 5 * SECOND)
                (fun current_user =>
                   verify_payment "pay-1" current_user
                     (Scenario.t0 + 5 * SECOND))
                Scenario.db_payment) as [_ H].
    destruct (H Scenario.alice) as (_ & H403 & _); [vm_compute; reflexivity|].
    apply H403. discriminate.
  - destruct (dependencies_guard_handlers Scenario.secret Scenario.mac
                (Scenario.token_of Scenario.alice) (Scenario.t0 + 31 * DAY)
                get_me Scenario.db_payment) as [H _].
    destruct (H (HTTPException 401 "Invalid authentication"))
      as (_ & H401 & _); [vm_compute; reflexivity|].
    exact H401.
Defined.

Lemma missing_target_is_404_witness :
  add_photos "ad-9" ["f-1"] Scenario.bob Scenario.db_payment
  = (Scenario.db_payment, Raise (HTTPException 404 "Ad request not found"))
  /\ verify_payment "pay-9" Scenario.root (Scenario.t0 + 5 * SECOND)
       Scenario.db_payment
     = (Scenario.db_payment, Raise (HTTPException 404 "Payment not found"))
  /\ verify_subscription "sub-9" Scenario.root Scenario.db_payment
     = (Scenario.db_payment,
        Raise (HTTPException 404 "Subscription not found")).
Proof.
  destruct (missing_target_is_404 Scenario.db_payment "ad-9" Scenario.bob)
    as (Hads & _ & _).
  destruct (missing_target_is_404 Scenario.db_payment "pay-9" Scenario.root)
    as (_ & Hpay & _).
  destruct (missing_target_is_404 Scenario.db_payment "sub-9" Scenario.root)
    as (_ & _ & Hsub).
  destruct Hads as [Hads _]; [vm_compute; reflexivity|].
  destruct Hpay as [_ Hpay]; [vm_compute; reflexivity|].
  destruct Hsub as [_ Hsub]; [vm_compute; reflexivity|].
  split; [apply Hads|]. split; [apply Hpay | exact Hsub].
Defined.

(** Alice replaces the photos of [ad-1] by two files that do not exist;
    Bob is told there is no such ad request. *)
Lemma add_photos_owner_replaces_witness :
  outcome (add_photos "ad-1" ["f-1"; "f-2"] Scenario.alice) Scenario.db_payment
  = Ok {| photos_success := true;
          photos_ := ["/api/files/f-1"; "/api/files/f-2"] |}
  /\ add_photos "ad-1" ["f-1"; "f-2"] Scenario.bob Scenario.db_payment
     = (Scenario.db_payment, Raise (HTTPException 404 "Ad request not found")).
Proof.
  split.
  - destruct (add_photos_owner_replaces Scenario.db_payment Scenario.the_ad
                "ad-1" "u-alice" ["f-1"; "f-2"] Scenario.alice)
      as [Hown _].
    + vm_compute. reflexivity.
    + by_compute.
    + vm_compute. reflexivity.
    + vm_compute. reflexivity.
    + destruct Hown as [Hok _]; [reflexivity | exact Hok].
  - destruct (add_photos_owner_replaces Scenario.db_payment Scenario.the_ad
                "ad-1" "u-alice" ["f-1"; "f-2"] Scenario.bob)
      as [_ Hother].
    + vm_compute. reflexivity.
    + by_compute.
    + vm_compute. reflexivity.
    + vm_compute. reflexivity.
    + apply Hother. discriminate.
Defined.

Lemma update_ad_status_free_form_witness :
  let call := with_admin_user Scenario.secret Scenario.mac
                (Scenario.token_of Scenario.root) (Scenario.t0 + 5 * SECOND)
                (update_ad_status "ad-1" "whatever") in
  outcome call Scenario.db_payment = Ok {| success := true |}
  /\ exists a',
       find_one (by_id "ad-1")
         (ad_requests (state_after call Scenario.db_payment)) = Some a'
       /\ a' !! "status" = Some (VStr "whatever").
Proof.
  intros call.
  destruct (update_ad_status_free_form Scenario.secret Scenario.mac
              Scenario.db_payment (Scenario.token_of Scenario.root)
              (Scenario.t0 + 5 * SECOND) Scenario.root Scenario.the_ad
              "ad-1" "whatever")
    as (Hok & Hfind & Hstatus & _).
  - vm_compute. reflexivity.
  - vm_compute. reflexivity.
  - vm_compute. reflexivity.
  - by_compute.
  - vm_compute. reflexivity.
  - split; [exact Hok|]. eexists. split; [exact Hfind | exact Hstatus].
Defined.

(** Alice pays for her ad request; the admin cannot do it for her. *)
Lemma create_payment_owner_only_witness :
  let payment_data :=
    {| pc_ad_request_id := "ad-1"; pc_payment_method := sham_cash |} in
  outcome (create_payment payment_data Scenario.alice "pay-1"
             (Scenario.t0 + 2 * SECOND)) Scenario.db_ad
  = Ok Accounts.the_payment_record
  /\ create_payment payment_data Scenario.root "pay-1"
       (Scenario.t0 + 2 * SECOND) Scenario.db_ad
     = (Scenario.db_ad, Raise (HTTPException 404 "Ad request not found")).
Proof.
  intros payment_data. split.
  - destruct (create_payment_owner_only Scenario.db_ad Scenario.the_ad
                "ad-1" "u-alice" sham_cash Scenario.alice "pay-1"
                (Scenario.t0 + 2 * SECOND)) as [Hown _].
    + vm_compute. reflexivity.
    + by_compute.
    + vm_compute. reflexivity.
    + vm_compute. reflexivity.
    + destruct Hown as [Hok _]; [reflexivity | exact Hok].
  - destruct (create_payment_owner_only Scenario.db_ad Scenario.the_ad
                "ad-1" "u-alice" sham_cash Scenario.root "pay-1"
                (Scenario.t0 + 2 * SECOND)) as [_ Hother].
    + vm_compute. reflexivity.
    + by_compute.
    + vm_compute. reflexivity.
    + vm_compute. reflexivity.
    + apply Hother. discriminate.
Defined.

Lemma upload_subscription_screenshot_owner_only_witness :
  outcome (upload_subscription_screenshot "sub-1" "f-1" Scenario.alice)
    Scenario.db_sub
  = Ok {| screenshot_success := true; screenshot_url_ := "/api/files/f-1" |}
  /\ upload_subscription_screenshot "sub-1" "f-1" Scenario.bob Scenario.db_sub
     = (Scenario.db_sub, Raise (HTTPException 404 "Subscription not found")).
Proof.
  split.
  - destruct (upload_subscription_screenshot_owner_only Scenario.db_sub
                Scenario.the_sub "sub-1" "u-alice" "f-1" Scenario.alice)
      as [Hown _].
    + vm_compute. reflexivity.
    + by_compute.
    + vm_compute. reflexivity.
    + vm_compute. reflexivity.
    + destruct Hown as [Hok _]; [reflexivity | exact Hok].
  - destruct (upload_subscription_screenshot_owner_only Scenario.db_sub
                Scenario.the_sub "sub-1" "u-alice" "f-1" Scenario.bob)
      as [_ Hother].
    + vm_compute. reflexivity.
    + by_compute.
    + vm_compute. reflexivity.
    + vm_compute. reflexivity.
    + apply Hother. discriminate.
Defined.

Lemma get_payments_confined_witness :
  outcome (get_payments Scenario.alice) Scenario.db_payment
  = Ok [Accounts.the_payment_record]
  /\ forall r : Payment.t, r ∈ [Accounts.the_payment_record] ->
       exists a : doc,
         a ∈ ad_requests Scenario.db_payment
         /\ matches (owned_by Scenario.alice) a = true
         /\ a !! "id" = Some (VStr (Payment.ad_request_id r)).
Proof.
  assert (Hl : outcome (get_payments Scenario.alice) Scenario.db_payment
               = Ok [Accounts.the_payment_record]).
  { vm_compute. reflexivity. }
  split; [exact Hl|].
  destruct (get_payments_confined Scenario.db_payment Scenario.alice
              [Accounts.the_payment_record]) as [_ H].
  - discriminate.
  - exact Hl.
  - exact H.
Defined.

(** Verifying a payment leaves the users alone. *)
Lemma requests_write_only_their_collections_witness :
  users (Accounts.run
           (VerifyPayment "pay-1" Scenario.root (Scenario.t0 + 5 * SECOND))
           Scenario.db_payment)
  = users Scenario.db_payment
  /\ Accounts.run (GetPayments Scenario.alice) Scenario.db_payment
     = Scenario.db_payment.
Proof.
  split.
  - apply (proj1 (requests_write_only_their_collections Scenario.secret
                    Scenario.mac Scenario.hashpw Accounts.checkpw
                    (VerifyPayment "pay-1" Scenario.root
                       (Scenario.t0 + 5 * SECOND))
                    Scenario.db_payment) Users).
    by_compute.
  - apply (proj2 (requests_write_only_their_collections Scenario.secret
                    Scenario.mac Scenario.hashpw Accounts.checkpw
                    (GetPayments Scenario.alice) Scenario.db_payment)).
    reflexivity.
Defined.

Lemma requests_keep_ids_unique_witness : ids_unique Accounts.db_api.
Proof.
  apply (proj2 (requests_keep_ids_unique Scenario.secret Scenario.mac
                  Scenario.hashpw Accounts.checkpw)).
  unfold Accounts.db_api, Accounts.run.
  repeat (apply reachable_step;
          [|first [exact I | vm_compute; reflexivity]]).
  apply reachable_empty.
Defined.

Lemma requests_keep_payments_attached_witness : no_dangling Accounts.db_api.
Proof.
  apply (proj2 (requests_keep_payments_attached Scenario.secret Scenario.mac
                  Scenario.hashpw Accounts.checkpw)).
  unfold Accounts.db_api, Accounts.run.
  repeat (apply reachable_step;
          [|first [exact I | vm_compute; reflexivity]]).
  apply reachable_empty.
Defined.


(** Alice logs in a day after signing up; her token opens no admin
    route. *)
Lemma api_makes_no_admin_witness :
  users_are_clients Accounts.db_api
  /\ outcome (login Scenario.secret Scenario.mac Accounts.checkpw
                Accounts.alice_login (Scenario.t0 + 1 * DAY)) Accounts.db_api
     = Ok Accounts.login_response
  /\ exists e : exn,
       with_admin_user Scenario.secret Scenario.mac
         (token_ Accounts.login_response) (Scenario.t0 + 2 * DAY)
         (update_ad_status "ad-1" "approved") Accounts.db_api
       = (Accounts.db_api, Raise e)
       /\ (e = HTTPException 401 "Invalid authentication"
           \/ e = HTTPException 403 "Admin access required").
Proof.
  assert (Hreach : reachable Scenario.secret Scenario.mac Scenario.hashpw
                     Accounts.checkpw Accounts.db_api).
  { unfold Accounts.db_api, Accounts.run.
    repeat (apply reachable_step;
            [|first [exact I | vm_compute; reflexivity]]).
    apply reachable_empty. }
  assert (Hlogin : outcome (login Scenario.secret Scenario.mac
                              Accounts.checkpw Accounts.alice_login
                              (Scenario.t0 + 1 * DAY)) Accounts.db_api
                   = Ok Accounts.login_response).
  { vm_compute. reflexivity. }
  destruct (api_makes_no_admin Scenario.secret Scenario.mac Scenario.hashpw
              Accounts.checkpw) as (_ & H & _).
  destruct (H Accounts.db_api Hreach) as [Hclients Htoken].
  split; [exact Hclients|]. split; [exact Hlogin|].
  apply (Htoken _ _ _ Hlogin).
Defined.

(** The admin sets the Syriatel code after the Sham Cash code: both are
    read back. *)
Lemma update_admin_settings_read_back_witness :
  let update := update_admin_settings
                  {| AdminSettingsUpdate.sham_cash_qr := None;
                     AdminSettingsUpdate.syriatel_qr :=
                       Some "/api/files/qr-2" |} Scenario.root in
  outcome get_admin_settings Accounts.db_settings
  = Ok {| AdminSettings.sham_cash_qr := "/api/files/qr-1";
          AdminSettings.syriatel_qr := "" |}
  /\ outcome update Accounts.db_settings = Ok {| success := true |}
  /\ outcome get_admin_settings (state_after update Accounts.db_settings)
     = Ok {| AdminSettings.sham_cash_qr := "/api/files/qr-1";
             AdminSettings.syriatel_qr := "/api/files/qr-2" |}.
Proof.
  intros update.
  assert (Hold : outcome get_admin_settings Accounts.db_settings
                 = Ok {| AdminSettings.sham_cash_qr := "/api/files/qr-1";
                         AdminSettings.syriatel_qr := "" |}).
  { vm_compute. reflexivity. }
  assert (Hok : settings_ok Accounts.db_settings).
  { split; [apply Nat.leb_le; vm_compute; reflexivity | by_compute]. }
  split; [exact Hold|].
  destruct (update_admin_settings_read_back Accounts.db_settings
              {| AdminSettingsUpdate.sham_cash_qr := None;
                 AdminSettingsUpdate.syriatel_qr := Some "/api/files/qr-2" |}
              Scenario.root _ Hok Hold) as (Hrun & Hget & _).
  split; [exact Hrun | exact Hget].
Defined.

(** Alice sends [other_info] null: a 500, yet the ad request is stored
    and from then on breaks her list, the admin's list and the fetch. *)
Lemma create_ad_request_null_other_info_witness :
  let call := create_ad_request Accounts.null_ad_data Scenario.alice "ad-1"
                (Scenario.t0 + 1 * SECOND) in
  let db' := state_after call Scenario.db_users in
  outcome call Scenario.db_users = Raise (ValidationError "other_info")
  /\ get_ad_request "ad-1" Scenario.root db'
     = (db', Raise (ValidationError "other_info"))
  /\ (exists e, outcome (get_ad_requests Scenario.alice) db' = Raise e)
  /\ (exists e, outcome (get_ad_requests Scenario.root) db' = Raise e).
Proof.
  intros call db'.
  destruct (create_ad_request_null_other_info Scenario.db_users
              Accounts.null_ad_data Scenario.alice "ad-1"
              (Scenario.t0 + 1 * SECOND)
              (default ∅ (users Scenario.db_users !! 0%nat)) "A" "a@x.com")
    as (Hout & _ & _ & Hcallers).
  - by_compute.
  - vm_compute. reflexivity.
  - vm_compute. reflexivity.
  - reflexivity.
  - vm_compute. reflexivity.
  - split; [exact Hout|].
    destruct (Hcallers Scenario.root) as [Hget Hroot]; [left; reflexivity|].
    destruct (Hcallers Scenario.alice) as [_ Halice]; [right; reflexivity|].
    split; [exact Hget|]. split.
    + apply Halice. apply Nat.ltb_lt. vm_compute. reflexivity.
    + apply Hroot. apply Nat.ltb_lt. vm_compute. reflexivity.
Defined.

(** Alice's ad request carries the name and email she registered with; a
    caller whose user document is gone gets an error. *)
Lemma create_ad_request_snapshots_caller_witness :
  let ghost := Scenario.claims "u-ghost" "g@x.com" "client" in
  outcome (create_ad_request Scenario.ad_data Scenario.alice "ad-1"
             (Scenario.t0 + 1 * SECOND)) Scenario.db_users
  = Ok Accounts.the_ad_record
  /\ create_ad_request Scenario.ad_data ghost "ad-1"
       (Scenario.t0 + 1 * SECOND) Scenario.db_users
     = (Scenario.db_users, Raise TypeError).
Proof.
  intros ghost. split.
  - destruct (create_ad_request_snapshots_caller Scenario.db_users
                Scenario.ad_data Scenario.alice "ad-1"
                (Scenario.t0 + 1 * SECOND)) as [Hown _].
    destruct (Hown (default ∅ (users Scenario.db_users !! 0%nat))
                "A" "a@x.com" "") as (Hok & _).
    + by_compute.
    + vm_compute. reflexivity.
    + vm_compute. reflexivity.
    + reflexivity.
    + vm_compute. reflexivity.
    + exact Hok.
  - destruct (create_ad_request_snapshots_caller Scenario.db_users
                Scenario.ad_data ghost "ad-1"
                (Scenario.t0 + 1 * SECOND)) as [_ Hmissing].
    apply Hmissing. vm_compute. reflexivity.
Defined.

Lemma register_then_get_me_witness :
  let call := register Scenario.secret Scenario.mac Scenario.hashpw
                Accounts.alice_data "u-alice" "salt" Scenario.t0 Scenario.t0 in
  let db' := state_after call empty_db in
  outcome call empty_db = Ok Accounts.alice_response
  /\ with_current_user Scenario.secret Scenario.mac
       (token_ Accounts.alice_response) (Scenario.t0 + 29 * DAY) get_me db'
     = (db', Ok Accounts.alice_user).
Proof.
  intros call db'.
  assert (Hout : outcome call empty_db = Ok Accounts.alice_response).
  { vm_compute. reflexivity. }
  split; [exact Hout|].
  apply (register_then_get_me Scenario.secret Scenario.mac Scenario.hashpw
           empty_db Accounts.alice_data "u-alice" "salt" Scenario.t0
           Scenario.t0 Accounts.alice_response Hout).
  - reflexivity.
  - vm_compute. reflexivity.
Defined.

Lemma register_then_login_witness :
  let call := register Scenario.secret Scenario.mac Scenario.hashpw
                Accounts.alice_data "u-alice" "salt" Scenario.t0 Scenario.t0 in
  let db' := state_after call empty_db in
  login Scenario.secret Scenario.mac Accounts.checkpw Accounts.alice_login
    (Scenario.t0 + 1 * DAY) db'
  = (db', Ok Accounts.login_response).
Proof.
  intros call db'.
  apply (register_then_login Scenario.secret Scenario.mac Scenario.hashpw
           Accounts.checkpw empty_db Accounts.alice_data "u-alice" "salt"
           Scenario.t0 Scenario.t0 Accounts.alice_response
           Accounts.alice_login (Scenario.t0 + 1 * DAY)).
  - vm_compute. reflexivity.
  - reflexivity.
  - vm_compute. reflexivity.
  - vm_compute. reflexivity.
Defined.

(** An unknown email and a wrong password are answered alike. *)
Lemma login_failures_look_alike_witness :
  outcome (login Scenario.secret Scenario.mac Accounts.checkpw
             Accounts.stranger (Scenario.t0 + 1 * DAY)) Scenario.db_users
  = Raise (HTTPException 401 "Invalid credentials")
  /\ outcome (login Scenario.secret Scenario.mac Accounts.checkpw
                Accounts.wrong_password (Scenario.t0 + 1 * DAY))
       Scenario.db_users
     = Raise (HTTPException 401 "Invalid credentials").
Proof.
  split.
  - destruct (login_failures_look_alike Scenario.secret Scenario.mac
                Accounts.checkpw Scenario.db_users Accounts.stranger
                (Scenario.t0 + 1 * DAY)) as (Hunknown & _ & _).
    apply Hunknown. vm_compute. reflexivity.
  - destruct (login_failures_look_alike Scenario.secret Scenario.mac
                Accounts.checkpw Scenario.db_users Accounts.wrong_password
                (Scenario.t0 + 1 * DAY)) as (_ & Hwrong & _).
    apply (Hwrong (default ∅ (users Scenario.db_users !! 0%nat)) "salt$p").
    + by_compute.
    + vm_compute. reflexivity.
    + vm_compute. reflexivity.
Defined.

(** Alice's three ad requests come back newest first. *)
Lemma list_operations_newest_first_witness :
  let db := Scenario.post_ads 3 Scenario.db_users in
  exists l : list AdRequest.t,
    outcome (get_ad_requests Scenario.alice) db = Ok l
    /\ length l = 3%nat
    /\ newest_first AdRequest.created_at l
    /\ latest_first AdRequest.created_at l.
Proof.
  intros db.
  pose proof (RunFacts.get_ad_requests_lists db Scenario.alice) as Hads.
  change (if String.eqb (Jwt.role Scenario.alice) "admin"
          then [] else owned_by Scenario.alice)
    with (owned_by Scenario.alice) in Hads.
  destruct (RunFacts.lists_newest_1000_returns _ _ _ _ _ Hads) as [l Hl].
  { vm_compute. reflexivity. }
  exists l. split; [exact Hl|]. split.
  - destruct Hads as (_ & _ & Hlen). destruct (Hlen l Hl) as [_ ->].
    vm_compute. reflexivity.
  - destruct (list_operations_newest_first db Scenario.alice) as (Hsorted & _).
    apply Hsorted, Hl.
Defined.

(** Bob uploads under the identifier Alice's file has: her file is still
    what [f-1] resolves to. *)
Lemma files_are_write_once_witness :
  outcome (get_file "f-1")
    (Accounts.run (Accounts.upload [x00] Scenario.bob) Accounts.db_file)
  = outcome (get_file "f-1") Accounts.db_file.
Proof.
  destruct (files_are_write_once Scenario.secret Scenario.mac Scenario.hashpw
              Accounts.checkpw (Accounts.upload [x00] Scenario.bob)
              Accounts.db_file "f-1"
              (default ∅ (files Accounts.db_file !! 0%nat))) as [_ H].
  - by_compute.
  - exact H.
Defined.

(** Alice lists her three ad requests, Bob none; all are Alice's. *)
Lemma listings_confined_to_owner_witness :
  let db := Scenario.post_ads 3 Scenario.db_users in
  (exists l : list AdRequest.t,
     outcome (get_ad_requests Scenario.alice) db = Ok l
     /\ length l = 3%nat
     /\ forall r : AdRequest.t, r ∈ l -> AdRequest.client_id r = "u-alice")
  /\ outcome (get_ad_requests Scenario.bob) db = Ok [].
Proof.
  intros db. split; [|vm_compute; reflexivity].
  pose proof (RunFacts.get_ad_requests_lists db Scenario.alice) as Hads.
  change (if String.eqb (Jwt.role Scenario.alice) "admin"
          then [] else owned_by Scenario.alice)
    with (owned_by Scenario.alice) in Hads.
  destruct (RunFacts.lists_newest_1000_returns _ _ _ _ _ Hads) as [l Hl].
  { vm_compute. reflexivity. }
  exists l. split; [exact Hl|]. split.
  - destruct Hads as (_ & _ & Hlen). destruct (Hlen l Hl) as [_ ->].
    vm_compute. reflexivity.
  - destruct (listings_confined_to_owner db Scenario.alice) as [Hown _].
    destruct (Hown ltac:(discriminate) l Hl) as [_ H]. exact H.
Defined.

(** A passphrase of 73 bytes: a 500 for a new email, the usual 400 for
    Alice's. *)
Lemma register_long_password_witness :
  let user_data (email : string) :=
    {| uc_email := email;
       uc_password :=
         "correct horse battery staple, correct horse battery staple, and then some";
       uc_name := "C"; uc_phone := "3" |} in
  register Scenario.secret Scenario.mac Scenario.hashpw (user_data "c@x.com")
    "u-carol" "salt" Scenario.t0 Scenario.t0 Scenario.db_users
  = (Scenario.db_users, Raise ValueError)
  /\ register Scenario.secret Scenario.mac Scenario.hashpw
       (user_data "a@x.com") "u-carol" "salt" Scenario.t0 Scenario.t0
       Scenario.db_users
     = (Scenario.db_users,
        Raise (HTTPException 400 "Email already registered")).
Proof.
  intros user_data. split.
  - destruct (register_long_password Scenario.secret Scenario.mac
                Scenario.hashpw Scenario.db_users (user_data "c@x.com")
                "u-carol" "salt" Scenario.t0 Scenario.t0) as [Hfree _].
    + apply Nat.ltb_lt. vm_compute. reflexivity.
    + destruct Hfree as [Hrun _]; [vm_compute; reflexivity | exact Hrun].
  - destruct (register_long_password Scenario.secret Scenario.mac
                Scenario.hashpw Scenario.db_users (user_data "a@x.com")
                "u-carol" "salt" Scenario.t0 Scenario.t0) as [_ Htaken].
    + apply Nat.ltb_lt. vm_compute. reflexivity.
    + apply (Htaken (default ∅ (users Scenario.db_users !! 0%nat))).
      by_compute.
Defined.
